(** * SAS Copilot: session engine, log lifecycle and retention pruner

    A shallow embedding of the interactive assistant
    (ui/terminal.js, core/assistant.js, services/openaiClient.js,
    utils/logger.js, config/env.js) and of the PowerShell retention
    script clean-logs.ps1, followed by the properties of the
    specification stated and settled against that embedding.

    Conventions of the embedding.
    - JavaScript strings are [string]s; [trim], [toLowerCase] and the
      regular expression [/[a-zA-Z0-9]/] are given on the ASCII range,
      where they coincide with the JavaScript ones.
    - Effects (console, readline, file system, the completion request,
      the clock) are threaded through an explicit [world]; what the
      outside answers (does the request fail, is a file operation
      refused, what time is it) is read from an [oracle], indexed by
      the number of interactions performed so far.
    - A JavaScript exception (a rejected promise for the async
      functions) is the [Throw] result of the monad [M]. *)

From Stdlib Require Import String Ascii List ZArith Lia Bool QArith_base.
From stdpp Require Import strings gmap.

Local Open Scope string_scope.
Local Open Scope list_scope.

(* ===================================================================== *)
(** ** String primitives used by the sources *)
(* ===================================================================== *)

Module Str.

(** ASCII members of the WhiteSpace and LineTerminator classes removed
    by [String.prototype.trim]: TAB, LF, VT, FF, CR and SPACE. *)
Definition is_space (c : ascii) : bool :=
  let n := nat_of_ascii c in
  ((9 <=? n)%nat && (n <=? 13)%nat) || (n =? 32)%nat.

Definition is_upper (c : ascii) : bool :=
  let n := nat_of_ascii c in (65 <=? n)%nat && (n <=? 90)%nat.

Definition is_lower (c : ascii) : bool :=
  let n := nat_of_ascii c in (97 <=? n)%nat && (n <=? 122)%nat.

Definition is_digit (c : ascii) : bool :=
  let n := nat_of_ascii c in (48 <=? n)%nat && (n <=? 57)%nat.

(** The character class [[a-zA-Z0-9]]. *)
Definition is_alnum (c : ascii) : bool :=
  is_lower c || is_upper c || is_digit c.

Definition lower_char (c : ascii) : ascii :=
  if is_upper c then ascii_of_nat (nat_of_ascii c + 32) else c.

(** [s.toLowerCase()] *)
Fixpoint toLowerCase (s : string) : string :=
  match s with
  | EmptyString => EmptyString
  | String c s' => String (lower_char c) (toLowerCase s')
  end.

Fixpoint trimStart (s : string) : string :=
  match s with
  | EmptyString => EmptyString
  | String c s' => if is_space c then trimStart s' else s
  end.

Fixpoint trimEnd (s : string) : string :=
  match s with
  | EmptyString => EmptyString
  | String c s' =>
      match trimEnd s' with
      | EmptyString => if is_space c then EmptyString else String c EmptyString
      | r => String c r
      end
  end.

(** [s.trim()] *)
Definition trim (s : string) : string := trimEnd (trimStart s).

(** [/[a-zA-Z0-9]/.test(s)] *)
Fixpoint has_alnum (s : string) : bool :=
  match s with
  | EmptyString => false
  | String c s' => is_alnum c || has_alnum s'
  end.

(** [s.startsWith(p)] *)
Fixpoint startsWith (s p : string) {struct p} : bool :=
  match p with
  | EmptyString => true
  | String a p' =>
      match s with
      | EmptyString => false
      | String b s' => Ascii.eqb a b && startsWith s' p'
      end
  end.

(** [s.slice(1)] *)
Definition slice1 (s : string) : string :=
  match s with
  | EmptyString => EmptyString
  | String _ s' => s'
  end.

(** [s.split(sep)] for a one-character separator: never empty. *)
Fixpoint split (sep : ascii) (s : string) : list string :=
  match s with
  | EmptyString => [EmptyString]
  | String c s' =>
      if Ascii.eqb c sep then EmptyString :: split sep s'
      else match split sep s' with
           | [] => [String c EmptyString]
           | h :: t => String c h :: t
           end
  end.

(** [l.includes(x)] on an array of strings *)
Definition includes (l : list string) (x : string) : bool :=
  existsb (String.eqb x) l.

(** [s.replace(/[:.]/g, '-')] *)
Definition dash_colon_dot (c : ascii) : ascii :=
  if Ascii.eqb c ":" || Ascii.eqb c "." then "-"%char else c.

Fixpoint replace_colon_dot (s : string) : string :=
  match s with
  | EmptyString => EmptyString
  | String c s' => String (dash_colon_dot c) (replace_colon_dot s')
  end.

Definition no_space (s : string) : bool :=
  forallb (fun c => negb (is_space c)) (list_ascii_of_string s).

End Str.

(* ===================================================================== *)
(** ** config/env.js *)
(* ===================================================================== *)

(** The result of reading a property of one of the two object literals
    ([config.personas], [personaWelcomeMessages]): an own property holds
    a string; a name found on [Object.prototype] yields the inherited
    function (or, for [__proto__], the prototype object itself);
    anything else is [undefined]. *)
Inductive jsval :=
| JUndefined
| JString (s : string)
| JInherited (name : string).

(** ToBoolean *)
Definition truthy (v : jsval) : bool :=
  match v with
  | JUndefined => false
  | JString s => negb (String.eqb s "")
  | JInherited _ => true
  end.

(** [a || b] *)
Definition js_or (a b : jsval) : jsval := if truthy a then a else b.

(** Property names every object literal inherits from [Object.prototype]. *)
Definition object_prototype_names : list string :=
  [ "constructor"; "__proto__"; "hasOwnProperty"; "isPrototypeOf";
    "propertyIsEnumerable"; "toLocaleString"; "toString"; "valueOf";
    "__defineGetter__"; "__defineSetter__";
    "__lookupGetter__"; "__lookupSetter__" ].

Fixpoint own_property (o : list (string * string)) (k : string) : option string :=
  match o with
  | [] => None
  | (k', v) :: o' => if String.eqb k k' then Some v else own_property o' k
  end.

(** [o[k]] for an object literal [o] with string-valued own properties. *)
Definition js_get (o : list (string * string)) (k : string) : jsval :=
  match own_property o k with
  | Some v => JString v
  | None => if Str.includes object_prototype_names k then JInherited k
            else JUndefined
  end.

(** [x === 'literal'] for [x] a string or [undefined]. *)
Definition strict_eq (x : option string) (literal : string) : bool :=
  match x with
  | Some s => String.eqb s literal
  | None => false
  end.

(** A key that is [undefined] is converted to the string "undefined". *)
Definition key_of (k : option string) : string :=
  match k with Some s => s | None => "undefined" end.

Record logging_config := {
  enabled : bool;           (* LOGGING_ENABLED !== 'false' *)
  mode : string;            (* LOGGING_MODE || 'rotate' *)
  directory : string;       (* LOGGING_DIR || 'logs' *)
  filename : string;        (* LOGGING_FILENAME || 'session.log' *)
  retentionDays : Z         (* parseInt(LOG_RETENTION_DAYS, 10) || 7 *)
}.

(** The fields of [config] that come from the environment.  [mock] is
    the value at start-up; the running value lives in the [world],
    since the terminal assigns to [config.mock]. *)
Record config := {
  apiKey : option string;
  model : string;
  mock : bool;
  temperature : Q;
  defaultPersona : string;
  logging : logging_config;
  exitCommands : list string
}.

(** [config.personas] is a literal of the source, not read from the
    environment. *)
Definition personas : list (string * string) :=
  [ ("sas", "You are a helpful SAS programming assistant. Respond with clean, well-formatted explanations and SAS code.");
    ("sql", "You are a knowledgeable SQL assistant. Answer queries with explanations and well-formatted SQL code.");
    ("mentor", "You are a thoughtful mentor. Provide practical career and technical advice with empathy and clarity.");
    ("debugger", "You are a code reviewer. Explain and help fix bugs in SAS code step by step.");
    ("teacher", "You are a SAS teacher. Explain concepts slowly with analogies and beginner-friendly examples.") ].

(** The registry keys. *)
Definition registered (p : string) : bool :=
  match own_property personas p with Some _ => true | None => false end.

(** The configuration obtained when no environment variable is set. *)
Definition default_config : config := {|
  apiKey := None;
  model := "gpt-5-mini";
  mock := false;
  temperature := 4 # 10;
  defaultPersona := "sas";
  logging := {| enabled := true; mode := "rotate"; directory := "logs";
                filename := "session.log"; retentionDays := 7 |};
  exitCommands := ["exit"; "quit"; "q"; ":q"]
|}.

(* ===================================================================== *)
(** ** The world: program state, environment and observable trace *)
(* ===================================================================== *)

(** An instant as [Date] exposes it in UTC. *)
Record instant := {
  year : nat; month : nat; day : nat;
  hour : nat; minute : nat; second : nat; millisecond : nat
}.

(** The request built by [getSasAssistantResponse]: one system message
    and one user message. *)
Record request := {
  req_model : string;
  req_system : jsval;
  req_user : string;
  req_temperature : Q
}.

Inductive fs_op :=
| ExistsSync (path : string)
| MkdirSync (path : string)                  (* { recursive: true } *)
| WriteFileSync (path data : string)
| AppendFileSync (path data : string).

(** What [console.log] prints; the constructors stand for the literal
    texts of ui/terminal.js. *)
Inductive message :=
| UsageHint                                  (* empty line *)
| InvalidHint                                (* no alphanumeric character *)
| PersonaSwitched (selected : string)
| Welcome (text : jsval)
| UnknownPersona (selected : string)
| PersonasHeader
| PersonaEntry (key description : string)
| BlankLine
| HelpMenu
| MockOn
| MockOff
| MockStatus (on : bool)
| MockUsage
| Farewell                                   (* exit command *)
| SessionEnded.                              (* SIGINT *)

Inductive exn :=
| GatewayError
| FsError (op : fs_op).

Inductive event :=
| ConsoleLog (m : message)
| ConsoleError (tag : string) (e : exn)
| RlSetPrompt (persona : string)
| RlPrompt
| RlClose
| ChatCompletion (r : request)
| Render (content persona : string)          (* formatResponse *)
| Fs (op : fs_op).

(** The answers of the outside world. The index is the number of
    interactions (requests, file operations, clock readings) already
    performed by the process. *)
Record oracle := {
  complete : nat -> request -> option string;   (* None: the call fails *)
  denied : nat -> fs_op -> bool;                (* the operation throws *)
  clock : nat -> instant;                       (* new Date() *)
  toLocaleString : instant -> string;
  path_resolve : string -> string               (* path.resolve *)
}.

(** Mutable state read and written by ui/terminal.js: the closure
    variable [activePersona], the readline interface and the one field
    of [config] that is assigned at run time. *)
Record session := {
  config_mock : bool;
  activePersona : string;
  rl_prompt_text : string;        (* the persona shown by the prompt *)
  rl_closed : bool
}.

(** Module state of utils/logger.js. *)
Record logger := {
  logPath : string;
  initialized : bool
}.

Record disk := {
  files : gmap string string;
  dirs : gset string
}.

Record world := {
  sess : session;
  logr : logger;
  fsys : disk;
  ticks : nat;
  trace : list event
}.

Definition set_sess (s : session) (w : world) : world :=
  {| sess := s; logr := logr w; fsys := fsys w; ticks := ticks w; trace := trace w |}.
Definition set_logr (l : logger) (w : world) : world :=
  {| sess := sess w; logr := l; fsys := fsys w; ticks := ticks w; trace := trace w |}.
Definition set_fsys (d : disk) (w : world) : world :=
  {| sess := sess w; logr := logr w; fsys := d; ticks := ticks w; trace := trace w |}.
Definition set_ticks (n : nat) (w : world) : world :=
  {| sess := sess w; logr := logr w; fsys := fsys w; ticks := n; trace := trace w |}.
Definition set_trace (t : list event) (w : world) : world :=
  {| sess := sess w; logr := logr w; fsys := fsys w; ticks := ticks w; trace := t |}.

(* ===================================================================== *)
(** ** The monad of effectful code *)
(* ===================================================================== *)

Inductive result (A : Type) :=
| Return (a : A)
| Throw (e : exn).
Arguments Return {A} a.
Arguments Throw {A} e.

Definition M (A : Type) : Type := world -> result A * world.

Definition ret {A} (a : A) : M A := fun w => (Return a, w).

Definition throw {A} (e : exn) : M A := fun w => (Throw e, w).

Definition bind {A B} (m : M A) (k : A -> M B) : M B :=
  fun w => match m w with
           | (Return a, w') => k a w'
           | (Throw e, w') => (Throw e, w')
           end.

(** [try { m } catch (err) { h err }] *)
Definition try_catch {A} (m : M A) (h : exn -> M A) : M A :=
  fun w => match m w with
           | (Return a, w') => (Return a, w')
           | (Throw e, w') => h e w'
           end.

Declare Scope js_scope.
Delimit Scope js_scope with js.
Notation "x <- m ;; k" := (bind m (fun x => k))
  (at level 100, m at next level, right associativity) : js_scope.
Notation "m ;; k" := (bind m (fun _ => k))
  (at level 100, right associativity) : js_scope.
Local Open Scope js_scope.

Definition gets {A} (f : world -> A) : M A := fun w => (Return (f w), w).

Definition modify (f : world -> world) : M unit := fun w => (Return tt, f w).

Definition emit (e : event) : M unit :=
  modify (fun w => set_trace (trace w ++ [e]) w).

(** One more interaction with the outside: its index. *)
Definition tick : M nat :=
  fun w => (Return (ticks w), set_ticks (S (ticks w)) w).

Definition when (b : bool) (m : M unit) : M unit := if b then m else ret tt.

(* ===================================================================== *)
(** ** Node primitives: fs, path, Date *)
(* ===================================================================== *)

(** The directories above [p]: every non-empty proper prefix of [p]
    that a separator follows. *)
Fixpoint parents (p : string) : list string :=
  match p with
  | EmptyString => []
  | String c p' =>
      let longer := map (String c) (parents p') in
      match p' with
      | String "/" _ => String c EmptyString :: longer
      | _ => longer
      end
  end.

(** All of them, with the root for an absolute path. *)
Definition ancestors (p : string) : list string :=
  (if Str.startsWith p "/" then ["/"] else []) ++ parents p.

Section Node.
Variable O : oracle.

(** [fs.existsSync(p)]: never throws. *)
Definition existsSync (p : string) : M bool :=
  _ <- tick ;;
  emit (Fs (ExistsSync p)) ;;
  d <- gets fsys ;;
  ret (bool_decide (p ∈ dirs d) || bool_decide (is_Some (files d !! p))).

(** [fs.mkdirSync(p, { recursive: true })]: creates [p] and every
    directory above it that is missing. *)
Definition mkdirSync (p : string) : M unit :=
  k <- tick ;;
  emit (Fs (MkdirSync p)) ;;
  if denied O k (MkdirSync p) then throw (FsError (MkdirSync p))
  else modify (fun w =>
         set_fsys {| files := files (fsys w);
                     dirs := {[p]} ∪ list_to_set (ancestors p) ∪ dirs (fsys w) |} w).

(** [fs.writeFileSync(p, data)]: creates or truncates. *)
Definition writeFileSync (p data : string) : M unit :=
  k <- tick ;;
  emit (Fs (WriteFileSync p data)) ;;
  if denied O k (WriteFileSync p data) then throw (FsError (WriteFileSync p data))
  else modify (fun w =>
         set_fsys {| files := <[p := data]> (files (fsys w)); dirs := dirs (fsys w) |} w).

(** [fs.appendFileSync(p, data)]: creates the file when absent. *)
Definition appendFileSync (p data : string) : M unit :=
  k <- tick ;;
  emit (Fs (AppendFileSync p data)) ;;
  if denied O k (AppendFileSync p data) then throw (FsError (AppendFileSync p data))
  else modify (fun w =>
         set_fsys {| files := <[p := default "" (files (fsys w) !! p) +:+ data]>
                                (files (fsys w));
                     dirs := dirs (fsys w) |} w).

(** [new Date()] *)
Definition newDate : M instant :=
  k <- tick ;; ret (clock O k).

End Node.

(** [path.join(dir, file)] for a resolved directory (no trailing
    separator unless it is the root) and a file name. *)
Definition path_join (dir file : string) : string :=
  if String.eqb dir "/" then dir +:+ file else dir +:+ "/" +:+ file.

Definition digit (n : nat) : ascii :=
  match n with
  | 0 => "0" | 1 => "1" | 2 => "2" | 3 => "3" | 4 => "4"
  | 5 => "5" | 6 => "6" | 7 => "7" | 8 => "8" | _ => "9"
  end%char.

(** Zero-padded decimals of fixed width, written in front of [k]. *)
Definition pad2 (n : nat) (k : string) : string :=
  String (digit (n / 10 mod 10)) (String (digit (n mod 10)) k).

Definition pad3 (n : nat) (k : string) : string :=
  String (digit (n / 100 mod 10)) (pad2 (n mod 100) k).

Definition pad4 (n : nat) (k : string) : string :=
  pad2 (n / 100) (pad2 (n mod 100) k).

Definition pad6 (n : nat) (k : string) : string :=
  pad2 (n / (100 * 100)) (pad4 (n mod (100 * 100)) k).

(** [d.toISOString()]: YYYY-MM-DDTHH:mm:ss.sssZ, with the expanded
    six-digit year beyond 9999. *)
Definition toISOString (t : instant) : string :=
  let ms := pad3 (millisecond t) "Z" in
  let ss := pad2 (second t) (String "." ms) in
  let mi := pad2 (minute t) (String ":" ss) in
  let hh := pad2 (hour t) (String ":" mi) in
  let dd := pad2 (day t) (String "T" hh) in
  let mo := pad2 (month t) (String "-" dd) in
  if (year t <? 10 * 1000)%nat then pad4 (year t) (String "-" mo)
  else String "+" (pad6 (year t) (String "-" mo)).

(* ===================================================================== *)
(** ** utils/logger.js *)
(* ===================================================================== *)

Definition nl : string := String (ascii_of_nat 10) EmptyString.

Definition divider : string :=
  "━━━━━━━━━━━━━━━━━━━━━━━━━━━━━━━━━━━━━━━━━━━━━━".

(** The template literal of [logInteraction]. *)
Definition format_entry (persona time input response : string) : string :=
  nl +:+ divider +:+ nl
  +:+ "🧑   Persona: " +:+ persona +:+ nl
  +:+ "⏰      Time: " +:+ time +:+ nl
  +:+ "🔹      User: " +:+ input +:+ nl
  +:+ "🔸 Assistant: " +:+ response +:+ nl
  +:+ divider +:+ nl.

Section Logger.
Variable O : oracle.
Variable cfg : config.

Definition set_logPath (p : string) : M unit :=
  modify (fun w => set_logr {| logPath := p; initialized := initialized (logr w) |} w).

Definition set_initialized (b : bool) : M unit :=
  modify (fun w => set_logr {| logPath := logPath (logr w); initialized := b |} w).

Definition initLogFile : M unit :=
  done <- gets (fun w => initialized (logr w)) ;;
  if negb (enabled (logging cfg)) || done then ret tt
  else
    let logDir := path_resolve O (directory (logging cfg)) in
    present <- existsSync logDir ;;
    when (negb present) (mkdirSync O logDir) ;;
    now <- newDate O ;;
    let timestamp := Str.replace_colon_dot (toISOString now) in
    (if String.eqb (mode (logging cfg)) "rotate" then
       set_logPath (path_join logDir ("session_" +:+ timestamp +:+ ".log"))
     else if String.eqb (mode (logging cfg)) "overwrite" then
       set_logPath (path_join logDir (filename (logging cfg))) ;;
       p <- gets (fun w => logPath (logr w)) ;;
       writeFileSync O p ""
     else
       set_logPath (path_join logDir (filename (logging cfg)))) ;;
    set_initialized true.

Definition logInteraction (input response persona : string) : M unit :=
  if negb (enabled (logging cfg)) then ret tt
  else
    done <- gets (fun w => initialized (logr w)) ;;
    when (negb done) initLogFile ;;
    now <- newDate O ;;
    let entry := format_entry persona (toLocaleString O now)
                              (Str.trim input) (Str.trim response) in
    p <- gets (fun w => logPath (logr w)) ;;
    try_catch (appendFileSync O p entry)
              (fun err => emit (ConsoleError "[Logger Error]" err)).

End Logger.

(* ===================================================================== *)
(** ** services/openaiClient.js, utils/formatter.js, core/assistant.js *)
(* ===================================================================== *)

Section Assistant.
Variable O : oracle.
Variable cfg : config.

(** The selected persona's system prompt, or the default persona's. *)
Definition systemMessage (persona : string) : jsval :=
  js_or (js_get personas persona) (js_get personas (defaultPersona cfg)).

Definition getSasAssistantResponse (promptText persona : string) : M string :=
  let r := {| req_model := model cfg;
              req_system := systemMessage persona;
              req_user := promptText;
              req_temperature := temperature cfg |} in
  k <- tick ;;
  emit (ChatCompletion r) ;;
  match complete O k r with
  | Some content => ret content
  | None => throw GatewayError
  end.

(** The renderer only prints; the call is recorded as one event. *)
Definition formatResponse (content persona : string) : M unit :=
  emit (Render content persona).

Definition handlePrompt (promptText persona : string) : M unit :=
  response <- getSasAssistantResponse promptText persona ;;
  formatResponse response persona ;;
  logInteraction O cfg promptText response persona.

End Assistant.

(* ===================================================================== *)
(** ** ui/terminal.js *)
(* ===================================================================== *)

Definition personaWelcomeMessages : list (string * string) :=
  [ ("sas", "💡 SAS mode activated. Ask about PROC steps, data steps, or macro logic.");
    ("sql", "💡 SQL mode activated. Ask me about queries, joins, optimization, or DDL.");
    ("mentor", "💡 Mentor mode on. Let’s talk career paths, goals, and strategies.");
    ("debugger", "💡 Debugger mode: I’ll help diagnose issues in your SAS code.");
    ("teacher", "💡 Teacher mode: I’ll explain concepts clearly with beginner-friendly examples.") ].

Section Terminal.
Variable O : oracle.
Variable cfg : config.

Definition set_activePersona (p : string) : M unit :=
  modify (fun w => set_sess {| config_mock := config_mock (sess w);
                               activePersona := p;
                               rl_prompt_text := rl_prompt_text (sess w);
                               rl_closed := rl_closed (sess w) |} w).

Definition set_config_mock (b : bool) : M unit :=
  modify (fun w => set_sess {| config_mock := b;
                               activePersona := activePersona (sess w);
                               rl_prompt_text := rl_prompt_text (sess w);
                               rl_closed := rl_closed (sess w) |} w).

(** [rl.setPrompt(`... [${activePersona}] ...`)] *)
Definition setPrompt : M unit :=
  p <- gets (fun w => activePersona (sess w)) ;;
  modify (fun w => set_sess {| config_mock := config_mock (sess w);
                               activePersona := activePersona (sess w);
                               rl_prompt_text := p;
                               rl_closed := rl_closed (sess w) |} w) ;;
  emit (RlSetPrompt p).

Definition rl_prompt : M unit := emit RlPrompt.

Definition rl_close : M unit :=
  modify (fun w => set_sess {| config_mock := config_mock (sess w);
                               activePersona := activePersona (sess w);
                               rl_prompt_text := rl_prompt_text (sess w);
                               rl_closed := true |} w) ;;
  emit RlClose.

Definition console_log (m : message) : M unit := emit (ConsoleLog m).

(** The body shared by both persona switches once [selected] is
    accepted: assignment, confirmation, optional welcome, prompt text. *)
Definition switch_persona (selected : string) : M unit :=
  set_activePersona selected ;;
  console_log (PersonaSwitched selected) ;;
  when (truthy (js_get personaWelcomeMessages selected))
       (console_log (Welcome (js_get personaWelcomeMessages selected))) ;;
  setPrompt.

Fixpoint list_personas (entries : list (string * string)) : M unit :=
  match entries with
  | [] => ret tt
  | (key, description) :: rest =>
      console_log (PersonaEntry key description) ;; list_personas rest
  end.

(** The conditions of the [if] chain, in source order. *)
Definition is_shorthand (command : string) : bool :=
  Str.startsWith command "/" && truthy (js_get personas (Str.slice1 command)).

Definition is_persona_command (lower : string) : bool :=
  Str.startsWith lower "/persona ".

Definition is_help (command : string) : bool :=
  String.eqb command "/help" || String.eqb command "help" || String.eqb command "?".

Definition is_mock (lower : string) : bool :=
  String.eqb lower "/mock" || Str.startsWith lower "/mock ".

(** The listener of the ['line'] event. *)
Definition on_line (input : string) : M unit :=
  let command := Str.trim input in
  let lower := Str.toLowerCase command in
  if String.eqb command "" then
    console_log UsageHint ;; rl_prompt
  else if negb (Str.has_alnum command) then
    console_log InvalidHint ;; rl_prompt
  else if is_shorthand command then
    switch_persona (Str.slice1 command) ;; rl_prompt
  else if is_persona_command lower then
    let selected := key_of (nth_error (Str.split " " lower) 1) in
    (if truthy (js_get personas selected) then switch_persona selected
     else console_log (UnknownPersona selected)) ;;
    rl_prompt
  else if String.eqb command "/personas" then
    console_log PersonasHeader ;;
    list_personas personas ;;
    console_log BlankLine ;;
    rl_prompt
  else if is_help command then
    console_log HelpMenu ;; rl_prompt
  else if is_mock lower then
    let arg := nth_error (Str.split " " lower) 1 in
    (if strict_eq arg "on" then
       set_config_mock true ;; console_log MockOn
     else if strict_eq arg "off" then
       set_config_mock false ;; console_log MockOff
     else
       m <- gets (fun w => config_mock (sess w)) ;;
       console_log (MockStatus m) ;; console_log MockUsage) ;;
    rl_prompt
  else if Str.includes (exitCommands cfg) lower then
    console_log Farewell ;; rl_close
  else
    p <- gets (fun w => activePersona (sess w)) ;;
    handlePrompt O cfg input p ;;
    rl_prompt.

(** The listener of ['SIGINT']. *)
Definition on_sigint : M unit :=
  console_log SessionEnded ;; rl_close.

(** [startTerminal()] up to the registration of the listeners. *)
Definition startTerminal : M unit :=
  set_activePersona (defaultPersona cfg) ;;
  setPrompt ;;
  rl_prompt.

Inductive input_event :=
| Line (text : string)
| Sigint.

Definition dispatch (i : input_event) : M unit :=
  match i with
  | Line text => on_line text
  | Sigint => on_sigint
  end.

(** How a process stands after a sequence of input events. *)
Inductive status :=
| Idle                  (* awaiting the next line *)
| Terminated            (* the interface was closed *)
| Rejected (e : exn).   (* a listener threw: unhandled rejection *)

(** Input events are delivered one at a time, each listener running
    to completion; a closed interface delivers nothing more, and an
    unhandled rejection ends the process (the default of Node 15 and
    later, the image being node:20). *)
Fixpoint run (inputs : list input_event) (w : world) : status * world :=
  match inputs with
  | [] => (if rl_closed (sess w) then Terminated else Idle, w)
  | i :: rest =>
      if rl_closed (sess w) then (Terminated, w)
      else match dispatch i w with
           | (Return _, w') => run rest w'
           | (Throw e, w') => (Rejected e, w')
           end
  end.

End Terminal.

(** The state of a process before [startTerminal]: nothing resolved by
    the logger, [config.mock] as configured, on the disk it finds. *)
Definition boot (cfg : config) (d : disk) : world :=
  {| sess := {| config_mock := mock cfg; activePersona := "";
                rl_prompt_text := ""; rl_closed := false |};
     logr := {| logPath := ""; initialized := false |};
     fsys := d; ticks := 0; trace := [] |}.

(** A whole process: start the terminal, then feed it the inputs. *)
Definition session_run (O : oracle) (cfg : config) (d : disk)
    (inputs : list input_event) : status * world :=
  match startTerminal cfg (boot cfg d) with
  | (Return _, w) => run O cfg inputs w
  | (Throw e, w) => (Rejected e, w)
  end.

(* ===================================================================== *)
(** ** clean-logs.ps1 *)
(* ===================================================================== *)

Module CleanLogs.
Local Open Scope Z_scope.

(** A file of the log directory as the script sees it. Instants are
    [DateTime] ticks (100 ns). [locked] files make [Remove-Item] fail
    with a non-terminating error. *)
Record file := {
  name : string;
  lastWriteTime : Z;
  locked : bool
}.

Definition ticks_per_minute : Z := 600000000.
Definition ticks_per_day : Z := 1440 * ticks_per_minute.

(** [DateTime.MaxValue.Ticks]; [DateTime.MinValue.Ticks] is 0. *)
Definition max_ticks : Z := 3155378975999999999.

Definition in_range (t : Z) : bool := (0 <=? t) && (t <=? max_ticks).

(** [t.AddMinutes(n)] and [t.AddDays(n)] for a whole number [n];
    [None]: the result is not a [DateTime] and the call throws
    [ArgumentOutOfRangeException]. *)
Definition AddMinutes (t n : Z) : option Z :=
  if in_range (t + n * ticks_per_minute) then Some (t + n * ticks_per_minute)
  else None.

Definition AddDays (t n : Z) : option Z :=
  if in_range (t + n * ticks_per_day) then Some (t + n * ticks_per_day)
  else None.

(** [$v = e] where [$v] holds [old]: when [e] throws, the statement is
    abandoned with an error record, the script goes on and [$v] keeps
    its value. *)
Definition assign (old : Z) (e : option Z) : Z :=
  match e with Some v => v | None => old end.

(** What the script is started with and what it finds. *)
Record invocation := {
  retentionDays : Z;          (* [int] parameter, 0 when omitted *)
  retentionMinutes : Z;       (* [int] parameter, 0 when omitted *)
  env_file : bool;            (* Test-Path "$PSScriptRoot\.env" *)
  env_minutes : string;       (* $env:LOG_RETENTION_MINUTES once .env is
                                 loaded, empty when unset *)
  env_days : string;          (* $env:LOG_RETENTION_DAYS, likewise *)
  log_dir : option (list file);   (* None: Test-Path $logDir fails *)
  now : Z                     (* Get-Date: the present instant, more than
                                 seven days after [DateTime.MinValue] *)
}.

Inductive retention_display :=
| DefaultDays                 (* "7 days (default)" *)
| Minutes (m : Z)
| Days (d : Z).

(** Lines written with [Write-Host]. *)
Inductive host_line :=
| DirectoryNotFound
| Cleaning (display : retention_display)
| Deleting (fullName : string)
| NoneEligible                (* "No logs were eligible for deletion." *)
| DeletedCount (n : Z).       (* "Deleted $deleted log file(s)." *)

Record outcome := {
  host : list host_line;
  failed : list string;       (* files [Remove-Item] could not remove *)
  exit_code : Z;
  remaining : option (list file)
}.

Fixpoint ends_with (s suffix : string) : bool :=
  String.eqb s suffix ||
  match s with
  | EmptyString => false
  | String _ s' => ends_with s' suffix
  end.

(** [-Filter *.log] *)
Definition is_log (f : file) : bool :=
  ends_with (Str.toLowerCase (name f)) ".log".

Section Script.
(** The [[int]] cast of an environment string; [None] when the
    conversion fails, in which case the assignment does not happen. *)
Variable to_int : string -> option Z.

Definition cast_or (s : string) (old : Z) : Z :=
  match to_int s with Some v => v | None => old end.

(** Step 1: [($retentionDays, $retentionMinutes)] once the
    environment has been consulted. *)
Definition load_retention (i : invocation) : Z * Z :=
  let d := retentionDays i in
  let m := retentionMinutes i in
  if (d =? 0) && (m =? 0) then
    if env_file i then
      if negb (String.eqb (env_minutes i) "") then (d, cast_or (env_minutes i) m)
      else if negb (String.eqb (env_days i) "") then (cast_or (env_days i) d, m)
      else (d, m)
    else (d, m)
  else (d, m).

(** Step 2: the threshold and what is displayed for it. [$threshold]
    is first set to [$now.AddDays(-7)], which [Get-Date] keeps in
    range; the assignment of either branch is lost when its call
    throws, the display that follows it is not. *)
Definition threshold_of (now d m : Z) : Z * retention_display :=
  let seven := now - 7 * ticks_per_day in
  if m >? 0 then (assign seven (AddMinutes now (- m)), Minutes m)
  else if d >? 0 then (assign seven (AddDays now (- d)), Days d)
  else (seven, DefaultDays).

Definition threshold (i : invocation) : Z :=
  let '(d, m) := load_retention i in fst (threshold_of (now i) d m).

Definition eligible (limit : Z) (f : file) : bool :=
  is_log f && (lastWriteTime f <? limit).

(** Step 3: the pipeline; the accumulator is
    (lines, failures, $deleted, files left). *)
Fixpoint sweep (limit : Z) (fs : list file)
    (acc : list host_line * list string * Z * list file)
    : list host_line * list string * Z * list file :=
  match fs with
  | [] => acc
  | f :: rest =>
      let '(lines, errs, deleted, kept) := acc in
      if eligible limit f then
        sweep limit rest
          (lines ++ [Deleting (name f)],
           if locked f then errs ++ [name f] else errs,
           deleted + 1,
           if locked f then kept ++ [f] else kept)
      else sweep limit rest (lines, errs, deleted, kept ++ [f])
  end.

Definition clean_logs (i : invocation) : outcome :=
  let '(d, m) := load_retention i in
  match log_dir i with
  | None =>
      {| host := [DirectoryNotFound]; failed := []; exit_code := 1;
         remaining := None |}
  | Some fs =>
      let '(limit, display) := threshold_of (now i) d m in
      let '(lines, errs, deleted, kept) :=
        sweep limit fs ([Cleaning display], [], 0, []) in
      {| host := lines ++ [if deleted =? 0 then NoneEligible
                           else DeletedCount deleted];
         failed := errs; exit_code := 0; remaining := Some kept |}
  end.

End Script.

(** Files that survive a sweep: not eligible, or eligible but locked. *)
Definition survives (limit : Z) (f : file) : bool :=
  negb (eligible limit f) || locked f.

(** The script ends with a failure status. *)
Definition fatal (o : outcome) : Prop := exit_code o <> 0.

(** An invocation [clean-logs.ps1 -retentionDays 3] on a directory
    holding one stale and one recent log and one text file. *)
Definition three_days : invocation := {|
  retentionDays := 3; retentionMinutes := 0;
  env_file := true; env_minutes := "90"; env_days := "";
  log_dir := Some [ {| name := "session_old.log"; lastWriteTime := 0; locked := false |};
                    {| name := "session_new.log"; lastWriteTime := 9 * ticks_per_day; locked := false |};
                    {| name := "notes.txt"; lastWriteTime := 0; locked := false |} ];
  now := 10 * ticks_per_day
|}.






(** The [[int]] cast on the two strings used above. *)
Definition small_int (s : string) : option Z :=
  if String.eqb s "0" then Some 0
  else if String.eqb s "3" then Some 3
  else None.

(** [clean-logs.ps1] started where no [logs] directory exists. *)
Definition no_directory : invocation := {|
  retentionDays := 0; retentionMinutes := 0;
  env_file := false; env_minutes := ""; env_days := "";
  log_dir := None; now := 10 * ticks_per_day
|}.

(** A directory where the stale log is held open by another process. *)
Definition locked_directory : invocation := {|
  retentionDays := 0; retentionMinutes := 0;
  env_file := false; env_minutes := ""; env_days := "";
  log_dir := Some [ {| name := "a.log"; lastWriteTime := 0; locked := true |};
                    {| name := "b.log"; lastWriteTime := 1; locked := false |};
                    {| name := "c.log"; lastWriteTime := 9 * ticks_per_day; locked := false |} ];
  now := 10 * ticks_per_day
|}.

End CleanLogs.

(* ===================================================================== *)
(** ** Notions used to state the properties *)
(* ===================================================================== *)

(** The branch of the ['line'] listener an input is dispatched to. *)
Inductive branch :=
| BEmpty | BInvalid | BShorthand | BPersona | BPersonas
| BHelp | BMock | BExit | BQuery.

Definition classify (cfg : config) (input : string) : branch :=
  let command := Str.trim input in
  let lower := Str.toLowerCase command in
  if String.eqb command "" then BEmpty
  else if negb (Str.has_alnum command) then BInvalid
  else if is_shorthand command then BShorthand
  else if is_persona_command lower then BPersona
  else if String.eqb command "/personas" then BPersonas
  else if is_help command then BHelp
  else if is_mock lower then BMock
  else if Str.includes (exitCommands cfg) lower then BExit
  else BQuery.


(** The request sent for [promptText] under [persona]. *)
Definition request_for (cfg : config) (persona promptText : string) : request :=
  {| req_model := model cfg;
     req_system := systemMessage cfg persona;
     req_user := promptText;
     req_temperature := temperature cfg |}.

(** The completion requests of a trace, in order. *)
Fixpoint gateway_calls (tr : list event) : list request :=
  match tr with
  | [] => []
  | ChatCompletion r :: tr' => r :: gateway_calls tr'
  | _ :: tr' => gateway_calls tr'
  end.

(** Events the logger may produce. *)
Definition is_logger_event (e : event) : Prop :=
  match e with
  | Fs _ | ConsoleError _ _ => True
  | _ => False
  end.

(** A token: not empty, free of white space. *)
Definition is_token (t : string) : bool :=
  negb (String.eqb t "") && Str.no_space t.

(** The lines whose persona selection names a property inherited from
    [Object.prototype] rather than a persona. *)
Definition selects_inherited (input : string) : bool :=
  let command := Str.trim input in
  Str.includes object_prototype_names (Str.slice1 command)
  || Str.includes object_prototype_names
       (key_of (nth_error (Str.split " " (Str.toLowerCase command)) 1)).

Definition selects_inherited_event (i : input_event) : bool :=
  match i with
  | Line text => selects_inherited text
  | Sigint => false
  end.

(** The world once the request of a query line has been issued, and
    once its answer has been rendered. *)
Definition after_request (cfg : config) (input : string) (w : world) : world :=
  set_trace (trace w ++ [ChatCompletion (request_for cfg (activePersona (sess w)) input)])
            (set_ticks (S (ticks w)) w).

Definition after_render (cfg : config) (input content : string) (w : world) : world :=
  set_trace (trace w ++ [ChatCompletion (request_for cfg (activePersona (sess w)) input);
                         Render content (activePersona (sess w))])
            (set_ticks (S (ticks w)) w).

(** An oracle whose completion endpoint always fails, and one that
    answers every request; the file system refuses nothing. *)
Definition noon : instant :=
  {| year := 2026; month := 11; day := 2; hour := 12; minute := 0;
     second := 0; millisecond := 0 |}.

Definition offline : oracle :=
  {| complete := fun _ _ => None;
     denied := fun _ _ => false;
     clock := fun _ => noon;
     toLocaleString := fun _ => "11/2/2026, 12:00:00 PM";
     path_resolve := fun d => "/app/" +:+ d |}.

Definition online : oracle :=
  {| complete := fun _ r => Some ("Use PROC SORT.");
     denied := fun _ _ => false;
     clock := fun _ => noon;
     toLocaleString := fun _ => "11/2/2026, 12:00:00 PM";
     path_resolve := fun d => "/app/" +:+ d |}.

Definition empty_disk : disk := {| files := ∅; dirs := ∅ |}.

(** The world of a default-configured process waiting at its first prompt. *)
Definition at_prompt : world :=
  {| sess := {| config_mock := false; activePersona := "sas";
                rl_prompt_text := "sas"; rl_closed := false |};
     logr := {| logPath := ""; initialized := false |};
     fsys := empty_disk; ticks := 0;
     trace := [RlSetPrompt "sas"; RlPrompt] |}.

(** The configuration obtained with [OPENAI_PERSONA=analyst]. *)
Definition analyst_config : config := {|
  apiKey := None; model := "gpt-5-mini"; mock := false; temperature := 4 # 10;
  defaultPersona := "analyst";
  logging := logging default_config;
  exitCommands := exitCommands default_config
|}.

(** No line of the sequence names an inherited property. *)
Definition plain_inputs (inputs : list input_event) : bool :=
  forallb (fun i => negb (selects_inherited_event i)) inputs.



Definition capital_exit_config : config := {|
  apiKey := None; model := "gpt-5-mini"; mock := false; temperature := 4 # 10;
  defaultPersona := "sas";
  logging := logging default_config;
  exitCommands := ["Exit"; "Quit"]
|}.

(** ** What an observer blind to the mock flag sees *)

(** The messages that report the mock flag or its change are made
    indistinguishable; every other event is kept. *)
Definition mask_event (e : event) : event :=
  match e with
  | ConsoleLog MockOn | ConsoleLog MockOff => ConsoleLog MockOn
  | ConsoleLog (MockStatus _) => ConsoleLog (MockStatus false)
  | _ => e
  end.

Definition mask_mock (w : world) : world :=
  {| sess := {| config_mock := false;
                activePersona := activePersona (sess w);
                rl_prompt_text := rl_prompt_text (sess w);
                rl_closed := rl_closed (sess w) |};
     logr := logr w; fsys := fsys w; ticks := ticks w;
     trace := map mask_event (trace w) |}.

(** Two worlds that differ at most in [config.mock] and in the mock
    messages already printed. *)
Definition mock_blind (w1 w2 : world) : Prop := mask_mock w1 = mask_mock w2.

(** Lines of the form [/mock on] or [/mock off]. *)
Definition is_mock_toggle (cfg : config) (input : string) : bool :=
  match classify cfg input with
  | BMock =>
      let arg := nth_error (Str.split " " (Str.toLowerCase (Str.trim input))) 1 in
      strict_eq arg "on" || strict_eq arg "off"
  | _ => false
  end.

(** Two input events that are the same, or are both mock toggles. *)
Definition mock_twin (cfg : config) (i1 i2 : input_event) : Prop :=
  i1 = i2 \/
  exists l1 l2, i1 = Line l1 /\ i2 = Line l2 /\
                is_mock_toggle cfg l1 = true /\ is_mock_toggle cfg l2 = true.

Definition with_mock (b : bool) (w : world) : world :=
  set_sess {| config_mock := b;
              activePersona := activePersona (sess w);
              rl_prompt_text := rl_prompt_text (sess w);
              rl_closed := rl_closed (sess w) |} w.

(** ** Notions used for the log lifecycle *)

(** One call of [logInteraction]. *)
Record interaction := {
  i_input : string;
  i_response : string;
  i_persona : string
}.

(** Successive calls within one process. *)
Fixpoint log_all (O : oracle) (cfg : config) (calls : list interaction) : M unit :=
  match calls with
  | [] => ret tt
  | c :: rest =>
      logInteraction O cfg (i_input c) (i_response c) (i_persona c) ;;
      log_all O cfg rest
  end.

(** What [fs.existsSync] answers for [p]. *)
Definition present (p : string) (w : world) : bool :=
  bool_decide (p ∈ dirs (fsys w)) || bool_decide (is_Some (files (fsys w) !! p)).

(** The instant [initLogFile] reads: after the existence test and,
    when the directory is absent, its creation. *)
Definition resolution_instant (O : oracle) (cfg : config) (w : world) : instant :=
  clock O (if present (path_resolve O (directory (logging cfg))) w
           then S (ticks w) else S (S (ticks w))).

Definition rotated_name (t : instant) : string :=
  "session_" +:+ Str.replace_colon_dot (toISOString t) +:+ ".log".

(** The path a first resolution arrives at. *)
Definition resolved_path (O : oracle) (cfg : config) (w : world) : string :=
  let logDir := path_resolve O (directory (logging cfg)) in
  if String.eqb (mode (logging cfg)) "rotate"
  then path_join logDir (rotated_name (resolution_instant O cfg w))
  else path_join logDir (filename (logging cfg)).

(** Events that are an append to [p], or the report of its failure. *)
Definition is_append_to (p : string) (e : event) : Prop :=
  match e with
  | Fs (AppendFileSync q _) => q = p
  | ConsoleError _ (FsError (AppendFileSync q _)) => q = p
  | _ => False
  end.

(** The fields of an instant have the widths [toISOString] prints
    without the expanded year. *)
Definition four_digit_year (t : instant) : Prop :=
  year t < 10 * 1000 /\ month t < 100 /\ day t < 100 /\ hour t < 100 /\
  minute t < 100 /\ second t < 100 /\ millisecond t < 1000.

(** The content of a file, empty when it does not exist. *)
Definition content (p : string) (w : world) : string :=
  default "" (files (fsys w) !! p).

(** An oracle under which the log directory cannot be created, and one
    under which the log file cannot be truncated. *)
Definition no_mkdir : oracle :=
  {| complete := fun _ r => Some ("Use PROC SORT.");
     denied := fun _ op => match op with MkdirSync _ => true | _ => false end;
     clock := fun _ => noon;
     toLocaleString := fun _ => "11/2/2026, 12:00:00 PM";
     path_resolve := fun d => "/app/" +:+ d |}.

Definition no_truncate : oracle :=
  {| complete := fun _ r => Some ("Use PROC SORT.");
     denied := fun _ op => match op with WriteFileSync _ _ => true | _ => false end;
     clock := fun _ => noon;
     toLocaleString := fun _ => "11/2/2026, 12:00:00 PM";
     path_resolve := fun d => "/app/" +:+ d |}.

(** The configurations obtained with [LOGGING_MODE=overwrite] and
    [LOGGING_MODE=append]. *)
Definition overwrite_config : config := {|
  apiKey := None; model := "gpt-5-mini"; mock := false; temperature := 4 # 10;
  defaultPersona := "sas";
  logging := {| enabled := true; mode := "overwrite"; directory := "logs";
                filename := "session.log"; retentionDays := 7 |};
  exitCommands := exitCommands default_config
|}.

Definition append_config : config := {|
  apiKey := None; model := "gpt-5-mini"; mock := false; temperature := 4 # 10;
  defaultPersona := "sas";
  logging := {| enabled := true; mode := "append"; directory := "logs";
                filename := "session.log"; retentionDays := 7 |};
  exitCommands := exitCommands default_config
|}.

(** A disk on which an earlier run left a log. *)
Definition used_disk : disk :=
  {| files := {[ "/app/logs/session.log" := "earlier entries" ]};
     dirs := {[ "/app/logs" ]} |}.

(** A process at its first prompt on [used_disk]. *)
Definition at_prompt_on (d : disk) : world :=
  {| sess := sess at_prompt; logr := logr at_prompt; fsys := d;
     ticks := 0; trace := trace at_prompt |}.

Definition sample_call : interaction :=
  {| i_input := "How do I sort?"; i_response := "Use PROC SORT."; i_persona := "sas" |}.

(** An oracle whose clock shows a later instant. *)
Definition later : oracle :=
  {| complete := complete online; denied := denied online;
     clock := fun _ => {| year := 2026; month := 11; day := 2; hour := 12;
                          minute := 0; second := 0; millisecond := 1 |};
     toLocaleString := toLocaleString online;
     path_resolve := path_resolve online |}.

(* ===================================================================== *)
(** ** Relations between the world before and after a computation *)
(* ===================================================================== *)

(** [R] holds across every run of [m], whatever its result. *)
Definition frames (R : world -> world -> Prop) {A} (m : M A) : Prop :=
  forall w, R w (snd (m w)).

(** Across logger code the session is untouched and the trace grows by
    file-system and diagnostic events only. *)
Definition logger_step (w w' : world) : Prop :=
  sess w' = sess w /\
  exists evs, trace w' = trace w ++ evs /\ Forall is_logger_event evs.

(** The active persona is the same before and after. *)
Definition persona_kept (w w' : world) : Prop :=
  activePersona (sess w') = activePersona (sess w).

(** A computation is blind to the mock flag when, from two worlds that
    differ at most in the flag, it returns the same result and leaves
    two worlds that again differ at most in the flag. *)
Definition blind {A} (m : M A) : Prop :=
  forall w1 w2, mock_blind w1 w2 ->
    fst (m w1) = fst (m w2) /\ mock_blind (snd (m w1)) (snd (m w2)).

(* ===================================================================== *)
(** ** Further notions: the terminal *)
(* ===================================================================== *)

(** How often the prompt is shown in a trace. *)
Fixpoint prompts (tr : list event) : nat :=
  match tr with
  | [] => 0
  | RlPrompt :: tr' => S (prompts tr')
  | _ :: tr' => prompts tr'
  end.

(** Events of the console and of the readline interface. *)
Definition is_console_event (e : event) : Prop :=
  match e with
  | ConsoleLog _ | RlSetPrompt _ | RlPrompt | RlClose => True
  | _ => False
  end.

(** The prompt text names the active persona. *)
Definition prompt_in_step (w : world) : Prop :=
  rl_prompt_text (sess w) = activePersona (sess w).

Definition branch_is_exit (b : branch) : bool :=
  match b with BExit => true | _ => false end.

Definition branch_eq_dec (a b : branch) : {a = b} + {a <> b}.
Proof. decide equality. Defined.

(** ** Further notions: strings *)

(** The first character, if any, is not white space. *)
Definition starts_solid (s : string) : Prop :=
  match s with
  | EmptyString => True
  | String c _ => Str.is_space c = false
  end.

(** [l.join(sep)] *)
Fixpoint join (sep : ascii) (l : list string) : string :=
  match l with
  | [] => EmptyString
  | [x] => x
  | x :: rest => x +:+ String sep (join sep rest)
  end.

(** The character [c] does not occur in [s]. *)
Definition free_of (c : ascii) (s : string) : bool :=
  forallb (fun a => negb (Ascii.eqb a c)) (list_ascii_of_string s).

(** ** Further notions: requests and the log *)

(** A request built from the configuration and the prompt of a
    registry entry. *)
Definition registry_request (cfg : config) (r : request) : Prop :=
  req_model r = model cfg /\ req_temperature r = temperature cfg /\
  exists p text, own_property personas p = Some text /\ req_system r = JString text.

(** Events other than file operations and logger diagnostics. *)
Definition no_file_event (e : event) : Prop :=
  match e with
  | Fs _ | ConsoleError _ _ => False
  | _ => True
  end.

(** The entries successive calls write when the log file is resolved
    and no append is refused; each call reads the clock, then appends. *)
Fixpoint entries_of (O : oracle) (k : nat) (calls : list interaction) : string :=
  match calls with
  | [] => ""
  | c :: rest =>
      format_entry (i_persona c) (toLocaleString O (clock O k))
                   (Str.trim (i_input c)) (Str.trim (i_response c))
      +:+ entries_of O (S (S k)) rest
  end.

(** The file operations of a first resolution that returns. *)
Definition resolution_ops (O : oracle) (cfg : config) (w : world) : list event :=
  let logDir := path_resolve O (directory (logging cfg)) in
  Fs (ExistsSync logDir)
  :: (if present logDir w then [] else [Fs (MkdirSync logDir)])
  ++ (if String.eqb (mode (logging cfg)) "rotate" then []
      else if String.eqb (mode (logging cfg)) "overwrite"
           then [Fs (WriteFileSync (resolved_path O cfg w) "")]
           else []).

(** A process that has resolved its log file on [used_disk]. *)
Definition resumed : world :=
  {| sess := sess at_prompt;
     logr := {| logPath := "/app/logs/session.log"; initialized := true |};
     fsys := used_disk; ticks := 4; trace := [] |}.

(** The configuration obtained with [LOGGING_ENABLED=false]. *)
Definition silent_config : config := {|
  apiKey := None; model := "gpt-5-mini"; mock := false; temperature := 4 # 10;
  defaultPersona := "sas";
  logging := {| enabled := false; mode := "rotate"; directory := "logs";
                filename := "session.log"; retentionDays := 7 |};
  exitCommands := exitCommands default_config
|}.

(** What survives a step when logging is disabled. *)
Definition disk_untouched (w w' : world) : Prop :=
  fsys w' = fsys w /\ logr w' = logr w /\
  (Forall no_file_event (trace w) -> Forall no_file_event (trace w')).


(** ** Further notions: counting what a session did *)

(** The answers rendered and the appends attempted in a trace. *)
Fixpoint renders (tr : list event) : nat :=
  match tr with
  | [] => 0
  | Render _ _ :: tr' => S (renders tr')
  | _ :: tr' => renders tr'
  end.

Fixpoint appends (tr : list event) : nat :=
  match tr with
  | [] => 0
  | Fs (AppendFileSync _ _) :: tr' => S (appends tr')
  | _ :: tr' => appends tr'
  end.

(** Every request was answered and rendered, and every rendered answer
    was handed to the log file when logging is enabled. *)
Definition settled (cfg : config) (w : world) : Prop :=
  length (gateway_calls (trace w)) = renders (trace w) /\
  appends (trace w) = if enabled (logging cfg) then renders (trace w) else 0.

(** At most one request is unanswered and one answer unlogged. *)
Definition pending (cfg : config) (w : world) : Prop :=
  renders (trace w) <= length (gateway_calls (trace w)) <= S (renders (trace w)) /\
  if enabled (logging cfg)
  then appends (trace w) <= renders (trace w) <= S (appends (trace w))
  else appends (trace w) = 0.

(* ===================================================================== *)
(** ** utils/formatter.js: what a rendering prints *)
(* ===================================================================== *)

Module Formatter.

Definition upper_char (c : ascii) : ascii :=
  if Str.is_lower c then ascii_of_nat (nat_of_ascii c - 32) else c.

(** [s.toUpperCase()] *)
Fixpoint toUpperCase (s : string) : string :=
  match s with
  | EmptyString => EmptyString
  | String c s' => String (upper_char c) (toUpperCase s')
  end.

(** [persona?.toUpperCase() || 'ASSISTANT'] *)
Definition personaLabel (persona : option string) : string :=
  match persona with
  | Some p => if String.eqb (toUpperCase p) "" then "ASSISTANT" else toUpperCase p
  | None => "ASSISTANT"
  end.

(** [content.split(/```(?:sas)?/)]: the text is scanned from the left;
    where three backquotes begin, a part ends and the marker is
    skipped, together with the letters [sas] when they follow at once.
    [skip] counts the characters of a marker still to be passed. *)
Fixpoint parts_from (skip : nat) (s : string) : list string :=
  match s with
  | EmptyString => [EmptyString]
  | String c s' =>
      match skip with
      | S k => parts_from k s'
      | O =>
          if Str.startsWith s "```" then
            EmptyString :: parts_from (if Str.startsWith s "```sas" then 5 else 2) s'
          else match parts_from 0 s' with
               | h :: t => String c h :: t
               | [] => [String c EmptyString]
               end
      end
  end.

Definition parts (content : string) : list string := parts_from 0 content.

(** The calls of [console.log], with the colour applied. *)
Inductive line :=
| Heading (label : string)      (* cyan, bold, between two line feeds *)
| Prose (text : string)         (* white *)
| Code (text : string)          (* bright green *)
| Rule.                         (* gray *)

(** [parts.forEach((part, i) => ...)], from index [i]. *)
Fixpoint blocks (i : nat) (ps : list string) : list line :=
  match ps with
  | [] => []
  | part :: rest =>
      (if Nat.even i then Prose (Str.trim part)
       else Code (nl +:+ Str.trim part +:+ nl))
      :: blocks (S i) rest
  end.

(** What [formatResponse(content, persona)] prints. *)
Definition console_lines (content : string) (persona : option string) : list line :=
  Heading (personaLabel persona) :: blocks 0 (parts content) ++ [Rule].

(** Three backquotes occur somewhere in [s]. *)
Fixpoint has_fence (s : string) : bool :=
  match s with
  | EmptyString => false
  | String _ s' => Str.startsWith s "```" || has_fence s'
  end.

Definition no_backquote (s : string) : bool :=
  forallb (fun c => negb (Ascii.eqb c "`")) (list_ascii_of_string s).

End Formatter.

(* ===================================================================== *)
(** ** config/env.js: the configuration read from the environment *)
(* ===================================================================== *)

Module Env.

(** [v || d] for [v] a string or [undefined]. *)
Definition or_default (v : option string) (d : string) : string :=
  match v with
  | Some s => if String.eqb s "" then d else s
  | None => d
  end.

Definition digit_value (c : ascii) : Z := Z.of_nat (nat_of_ascii c - 48).

(** The longest prefix of decimal digits, read as a number; [acc] is
    [None] until a digit has been seen. *)
Fixpoint read_digits (s : string) (acc : option Z) : option Z :=
  match s with
  | EmptyString => acc
  | String c s' =>
      if Str.is_digit c
      then read_digits s' (Some (10 * default 0%Z acc + digit_value c)%Z)
      else acc
  end.

(** [parseInt(s, 10)]; [None] is [NaN]. The value is the exact
    integer, which is the Number returned as long as it is below
    2^53. *)
Definition parseInt (s : string) : option Z :=
  match Str.trimStart s with
  | String "-" r => option_map Z.opp (read_digits r None)
  | String "+" r => read_digits r None
  | t => read_digits t None
  end.

Section Config.
(** [parseFloat] on a string; [None] is [NaN]. *)
Variable parseFloat : string -> option Q.

(** [process.env] once [dotenv.config()] has run. *)
Definition config_of (env : gmap string string) : config := {|
  apiKey := env !! "OPENAI_API_KEY";
  model := or_default (env !! "OPENAI_MODEL") "gpt-5-mini";
  mock := strict_eq (env !! "OPENAI_MOCK") "true";
  temperature :=
    match parseFloat (key_of (env !! "OPENAI_TEMPERATURE")) with
    | Some q => if Qeq_bool q 0 then 4 # 10 else q
    | None => 4 # 10
    end;
  defaultPersona := or_default (env !! "OPENAI_PERSONA") "sas";
  logging := {|
    enabled := negb (strict_eq (env !! "LOGGING_ENABLED") "false");
    mode := or_default (env !! "LOGGING_MODE") "rotate";
    directory := or_default (env !! "LOGGING_DIR") "logs";
    filename := or_default (env !! "LOGGING_FILENAME") "session.log";
    retentionDays :=
      match parseInt (key_of (env !! "LOG_RETENTION_DAYS")) with
      | Some z => if (z =? 0)%Z then 7%Z else z
      | None => 7%Z
      end
  |};
  exitCommands :=
    Str.split "," (or_default (env !! "OPENAI_EXIT_COMMANDS") "exit,quit,q,:q")
|}.

End Config.

(** A [parseFloat] that reads nothing, and an environment that sets
    two variables to the empty string. *)
Definition no_float (s : string) : option Q := None.

Definition blank_env : gmap string string :=
  {[ "LOGGING_MODE" := ""; "OPENAI_EXIT_COMMANDS" := "bye, Q" ]}.

End Env.

(* ===================================================================== *)
(** ** Further notions: the retention script and the container mount *)
(* ===================================================================== *)

Module Pruning.
Import CleanLogs.

(** The same invocation on another directory content. *)
Definition on_directory (i : invocation) (fs : list file) : invocation :=
  {| retentionDays := retentionDays i; retentionMinutes := retentionMinutes i;
     env_file := env_file i; env_minutes := env_minutes i; env_days := env_days i;
     log_dir := Some fs; now := now i |}.

(** The same invocation next to another [.env] file. *)
Definition with_env (i : invocation) (present : bool) (minutes days : string)
    : invocation :=
  {| retentionDays := retentionDays i; retentionMinutes := retentionMinutes i;
     env_file := present; env_minutes := minutes; env_days := days;
     log_dir := log_dir i; now := now i |}.

(** [s.Substring(n)]: fails when [n] exceeds the length. *)
Fixpoint Substring (n : nat) (s : string) : option string :=
  match n with
  | O => Some s
  | S k => match s with
           | EmptyString => None
           | String _ s' => Substring k s'
           end
  end.

(** [s.Substring(0, 1)] *)
Definition first_char (s : string) : option string :=
  match s with
  | EmptyString => None
  | String c _ => Some (String c EmptyString)
  end.

(** [s.Replace('\', '/')] *)
Fixpoint slashes (s : string) : string :=
  match s with
  | EmptyString => EmptyString
  | String c s' =>
      String (if Ascii.eqb c "\" then "/"%char else c) (slashes s')
  end.

(** [$logPath] as the scripts compute it from the resolved Windows
    path: converted when the Docker engine runs Linux containers
    ([$osType -eq 'linux']), the path itself otherwise. The rest of
    the path is taken from index [from]: 3 in the [Run] task of
    build.build.ps1, 2 in run.ps1. [None]: a [Substring] call raises
    its range error. *)
Definition mount_source (from : nat) (linux : bool) (windowsLogPath : string)
    : option string :=
  if linux then
    match first_char windowsLogPath, Substring from windowsLogPath with
    | Some drive, Some rest =>
        Some ("/mnt/" +:+ Str.toLowerCase drive +:+ "/" +:+ slashes rest)
    | _, _ => None
    end
  else Some windowsLogPath.

Definition build_mount_source : bool -> string -> option string := mount_source 3.
Definition run_mount_source : bool -> string -> option string := mount_source 2.

End Pruning.

(* ===================================================================== *)
(** * Sanity checks of the embedding *)
(* ===================================================================== *)

Example trim_ex : Str.trim "  /Persona  SQL	 " = "/Persona  SQL".
Proof. reflexivity. Qed.

Example lower_ex : Str.toLowerCase "/Persona SQL:q?" = "/persona sql:q?".
Proof. reflexivity. Qed.

Example split_ex : Str.split " " "/mock  on" = ["/mock"; ""; "on"].
Proof. reflexivity. Qed.

Example toISOString_expanded_ex :
  toISOString {| year := 10 * 1000 + 2026; month := 1; day := 31; hour := 23; minute := 59;
                 second := 59; millisecond := 999 |} = "+012026-01-31T23:59:59.999Z".
Proof. reflexivity. Qed.

Example toISOString_ex :
  toISOString {| year := 2026; month := 11; day := 2; hour := 9; minute := 5;
                 second := 7; millisecond := 42 |} = "2026-11-02T09:05:07.042Z".
Proof. reflexivity. Qed.

(** The scenario of the specification: a hint for the empty line, the
    invalid-input hint, the switch to [sql], one request under the
    [sql] prompt, then the farewell. *)
Example scenario :
  trace (snd (session_run online default_config empty_disk
                [Line ""; Line "???"; Line "/sql"; Line "what is a join";
                 Line "QUIT"]))
  = [ RlSetPrompt "sas"; RlPrompt;
      ConsoleLog UsageHint; RlPrompt;
      ConsoleLog InvalidHint; RlPrompt;
      ConsoleLog (PersonaSwitched "sql");
      ConsoleLog (Welcome (JString "💡 SQL mode activated. Ask me about queries, joins, optimization, or DDL."));
      RlSetPrompt "sql"; RlPrompt;
      ChatCompletion (request_for default_config "sql" "what is a join");
      Render "Use PROC SORT." "sql";
      Fs (ExistsSync "/app/logs"); Fs (MkdirSync "/app/logs");
      Fs (AppendFileSync "/app/logs/session_2026-11-02T12-00-00-000Z.log"
            (format_entry "sql" "11/2/2026, 12:00:00 PM" "what is a join"
                          "Use PROC SORT."));
      RlPrompt;
      ConsoleLog Farewell; RlClose ].
Proof. reflexivity. Qed.

(* ===================================================================== *)
(** * Reasoning about effectful code *)
(* ===================================================================== *)

Local Open Scope js_scope.

Ltac run_monad :=
  unfold bind, try_catch, emit, gets, modify, tick, when, ret, throw; cbn.

(** A relation between the world before and after that holds across
    every step of a computation, whatever its result. *)
Section Frame.
Variable R : world -> world -> Prop.
Hypothesis R_refl : forall w, R w w.
Hypothesis R_trans : forall w1 w2 w3, R w1 w2 -> R w2 w3 -> R w1 w3.

Lemma frames_ret {A} (a : A) : frames R (ret a).
Proof. intros w. apply R_refl. Qed.

Lemma frames_throw {A} (e : exn) : frames R (@throw A e).
Proof. intros w. apply R_refl. Qed.

Lemma frames_gets {A} (f : world -> A) : frames R (gets f).
Proof. intros w. apply R_refl. Qed.

Lemma frames_bind {A B} (m : M A) (k : A -> M B) :
  frames R m -> (forall a, frames R (k a)) -> frames R (bind m k).
Proof.
  intros Hm Hk w. unfold bind. specialize (Hm w).
  destruct (m w) as [[a|e] w1]; cbn in *; [|assumption].
  eapply R_trans; [eassumption | apply Hk].
Qed.

Lemma frames_try_catch {A} (m : M A) (h : exn -> M A) :
  frames R m -> (forall e, frames R (h e)) -> frames R (try_catch m h).
Proof.
  intros Hm Hh w. unfold try_catch. specialize (Hm w).
  destruct (m w) as [[a|e] w1]; cbn in *; [assumption|].
  eapply R_trans; [eassumption | apply Hh].
Qed.

Lemma frames_when (b : bool) (m : M unit) : frames R m -> frames R (when b m).
Proof. intros Hm. destruct b; [assumption | apply frames_ret]. Qed.

Lemma frames_if {A} (b : bool) (m1 m2 : M A) :
  frames R m1 -> frames R m2 -> frames R (if b then m1 else m2).
Proof. destruct b; auto. Qed.

End Frame.

(* ===================================================================== *)
(** * The logger leaves the session alone *)
(* ===================================================================== *)

Lemma logger_step_refl w : logger_step w w.
Proof. split; [reflexivity|]. exists []. rewrite app_nil_r. auto. Qed.

Lemma logger_step_trans w1 w2 w3 :
  logger_step w1 w2 -> logger_step w2 w3 -> logger_step w1 w3.
Proof.
  intros [Hs1 (e1 & Ht1 & Hf1)] [Hs2 (e2 & Ht2 & Hf2)]. split; [congruence|].
  exists (e1 ++ e2). rewrite Ht2, Ht1, app_assoc. split; [reflexivity|].
  apply Forall_app. auto.
Qed.

Lemma logger_step_emit e :
  is_logger_event e -> frames logger_step (emit e).
Proof.
  intros He w. split; [reflexivity|]. exists [e]. cbn. auto.
Qed.

Lemma logger_step_tick : frames logger_step tick.
Proof.
  intros w. split; [reflexivity|]. exists []. cbn.
  rewrite app_nil_r. auto.
Qed.

Lemma logger_step_quiet (f : world -> world) :
  (forall w, sess (f w) = sess w) -> (forall w, trace (f w) = trace w) ->
  frames logger_step (modify f).
Proof.
  intros Hs Ht w. split; [apply Hs|]. exists []. cbn.
  rewrite Ht, app_nil_r. auto.
Qed.

Create HintDb logger_frame.
#[local] Hint Resolve logger_step_refl logger_step_trans logger_step_tick : logger_frame.

Ltac frame_logger :=
  repeat first
    [ apply (frames_bind logger_step logger_step_trans); [|intros ?]
    | apply (frames_try_catch logger_step logger_step_trans); [|intros ?]
    | apply (frames_when logger_step logger_step_refl)
    | apply (frames_if logger_step)
    | apply (frames_ret logger_step logger_step_refl)
    | apply (frames_throw logger_step logger_step_refl)
    | apply (frames_gets logger_step logger_step_refl)
    | apply logger_step_tick
    | apply logger_step_emit; exact I
    | apply logger_step_quiet; intros ?; reflexivity ].

Lemma existsSync_frames p : frames logger_step (existsSync p).
Proof. unfold existsSync. frame_logger. Qed.

Lemma mkdirSync_frames O p : frames logger_step (mkdirSync O p).
Proof. unfold mkdirSync. frame_logger. Qed.

Lemma writeFileSync_frames O p data : frames logger_step (writeFileSync O p data).
Proof. unfold writeFileSync. frame_logger. Qed.

Lemma appendFileSync_frames O p data : frames logger_step (appendFileSync O p data).
Proof. unfold appendFileSync. frame_logger. Qed.

Lemma newDate_frames O : frames logger_step (newDate O).
Proof. unfold newDate. frame_logger. Qed.

Lemma initLogFile_frames O cfg : frames logger_step (initLogFile O cfg).
Proof.
  unfold initLogFile, set_logPath, set_initialized.
  frame_logger;
    first [ apply existsSync_frames | apply mkdirSync_frames
          | apply writeFileSync_frames | apply newDate_frames ].
Qed.

Lemma logInteraction_frames O cfg input response persona :
  frames logger_step (logInteraction O cfg input response persona).
Proof.
  unfold logInteraction.
  frame_logger;
    first [ apply initLogFile_frames | apply newDate_frames
          | apply appendFileSync_frames ].
Qed.

Lemma gateway_calls_app tr1 tr2 :
  gateway_calls (tr1 ++ tr2) = gateway_calls tr1 ++ gateway_calls tr2.
Proof.
  induction tr1 as [|e tr1 IH]; [reflexivity|].
  destruct e; cbn; rewrite ?IH; reflexivity.
Qed.

Lemma gateway_calls_logger evs :
  Forall is_logger_event evs -> gateway_calls evs = [].
Proof.
  induction 1 as [|e evs He _ IH]; [reflexivity|].
  destruct e; cbn in *; try contradiction; assumption.
Qed.

Lemma logger_step_gateway_calls w w' :
  logger_step w w' -> gateway_calls (trace w') = gateway_calls (trace w).
Proof.
  intros [_ (evs & -> & Hevs)].
  rewrite gateway_calls_app, (gateway_calls_logger evs Hevs), app_nil_r.
  reflexivity.
Qed.

(* ===================================================================== *)
(** * Properties of the retention pruner *)
(* ===================================================================== *)

Module CleanLogsFacts.
Import CleanLogs.
Local Open Scope Z_scope.

Lemma sweep_spec limit fs : forall lines errs n kept,
  sweep limit fs (lines, errs, n, kept) =
    (lines ++ map (fun f => Deleting (name f)) (List.filter (eligible limit) fs),
     errs ++ map name (List.filter (fun f => eligible limit f && locked f) fs),
     n + Z.of_nat (length (List.filter (eligible limit) fs)),
     kept ++ List.filter (survives limit) fs).
Proof.
  induction fs as [|f fs IH]; intros lines errs n kept.
  - simpl. rewrite !app_nil_r, Z.add_0_r. reflexivity.
  - cbn [sweep List.filter].
    replace (survives limit f) with (negb (eligible limit f) || locked f)
      by reflexivity.
    destruct (eligible limit f) eqn:He; cbn [negb orb andb].
    + rewrite IH.
      destruct (locked f); cbn [length map]; rewrite ?Nat2Z.inj_succ;
        rewrite <- ?app_assoc; cbn [app];
        repeat match goal with |- (_, _) = (_, _) => apply f_equal2 end;
        try reflexivity; lia.
    + rewrite IH, <- app_assoc. reflexivity.
Qed.

Lemma threshold_unfold to_int i :
  threshold to_int i =
    fst (threshold_of (now i) (fst (load_retention to_int i))
                      (snd (load_retention to_int i))).
Proof. unfold threshold. destruct (load_retention to_int i). reflexivity. Qed.

Lemma clean_logs_present to_int i fs :
  log_dir i = Some fs ->
  let limit := threshold to_int i in
  let n := Z.of_nat (length (List.filter (eligible limit) fs)) in
  clean_logs to_int i =
    {| host := (Cleaning (snd (threshold_of (now i) (fst (load_retention to_int i))
                                            (snd (load_retention to_int i))))
                :: map (fun f => Deleting (name f)) (List.filter (eligible limit) fs))
               ++ [if n =? 0 then NoneEligible else DeletedCount n];
       failed := map name (List.filter (fun f => eligible limit f && locked f) fs);
       exit_code := 0;
       remaining := Some (List.filter (survives limit) fs) |}.
Proof.
  intros Hdir. cbv zeta. rewrite threshold_unfold.
  unfold clean_logs. rewrite Hdir.
  destruct (load_retention to_int i) as [d m]; simpl fst; simpl snd.
  destruct (threshold_of (now i) d m) as [limit display]; simpl fst; simpl snd.
  rewrite sweep_spec. reflexivity.
Qed.

Lemma clean_logs_missing to_int i :
  log_dir i = None ->
  clean_logs to_int i =
    {| host := [DirectoryNotFound]; failed := []; exit_code := 1;
       remaining := None |}.
Proof.
  intros Hdir. unfold clean_logs. rewrite Hdir.
  destruct (load_retention to_int i). reflexivity.
Qed.

Lemma filter_survives_all limit fs :
  List.filter (fun f => eligible limit f && locked f) fs = [] ->
  (length (List.filter (survives limit) fs) + length (List.filter (eligible limit) fs)
   = length fs)%nat.
Proof.
  induction fs as [|f fs IH]; simpl; [reflexivity|].
  unfold survives at 1.
  destruct (eligible limit f); destruct (locked f); simpl; intros H;
    try discriminate; specialize (IH H); lia.
Qed.











(** C9, as amended. A missing log directory is reported with a line
    of its own, nothing is deleted, and the script stops there with
    exit status 1, whereas a directory without eligible files is
    swept to the end with status 0 and the "none eligible" line.
    In a directory that exists, a file that cannot be removed does
    not stop the sweep: every other eligible file is removed. When no
    removal fails, the summary gives the number of files removed. *)
Theorem pruner_failure_policy (to_int : string -> option Z) (i : invocation) :
  (log_dir i = None ->
     host (clean_logs to_int i) = [DirectoryNotFound] /\
     exit_code (clean_logs to_int i) = 1 /\
     remaining (clean_logs to_int i) = None) /\
  (forall fs, log_dir i = Some fs ->
     let limit := threshold to_int i in
     let removed := Z.of_nat (length fs)
                    - Z.of_nat (length (List.filter (survives limit) fs)) in
     exit_code (clean_logs to_int i) = 0 /\
     ~ In DirectoryNotFound (host (clean_logs to_int i)) /\
     remaining (clean_logs to_int i) = Some (List.filter (survives limit) fs) /\
     failed (clean_logs to_int i)
       = map name (List.filter (fun f => eligible limit f && locked f) fs) /\
     (failed (clean_logs to_int i) = [] ->
        List.last (host (clean_logs to_int i)) NoneEligible
        = (if removed =? 0 then NoneEligible else DeletedCount removed))).
Proof.
  split.
  - intros Hdir. rewrite (clean_logs_missing to_int i Hdir). auto.
  - intros fs Hdir limit removed.
    rewrite (clean_logs_present to_int i fs Hdir).
    cbn [exit_code host remaining failed]. fold limit.
    split; [reflexivity|]. split; [|split; [reflexivity|split; [reflexivity|]]].
    + rewrite in_app_iff. intros [[H|H]|[H|[]]]; try discriminate.
      * apply in_map_iff in H. destruct H as (f & H & _). discriminate.
      * destruct (_ =? 0); discriminate.
    + intros Hnone. apply map_eq_nil in Hnone.
      pose proof (filter_survives_all limit fs Hnone) as Hall.
      rewrite last_last.
      replace (Z.of_nat (length (List.filter (eligible limit) fs))) with removed
        by (subst removed; lia).
      reflexivity.
Qed.

Lemma pruner_failure_policy_witness :
  log_dir no_directory = None /\
  exit_code (clean_logs (fun _ => None) no_directory) = 1 /\
  log_dir locked_directory
    = Some [ {| name := "a.log"; lastWriteTime := 0; locked := true |};
             {| name := "b.log"; lastWriteTime := 1; locked := false |};
             {| name := "c.log"; lastWriteTime := 9 * ticks_per_day; locked := false |} ] /\
  remaining (clean_logs (fun _ => None) locked_directory)
    = Some [ {| name := "a.log"; lastWriteTime := 0; locked := true |};
             {| name := "c.log"; lastWriteTime := 9 * ticks_per_day; locked := false |} ] /\
  failed (clean_logs (fun _ => None) three_days) = [] /\
  List.last (host (clean_logs (fun _ => None) three_days)) NoneEligible
    = DeletedCount 1.
Proof.
  split; [reflexivity|]. split.
  - apply (proj1 (pruner_failure_policy (fun _ => None) no_directory) eq_refl).
  - split; [reflexivity|].
    destruct (proj2 (pruner_failure_policy (fun _ => None) locked_directory)
                    _ eq_refl) as (_ & _ & Hrem & _).
    split; [rewrite Hrem; reflexivity|].
    destruct (proj2 (pruner_failure_policy (fun _ => None) three_days)
                    _ eq_refl) as (_ & _ & _ & _ & Hcount).
    split; [reflexivity|]. rewrite (Hcount eq_refl). reflexivity.
Defined.

(** The claim of C9 fails where the directory is missing: the script
    does not treat it as a non-fatal condition, it stops with exit
    status 1, unlike the run that finds no eligible file. *)
Lemma missing_directory_exits_with_failure :
  fatal (clean_logs (fun _ => None) no_directory) /\
  ~ fatal (clean_logs (fun _ => None)
             {| retentionDays := 0; retentionMinutes := 0;
                env_file := false; env_minutes := ""; env_days := "";
                log_dir := Some []; now := 10 * ticks_per_day |}).
Proof.
  unfold fatal. split.
  - vm_compute. discriminate.
  - vm_compute. intros H. apply H. reflexivity.
Qed.

End CleanLogsFacts.

(* ===================================================================== *)
(** * The session engine *)
(* ===================================================================== *)

Lemma on_line_classify O cfg input :
  on_line O cfg input =
  let command := Str.trim input in
  let lower := Str.toLowerCase command in
  match classify cfg input with
  | BEmpty => console_log UsageHint ;; rl_prompt
  | BInvalid => console_log InvalidHint ;; rl_prompt
  | BShorthand => switch_persona (Str.slice1 command) ;; rl_prompt
  | BPersona =>
      let selected := key_of (nth_error (Str.split " " lower) 1) in
      (if truthy (js_get personas selected) then switch_persona selected
       else console_log (UnknownPersona selected)) ;;
      rl_prompt
  | BPersonas =>
      console_log PersonasHeader ;; list_personas personas ;;
      console_log BlankLine ;; rl_prompt
  | BHelp => console_log HelpMenu ;; rl_prompt
  | BMock =>
      let arg := nth_error (Str.split " " lower) 1 in
      (if strict_eq arg "on" then
         set_config_mock true ;; console_log MockOn
       else if strict_eq arg "off" then
         set_config_mock false ;; console_log MockOff
       else
         m <- gets (fun w => config_mock (sess w)) ;;
         console_log (MockStatus m) ;; console_log MockUsage) ;;
      rl_prompt
  | BExit => console_log Farewell ;; rl_close
  | BQuery =>
      p <- gets (fun w => activePersona (sess w)) ;;
      handlePrompt O cfg input p ;;
      rl_prompt
  end.
Proof.
  unfold on_line, classify. cbv zeta.
  repeat match goal with
         | |- context [if ?b then _ else _] =>
             lazymatch b with
             | truthy _ => fail
             | strict_eq _ _ => fail
             | _ => destruct b
             end
         end; reflexivity.
Qed.

Lemma on_line_query_failure O cfg input w :
  classify cfg input = BQuery ->
  complete O (ticks w) (request_for cfg (activePersona (sess w)) input) = None ->
  on_line O cfg input w = (Throw GatewayError, after_request cfg input w).
Proof.
  intros Hq Hfail. rewrite on_line_classify, Hq. cbv zeta.
  unfold handlePrompt, getSasAssistantResponse. run_monad.
  fold (request_for cfg (activePersona (sess w)) input).
  rewrite Hfail. reflexivity.
Qed.

Lemma on_line_query_success O cfg input w content :
  classify cfg input = BQuery ->
  complete O (ticks w) (request_for cfg (activePersona (sess w)) input)
    = Some content ->
  on_line O cfg input w =
    (logInteraction O cfg input content (activePersona (sess w)) ;; rl_prompt)
      (after_render cfg input content w).
Proof.
  intros Hq Hok. rewrite on_line_classify, Hq. cbv zeta.
  unfold handlePrompt, getSasAssistantResponse, formatResponse. run_monad.
  fold (request_for cfg (activePersona (sess w)) input).
  rewrite Hok. cbn. unfold after_render, set_trace, set_ticks. cbn.
  rewrite <- app_assoc. reflexivity.
Qed.

(** C1, as amended. When the completion request of a free-text query
    line fails, the failure leaves [handlePrompt] and the line listener
    uncaught: the only effect of the line is the request itself, so
    nothing is rendered or logged, no failure message is printed and
    the prompt is not shown again; the listener's rejection is handled
    nowhere, which ends the process. *)
Theorem gateway_failure_propagates (O : oracle) (cfg : config)
    (input : string) (rest : list input_event) (w : world) :
  classify cfg input = BQuery ->
  rl_closed (sess w) = false ->
  complete O (ticks w) (request_for cfg (activePersona (sess w)) input) = None ->
  on_line O cfg input w = (Throw GatewayError, after_request cfg input w) /\
  trace (after_request cfg input w)
    = trace w ++ [ChatCompletion (request_for cfg (activePersona (sess w)) input)] /\
  run O cfg (Line input :: rest) w
    = (Rejected GatewayError, after_request cfg input w).
Proof.
  intros Hq Hopen Hfail.
  pose proof (on_line_query_failure O cfg input w Hq Hfail) as Hline.
  split; [assumption|]. split; [reflexivity|].
  cbn [run dispatch]. rewrite Hopen, Hline. reflexivity.
Qed.

Lemma gateway_failure_propagates_witness :
  classify default_config "How do I merge two datasets?" = BQuery /\
  run offline default_config
      [Line "How do I merge two datasets?"; Line "exit"] at_prompt
  = (Rejected GatewayError,
     after_request default_config "How do I merge two datasets?" at_prompt).
Proof.
  split; [reflexivity|].
  apply (gateway_failure_propagates offline default_config
           "How do I merge two datasets?" [Line "exit"] at_prompt);
    reflexivity.
Defined.

(** The claim of C1 fails: with the endpoint unreachable, a query line
    ends the session with a rejection; after the request nothing is
    printed and the prompt does not come back, and the following line
    is never read. *)
Lemma gateway_failure_is_not_recovered :
  session_run offline default_config empty_disk
    [Line "How do I merge two datasets?"; Line "exit"]
  = (Rejected GatewayError,
     after_request default_config "How do I merge two datasets?" at_prompt) /\
  trace (after_request default_config "How do I merge two datasets?" at_prompt)
  = [ RlSetPrompt "sas"; RlPrompt;
      ChatCompletion (request_for default_config "sas"
                                  "How do I merge two datasets?") ].
Proof. split; reflexivity. Qed.

Lemma personas_nonempty p text :
  own_property personas p = Some text -> truthy (JString text) = true.
Proof.
  unfold personas. cbn [own_property].
  repeat (destruct (String.eqb p _); [intros [= <-]; reflexivity|]).
  discriminate.
Qed.

Lemma systemMessage_registered cfg p text :
  own_property personas p = Some text -> systemMessage cfg p = JString text.
Proof.
  intros Hp. unfold systemMessage, js_or, js_get. rewrite Hp.
  rewrite (personas_nonempty p text Hp). reflexivity.
Qed.

Lemma bind_frames_calls O cfg input content p w :
  gateway_calls
    (trace (snd ((logInteraction O cfg input content p ;; rl_prompt) w)))
  = gateway_calls (trace w).
Proof.
  pose proof (logInteraction_frames O cfg input content p w) as Hstep.
  unfold bind.
  destruct (logInteraction O cfg input content p w) as [[[]|e] w1]; cbn in *.
  - rewrite gateway_calls_app, app_nil_r.
    apply logger_step_gateway_calls. assumption.
  - apply logger_step_gateway_calls. assumption.
Qed.

Lemma on_line_query_calls O cfg input w :
  classify cfg input = BQuery ->
  gateway_calls (trace (snd (on_line O cfg input w)))
  = gateway_calls (trace w) ++ [request_for cfg (activePersona (sess w)) input].
Proof.
  intros Hq.
  destruct (complete O (ticks w) (request_for cfg (activePersona (sess w)) input))
    as [content|] eqn:Hc.
  - rewrite (on_line_query_success O cfg input w content Hq Hc).
    rewrite bind_frames_calls. unfold after_render. cbn.
    rewrite gateway_calls_app. reflexivity.
  - rewrite (on_line_query_failure O cfg input w Hq Hc).
    unfold after_request. cbn. rewrite gateway_calls_app. reflexivity.
Qed.

(** C2, as amended. A free-text query line makes exactly one
    completion request; its user text is the input line as received
    (not trimmed) and its system message is the prompt of the active
    persona. When the request succeeds, the answer is handed unchanged
    to the renderer and then, with the same input line, to the logger,
    and only then is the next prompt shown. *)
Theorem query_calls_gateway_once (O : oracle) (cfg : config)
    (input : string) (w : world) :
  classify cfg input = BQuery ->
  let p := activePersona (sess w) in
  let req := request_for cfg p input in
  gateway_calls (trace (snd (on_line O cfg input w)))
    = gateway_calls (trace w) ++ [req] /\
  req_user req = input /\
  (forall text, own_property personas p = Some text ->
     req_system req = JString text) /\
  (forall content, complete O (ticks w) req = Some content ->
     on_line O cfg input w =
       (logInteraction O cfg input content p ;; rl_prompt)
         (after_render cfg input content w)).
Proof.
  intros Hq p req. repeat split.
  - apply on_line_query_calls. assumption.
  - intros text Hp. apply systemMessage_registered. assumption.
  - intros content Hc. apply on_line_query_success; assumption.
Qed.

Lemma query_calls_gateway_once_witness :
  classify default_config "  what is a join " = BQuery /\
  gateway_calls
    (trace (snd (on_line online default_config "  what is a join " at_prompt)))
  = [ {| req_model := "gpt-5-mini";
         req_system := JString "You are a helpful SAS programming assistant. Respond with clean, well-formatted explanations and SAS code.";
         req_user := "  what is a join ";
         req_temperature := 4 # 10 |} ].
Proof.
  split; [reflexivity|].
  apply (proj1 (query_calls_gateway_once online default_config
                  "  what is a join " at_prompt eq_refl)).
Defined.

(** The claim of C2 fails on a line with surrounding blanks: the
    request carries the line as typed, not the trimmed line. *)
Lemma gateway_receives_untrimmed_line :
  classify default_config "  what is a join " = BQuery /\
  map req_user
    (gateway_calls
       (trace (snd (on_line online default_config "  what is a join " at_prompt))))
  = ["  what is a join "] /\
  Str.trim "  what is a join " <> "  what is a join ".
Proof. repeat split. discriminate. Qed.

(** ** Persona switching *)

Lemma registered_cases p :
  registered p = true ->
  p = "sas" \/ p = "sql" \/ p = "mentor" \/ p = "debugger" \/ p = "teacher".
Proof.
  unfold registered, personas. cbn [own_property].
  destruct (String.eqb_spec p "sas"); [auto|].
  destruct (String.eqb_spec p "sql"); [auto|].
  destruct (String.eqb_spec p "mentor"); [auto|].
  destruct (String.eqb_spec p "debugger"); [auto|].
  destruct (String.eqb_spec p "teacher"); [auto 6|].
  discriminate.
Qed.

Lemma truthy_js_get_personas k :
  truthy (js_get personas k) = true ->
  registered k = true \/ Str.includes object_prototype_names k = true.
Proof.
  unfold js_get, registered.
  destruct (own_property personas k); [auto|].
  destruct (Str.includes object_prototype_names k); [auto | discriminate].
Qed.

Lemma is_space_lower_char c : Str.is_space (Str.lower_char c) = Str.is_space c.
Proof. destruct c as [[] [] [] [] [] [] [] []]; reflexivity. Qed.

Lemma no_space_toLowerCase s : Str.no_space (Str.toLowerCase s) = Str.no_space s.
Proof.
  unfold Str.no_space. induction s as [|c s IH]; [reflexivity|].
  cbn. rewrite is_space_lower_char, IH. reflexivity.
Qed.

Lemma toLowerCase_empty s : Str.toLowerCase s = "" -> s = "".
Proof. destruct s; [reflexivity | discriminate]. Qed.

Lemma trimEnd_cons c s :
  Str.trimEnd s = s -> s <> "" -> Str.trimEnd (String c s) = String c s.
Proof.
  intros Hs Hne. cbn. rewrite Hs. destruct s; [contradiction | reflexivity].
Qed.

Lemma trimEnd_token t : is_token t = true -> Str.trimEnd t = t.
Proof.
  unfold is_token, Str.no_space. induction t as [|c t IH]; [discriminate|].
  cbn. intros H. apply andb_prop in H as [Hc Ht].
  destruct t as [|c' t'].
  - cbn. destruct (Str.is_space c); [discriminate | reflexivity].
  - rewrite IH by exact Ht. reflexivity.
Qed.

Lemma is_token_nonempty t : is_token t = true -> t <> "".
Proof. intros H ->. discriminate. Qed.

Lemma split_no_sep s :
  forallb (fun c => negb (Ascii.eqb c " ")) (list_ascii_of_string s) = true ->
  Str.split " " s = [s].
Proof.
  induction s as [|c s IH]; [reflexivity|].
  cbn. intros H. apply andb_prop in H as [Hc Hs].
  destruct (Ascii.eqb c " "); [discriminate|].
  rewrite IH by exact Hs. reflexivity.
Qed.

Lemma no_space_no_blank s :
  Str.no_space s = true ->
  forallb (fun c => negb (Ascii.eqb c " ")) (list_ascii_of_string s) = true.
Proof.
  unfold Str.no_space. induction s as [|c s IH]; [reflexivity|].
  cbn. intros H. apply andb_prop in H as [Hc Hs].
  rewrite IH by exact Hs. rewrite andb_true_r.
  destruct (Ascii.eqb_spec c " ") as [->|]; [discriminate | reflexivity].
Qed.

Lemma split_token t :
  is_token t = true -> Str.split " " (Str.toLowerCase t) = [Str.toLowerCase t].
Proof.
  intros H. apply andb_prop in H as [_ H].
  apply split_no_sep, no_space_no_blank.
  rewrite no_space_toLowerCase. exact H.
Qed.

(** The trimmed and lower-cased forms of the line [/persona t]. *)
Lemma trim_persona_line t :
  is_token t = true -> Str.trim ("/persona " +:+ t) = "/persona " +:+ t.
Proof.
  intros Ht. unfold Str.trim. cbn [Str.trimStart String.append Str.is_space].
  change (Str.trimStart ("/persona " +:+ t)) with ("/persona " +:+ t).
  pose proof (trimEnd_token t Ht) as H. pose proof (is_token_nonempty t Ht) as Hne.
  cbn [String.append].
  repeat (apply trimEnd_cons; [|discriminate]).
  apply trimEnd_cons; assumption.
Qed.

Lemma on_line_persona_token O cfg t w :
  is_token t = true ->
  on_line O cfg ("/persona " +:+ t) w =
    ((if truthy (js_get personas (Str.toLowerCase t))
      then switch_persona (Str.toLowerCase t)
      else console_log (UnknownPersona (Str.toLowerCase t))) ;; rl_prompt) w.
Proof.
  intros Ht. unfold on_line. rewrite (trim_persona_line t Ht). cbv zeta.
  change (Str.toLowerCase ("/persona " +:+ t))
    with ("/persona " +:+ Str.toLowerCase t).
  change (Str.split " " ("/persona " +:+ Str.toLowerCase t))
    with ("/persona" :: Str.split " " (Str.toLowerCase t)).
  rewrite (split_token t Ht).
  change (String.eqb ("/persona " +:+ t) "") with false.
  change (Str.has_alnum ("/persona " +:+ t)) with true.
  change (is_shorthand ("/persona " +:+ t)) with false.
  change (is_persona_command ("/persona " +:+ Str.toLowerCase t)) with true.
  reflexivity.
Qed.

Lemma switch_persona_sets selected w :
  fst ((switch_persona selected ;; rl_prompt) w) = Return tt /\
  activePersona (sess (snd ((switch_persona selected ;; rl_prompt) w))) = selected /\
  rl_prompt_text (sess (snd ((switch_persona selected ;; rl_prompt) w))) = selected.
Proof.
  unfold switch_persona, set_activePersona, setPrompt, console_log, rl_prompt.
  run_monad.
  destruct (truthy (js_get personaWelcomeMessages selected)); cbn; auto.
Qed.

Lemma on_line_shorthand O cfg p w :
  registered p = true ->
  on_line O cfg ("/" +:+ p) w = (switch_persona p ;; rl_prompt) w.
Proof.
  intros Hp.
  destruct (registered_cases p Hp) as [-> | [-> | [-> | [-> | ->]]]];
    vm_compute; reflexivity.
Qed.

Lemma on_line_persona_registered O cfg p w :
  registered p = true ->
  on_line O cfg ("/persona " +:+ p) w = (switch_persona p ;; rl_prompt) w.
Proof.
  intros Hp.
  destruct (registered_cases p Hp) as [-> | [-> | [-> | [-> | ->]]]];
    vm_compute; reflexivity.
Qed.

Lemma on_line_persona_unknown O cfg t w :
  is_token t = true ->
  registered (Str.toLowerCase t) = false ->
  Str.includes object_prototype_names (Str.toLowerCase t) = false ->
  on_line O cfg ("/persona " +:+ t) w =
    (Return tt,
     set_trace (trace w ++ [ConsoleLog (UnknownPersona (Str.toLowerCase t)); RlPrompt]) w).
Proof.
  intros Ht Hreg Hproto. rewrite (on_line_persona_token O cfg t w Ht).
  unfold js_get. unfold registered in Hreg.
  destruct (own_property personas (Str.toLowerCase t)); [discriminate|].
  rewrite Hproto. cbn [truthy]. unfold console_log, rl_prompt. run_monad.
  unfold set_trace. cbn. rewrite <- app_assoc. reflexivity.
Qed.

(** *** The active persona across a session *)

Lemma persona_kept_refl w : persona_kept w w.
Proof. reflexivity. Qed.

Lemma persona_kept_trans w1 w2 w3 :
  persona_kept w1 w2 -> persona_kept w2 w3 -> persona_kept w1 w3.
Proof. unfold persona_kept. congruence. Qed.

Lemma persona_kept_logger {A} (m : M A) :
  frames logger_step m -> frames persona_kept m.
Proof. intros H w. destruct (H w) as [Hs _]. unfold persona_kept. congruence. Qed.

Lemma persona_kept_modify (f : world -> world) :
  (forall w, activePersona (sess (f w)) = activePersona (sess w)) ->
  frames persona_kept (modify f).
Proof. intros H w. apply H. Qed.

Lemma persona_kept_tick : frames persona_kept tick.
Proof. intros w. reflexivity. Qed.

Ltac frame_persona :=
  repeat first
    [ apply persona_kept_logger, logInteraction_frames
    | apply (frames_bind persona_kept persona_kept_trans); [|intros ?]
    | apply (frames_when persona_kept persona_kept_refl)
    | apply (frames_if persona_kept)
    | apply (frames_ret persona_kept persona_kept_refl)
    | apply (frames_throw persona_kept persona_kept_refl)
    | apply (frames_gets persona_kept persona_kept_refl)
    | apply persona_kept_tick
    | apply persona_kept_modify; intros ?; reflexivity ].

Lemma console_log_keeps m : frames persona_kept (console_log m).
Proof. unfold console_log, emit. frame_persona. Qed.

Lemma rl_prompt_keeps : frames persona_kept rl_prompt.
Proof. unfold rl_prompt, emit. frame_persona. Qed.

Lemma rl_close_keeps : frames persona_kept rl_close.
Proof. unfold rl_close, emit. frame_persona. Qed.

Lemma set_config_mock_keeps b : frames persona_kept (set_config_mock b).
Proof. unfold set_config_mock. frame_persona. Qed.

Ltac frame_console_step :=
  first
    [ apply console_log_keeps | apply rl_prompt_keeps | apply rl_close_keeps
    | apply set_config_mock_keeps | assumption
    | apply (frames_bind persona_kept persona_kept_trans); [|intros ?]
    | apply (frames_if persona_kept)
    | apply (frames_gets persona_kept persona_kept_refl)
    | apply (frames_ret persona_kept persona_kept_refl) ].

Ltac frame_console := repeat frame_console_step.

Lemma list_personas_keeps entries : frames persona_kept (list_personas entries).
Proof.
  induction entries as [|[key description] rest IH]; cbn [list_personas];
    frame_console.
Qed.

Lemma handlePrompt_keeps O cfg input p :
  frames persona_kept (handlePrompt O cfg input p).
Proof.
  unfold handlePrompt, getSasAssistantResponse, formatResponse, emit.
  frame_persona.
  destruct (complete O _ _); frame_persona.
Qed.

Ltac frame_terminal :=
  repeat first
    [ apply handlePrompt_keeps | apply list_personas_keeps | frame_console_step ].

Lemma classify_shorthand cfg input :
  classify cfg input = BShorthand -> is_shorthand (Str.trim input) = true.
Proof.
  unfold classify. cbv zeta.
  repeat match goal with
         | |- context [if ?b then _ else _] => destruct b eqn:?
         end; intros; try discriminate; reflexivity.
Qed.

(** Whatever the line, the active persona afterwards is the one before
    or a key under which [config.personas] holds something truthy,
    taken from the line. *)
Lemma on_line_persona O cfg input w :
  let w' := snd (on_line O cfg input w) in
  let command := Str.trim input in
  activePersona (sess w') = activePersona (sess w) \/
  (truthy (js_get personas (activePersona (sess w'))) = true /\
   (activePersona (sess w') = Str.slice1 command \/
    activePersona (sess w')
    = key_of (nth_error (Str.split " " (Str.toLowerCase command)) 1))).
Proof.
  cbv zeta. rewrite on_line_classify. cbv zeta.
  destruct (classify cfg input) eqn:Hc;
    try (left; revert w;
         match goal with
         | |- forall w, _ (_ (_ (?m w))) = _ => change (frames persona_kept m)
         end;
         frame_terminal;
         repeat match goal with
                | |- context [match ?x with _ => _ end] => destruct x
                end; frame_terminal; fail).
  - right.
    destruct (switch_persona_sets (Str.slice1 (Str.trim input)) w) as (_ & -> & _).
    apply classify_shorthand in Hc. unfold is_shorthand in Hc.
    apply andb_prop in Hc as [_ Hc]. auto.
  - destruct (truthy (js_get personas _)) eqn:Ht.
    + right.
      destruct (switch_persona_sets
                  (key_of (nth_error (Str.split " " (Str.toLowerCase (Str.trim input))) 1)) w)
        as (_ & -> & _). auto.
    + left. revert w.
      match goal with
      | |- forall w, _ (_ (_ (?m w))) = _ => change (frames persona_kept m)
      end.
      frame_terminal.
Qed.

Lemma dispatch_registered O cfg i w :
  registered (activePersona (sess w)) = true ->
  selects_inherited_event i = false ->
  registered (activePersona (sess (snd (dispatch O cfg i w)))) = true.
Proof.
  intros Hreg Hplain. destruct i as [text|]; cbn [dispatch].
  - destruct (on_line_persona O cfg text w) as [-> | (Ht & Hkey)]; [assumption|].
    apply truthy_js_get_personas in Ht. destruct Ht as [Ht|Ht]; [assumption|].
    cbn [selects_inherited_event] in Hplain. unfold selects_inherited in Hplain.
    apply orb_false_elim in Hplain as [H1 H2].
    destruct Hkey as [Hk|Hk]; rewrite Hk in Ht; congruence.
  - assert (Hk : frames persona_kept on_sigint)
      by (unfold on_sigint; frame_console).
    rewrite (Hk w). assumption.
Qed.

Lemma run_registered O cfg inputs : forall w,
  registered (activePersona (sess w)) = true ->
  plain_inputs inputs = true ->
  registered (activePersona (sess (snd (run O cfg inputs w)))) = true.
Proof.
  induction inputs as [|i rest IH]; intros w Hreg Hplain; cbn [run].
  - destruct (rl_closed (sess w)); assumption.
  - destruct (rl_closed (sess w)); [assumption|].
    cbn in Hplain. apply andb_prop in Hplain as [Hi Hrest].
    apply negb_true_iff in Hi.
    pose proof (dispatch_registered O cfg i w Hreg Hi) as Hstep.
    destruct (dispatch O cfg i w) as [[[]|e] w1]; cbn in Hstep.
    + apply IH; assumption.
    + assumption.
Qed.

(** C3, as amended. For every registered persona name [p], the lines
    [/p] and [/persona p] make [p] the active persona. For every
    token [t] whose lower-case form is neither a registered name nor a
    property name inherited from [Object.prototype], the line
    [/persona t] leaves the active persona (and everything else) as it
    was, prints the unknown-persona error and prompts again. When the
    configured default persona is a registry key, the active persona
    is a registry key after any sequence of inputs none of which names
    an inherited property. *)
Theorem persona_switching (O : oracle) (cfg : config) :
  (forall p w, registered p = true ->
     activePersona (sess (snd (on_line O cfg ("/" +:+ p) w))) = p /\
     activePersona (sess (snd (on_line O cfg ("/persona " +:+ p) w))) = p) /\
  (forall t w, is_token t = true ->
     registered (Str.toLowerCase t) = false ->
     Str.includes object_prototype_names (Str.toLowerCase t) = false ->
     on_line O cfg ("/persona " +:+ t) w =
       (Return tt,
        set_trace (trace w ++ [ConsoleLog (UnknownPersona (Str.toLowerCase t));
                               RlPrompt]) w)) /\
  (forall d inputs, registered (defaultPersona cfg) = true ->
     plain_inputs inputs = true ->
     registered (activePersona (sess (snd (session_run O cfg d inputs)))) = true).
Proof.
  split; [|split].
  - intros p w Hp.
    rewrite (on_line_shorthand O cfg p w Hp).
    rewrite (on_line_persona_registered O cfg p w Hp).
    destruct (switch_persona_sets p w) as (_ & H & _). auto.
  - intros t w Ht Hreg Hproto. apply on_line_persona_unknown; assumption.
  - intros d inputs Hdef Hplain. unfold session_run.
    destruct (startTerminal cfg (boot cfg d)) as [[[]|e] w1] eqn:Hstart;
      unfold startTerminal, set_activePersona, setPrompt, rl_prompt in Hstart;
      revert Hstart; run_monad; intros [= <-].
    apply run_registered; [exact Hdef | exact Hplain].
Qed.

Lemma persona_switching_witness :
  registered "sql" = true /\
  activePersona (sess (snd (on_line online default_config "/persona sql" at_prompt)))
    = "sql" /\
  is_token "Pirate" = true /\
  on_line online default_config "/persona Pirate" at_prompt
    = (Return tt,
       set_trace (trace at_prompt ++ [ConsoleLog (UnknownPersona "pirate"); RlPrompt])
                 at_prompt) /\
  registered
    (activePersona
       (sess (snd (session_run online default_config empty_disk
                     [Line "/mentor"; Line "/persona Pirate"; Line "hello"]))))
    = true.
Proof.
  destruct (persona_switching online default_config) as (Hset & Hunknown & Hinv).
  split; [reflexivity|].
  split; [apply (Hset "sql" at_prompt eq_refl)|].
  split; [reflexivity|].
  split; [apply (Hunknown "Pirate" at_prompt); reflexivity|].
  apply Hinv; reflexivity.
Defined.

(** The claim of C3 fails in two ways that the source intends. The
    token of [/persona] is matched in lower case, so [/persona SAS],
    whose token is not a registry key, switches from "sql" to "sas"
    without any error; and the persona named by [OPENAI_PERSONA] is
    taken as it is, so the active persona of a fresh session need not
    be a registry key. *)
Lemma persona_claim_fails :
  (registered "SAS" = false /\
   activePersona
     (sess (snd (session_run online default_config empty_disk [Line "/sql"])))
     = "sql" /\
   activePersona
     (sess (snd (session_run online default_config empty_disk
                   [Line "/sql"; Line "/persona SAS"])))
     = "sas" /\
   ~ In (ConsoleLog (UnknownPersona "sas"))
        (trace (snd (session_run online default_config empty_disk
                       [Line "/sql"; Line "/persona SAS"])))) /\
  registered
    (activePersona (sess (snd (session_run online analyst_config empty_disk []))))
    = false.
Proof.
  split; [|reflexivity].
  repeat split. vm_compute. intuition discriminate.
Qed.

(** A name inherited from [Object.prototype] passes the truthiness test
    of both persona switches and becomes the active persona. *)
Lemma inherited_name_is_accepted :
  activePersona
    (sess (snd (session_run online default_config empty_disk
                  [Line "/persona constructor"])))
    = "constructor" /\
  activePersona
    (sess (snd (session_run online default_config empty_disk
                  [Line "/hasOwnProperty"])))
    = "hasOwnProperty".
Proof. split; reflexivity. Qed.

(** ** Leaving the session *)



Lemma run_closed O cfg inputs w :
  rl_closed (sess w) = true -> run O cfg inputs w = (Terminated, w).
Proof. intros H. destruct inputs; cbn [run]; rewrite H; reflexivity. Qed.





(** A token configured with capital letters is compared with the
    lower-cased line and therefore never matches: the line is sent to
    the completion endpoint as a query. *)
Lemma capital_exit_token_never_matches :
  classify capital_exit_config "Exit" = BQuery /\
  classify capital_exit_config "exit" = BQuery /\
  classify capital_exit_config "EXIT" = BQuery.
Proof. repeat split. Qed.

(* ===================================================================== *)
(** * The mock flag *)
(* ===================================================================== *)

Ltac blind_fields H :=
  unfold mock_blind, mask_mock in H; injection H as ? ? ? ? ? ? ?.

Lemma blind_ret {A} (a : A) : blind (ret a).
Proof. intros w1 w2 H. split; [reflexivity | exact H]. Qed.

Lemma blind_throw {A} (e : exn) : blind (@throw A e).
Proof. intros w1 w2 H. split; [reflexivity | exact H]. Qed.

Lemma blind_bind {A B} (m : M A) (k : A -> M B) :
  blind m -> (forall a, blind (k a)) -> blind (bind m k).
Proof.
  intros Hm Hk w1 w2 H. unfold bind. destruct (Hm w1 w2 H) as [Hr Hw].
  destruct (m w1) as [[a1|e1] u1], (m w2) as [[a2|e2] u2]; cbn in *;
    try discriminate.
  - injection Hr as <-. apply Hk. assumption.
  - injection Hr as <-. auto.
Qed.

Lemma blind_try_catch {A} (m : M A) (h : exn -> M A) :
  blind m -> (forall e, blind (h e)) -> blind (try_catch m h).
Proof.
  intros Hm Hh w1 w2 H. unfold try_catch. destruct (Hm w1 w2 H) as [Hr Hw].
  destruct (m w1) as [[a1|e1] u1], (m w2) as [[a2|e2] u2]; cbn in *;
    try discriminate.
  - auto.
  - injection Hr as <-. apply Hh. assumption.
Qed.

Lemma blind_when (b : bool) (m : M unit) : blind m -> blind (when b m).
Proof. intros Hm. destruct b; [assumption | apply blind_ret]. Qed.

Lemma blind_if {A} (b : bool) (m1 m2 : M A) :
  blind m1 -> blind m2 -> blind (if b then m1 else m2).
Proof. destruct b; auto. Qed.

Lemma blind_gets {A} (f : world -> A) :
  (forall w1 w2, mock_blind w1 w2 -> f w1 = f w2) -> blind (gets f).
Proof. intros Hf w1 w2 H. split; [cbn; f_equal; auto | exact H]. Qed.

Lemma blind_tick : blind tick.
Proof.
  intros w1 w2 H. blind_fields H. split; cbn; [congruence|].
  unfold mock_blind, mask_mock. cbn. congruence.
Qed.

Lemma blind_emit e : blind (emit e).
Proof.
  intros w1 w2 H. blind_fields H. split; [reflexivity|].
  unfold mock_blind, mask_mock. cbn. rewrite !map_app. congruence.
Qed.

Lemma blind_modify (f : world -> world) :
  (forall w1 w2, mock_blind w1 w2 -> mock_blind (f w1) (f w2)) ->
  blind (modify f).
Proof. intros Hf w1 w2 H. split; [reflexivity | cbn; auto]. Qed.

Ltac blind_side :=
  let H := fresh "H" in
  intros ? ? H; blind_fields H;
  unfold mock_blind, mask_mock; cbn; rewrite ?map_app; cbn; congruence.

Ltac blind_step :=
  first
    [ apply blind_bind; [|intros ?]
    | apply blind_try_catch; [|intros ?]
    | apply blind_when
    | apply blind_if
    | apply blind_ret
    | apply blind_throw
    | apply blind_tick
    | apply blind_emit
    | apply blind_gets; blind_side
    | apply blind_modify; blind_side ].

Lemma logInteraction_blind O cfg input response persona :
  blind (logInteraction O cfg input response persona).
Proof. unfold logInteraction. repeat blind_step. Qed.

Lemma handlePrompt_blind O cfg input persona :
  blind (handlePrompt O cfg input persona).
Proof.
  unfold handlePrompt.
  apply blind_bind; [|intros response; apply blind_bind;
                      [repeat blind_step | intros _; apply logInteraction_blind]].
  unfold getSasAssistantResponse.
  apply blind_bind; [apply blind_tick | intros k].
  apply blind_bind; [apply blind_emit | intros _].
  destruct (complete O k _); repeat blind_step.
Qed.

(** Reporting the flag reads it, but the report is masked. *)
Lemma mock_status_blind :
  blind (m <- gets (fun w => config_mock (sess w)) ;;
         console_log (MockStatus m) ;; console_log MockUsage).
Proof.
  intros w1 w2 H. blind_fields H. unfold console_log. run_monad.
  split; [reflexivity|].
  unfold mock_blind, mask_mock. cbn. rewrite !map_app. cbn. congruence.
Qed.

Lemma list_personas_blind entries : blind (list_personas entries).
Proof.
  induction entries as [|[key description] rest IH]; cbn [list_personas].
  - apply blind_ret.
  - apply blind_bind; [unfold console_log; apply blind_emit | intros _; exact IH].
Qed.

Lemma on_line_blind O cfg input : blind (on_line O cfg input).
Proof.
  rewrite on_line_classify. cbv zeta.
  destruct (classify cfg input);
    unfold switch_persona, set_activePersona, set_config_mock, setPrompt,
           rl_close, rl_prompt, console_log;
    repeat first
      [ apply handlePrompt_blind | apply list_personas_blind
      | apply mock_status_blind | blind_step ].
Qed.

Lemma on_sigint_blind : blind on_sigint.
Proof. unfold on_sigint, rl_close, console_log. repeat blind_step. Qed.

Lemma gateway_calls_mask tr :
  gateway_calls (map mask_event tr) = gateway_calls tr.
Proof.
  induction tr as [|e tr IH]; [reflexivity|].
  destruct e as [m| | | | | | |]; cbn; rewrite ?IH; try reflexivity.
  destruct m; cbn; rewrite ?IH; reflexivity.
Qed.

Lemma mock_blind_gateway_calls w1 w2 :
  mock_blind w1 w2 -> gateway_calls (trace w1) = gateway_calls (trace w2).
Proof.
  intros H. blind_fields H.
  rewrite <- (gateway_calls_mask (trace w1)), <- (gateway_calls_mask (trace w2)).
  congruence.
Qed.

Lemma mock_blind_closed w1 w2 :
  mock_blind w1 w2 -> rl_closed (sess w1) = rl_closed (sess w2).
Proof. intros H. blind_fields H. assumption. Qed.

Lemma on_line_toggle O cfg input w :
  is_mock_toggle cfg input = true ->
  exists b m,
    (m = MockOn \/ m = MockOff) /\
    on_line O cfg input w =
      (Return tt, set_trace (trace w ++ [ConsoleLog m; RlPrompt]) (with_mock b w)).
Proof.
  unfold is_mock_toggle. intros H. rewrite on_line_classify. cbv zeta.
  destruct (classify cfg input); try discriminate. cbv zeta in H.
  unfold set_config_mock, console_log, rl_prompt.
  destruct (strict_eq _ "on").
  - exists true, MockOn. split; [auto|]. run_monad.
    unfold set_trace, with_mock, set_sess. cbn. rewrite <- app_assoc. reflexivity.
  - cbn [orb] in H. rewrite H.
    exists false, MockOff. split; [auto|]. run_monad.
    unfold set_trace, with_mock, set_sess. cbn. rewrite <- app_assoc. reflexivity.
Qed.

Lemma dispatch_twin O cfg i1 i2 w1 w2 :
  mock_twin cfg i1 i2 -> mock_blind w1 w2 ->
  fst (dispatch O cfg i1 w1) = fst (dispatch O cfg i2 w2) /\
  mock_blind (snd (dispatch O cfg i1 w1)) (snd (dispatch O cfg i2 w2)).
Proof.
  intros [<- | (l1 & l2 & -> & -> & H1 & H2)] Hw.
  - destruct i1 as [text|]; cbn [dispatch].
    + apply on_line_blind. assumption.
    + apply on_sigint_blind. assumption.
  - cbn [dispatch].
    destruct (on_line_toggle O cfg l1 w1 H1) as (b1 & m1 & Hm1 & ->).
    destruct (on_line_toggle O cfg l2 w2 H2) as (b2 & m2 & Hm2 & ->).
    split; [reflexivity|]. cbn [snd]. blind_fields Hw.
    unfold mock_blind, mask_mock. cbn. rewrite !map_app. cbn.
    destruct Hm1 as [-> | ->], Hm2 as [-> | ->]; cbn; congruence.
Qed.

Lemma run_twin O cfg ins1 ins2 :
  Forall2 (mock_twin cfg) ins1 ins2 ->
  forall w1 w2, mock_blind w1 w2 ->
    fst (run O cfg ins1 w1) = fst (run O cfg ins2 w2) /\
    mock_blind (snd (run O cfg ins1 w1)) (snd (run O cfg ins2 w2)).
Proof.
  induction 1 as [|i1 i2 rest1 rest2 Hi _ IH]; intros w1 w2 Hw; cbn [run];
    rewrite (mock_blind_closed w1 w2 Hw).
  - destruct (rl_closed (sess w2)); auto.
  - destruct (rl_closed (sess w2)); [auto|].
    destruct (dispatch_twin O cfg i1 i2 w1 w2 Hi Hw) as [Hr Hs].
    destruct (dispatch O cfg i1 w1) as [[[]|e1] u1],
             (dispatch O cfg i2 w2) as [[[]|e2] u2];
      cbn in Hr, Hs; try discriminate.
    + apply IH. assumption.
    + injection Hr as <-. auto.
Qed.

(** C10. The mock flag never reaches the query path. Two runs whose
    input lines agree except that one may say [/mock on] where the
    other says [/mock off], started from worlds that differ at most in
    [config.mock], end in the same status, in worlds that still differ
    at most in the flag and its printed reports, and make the same
    completion requests. A query line always issues its request,
    whatever the flag. A toggle changes the stored flag and prints its
    confirmation and the prompt, nothing else. *)
Theorem mock_flag_is_not_consulted (O : oracle) (cfg : config) :
  (forall ins1 ins2 w1 w2,
     Forall2 (mock_twin cfg) ins1 ins2 -> mock_blind w1 w2 ->
     fst (run O cfg ins1 w1) = fst (run O cfg ins2 w2) /\
     mock_blind (snd (run O cfg ins1 w1)) (snd (run O cfg ins2 w2)) /\
     gateway_calls (trace (snd (run O cfg ins1 w1)))
     = gateway_calls (trace (snd (run O cfg ins2 w2)))) /\
  (forall input w, classify cfg input = BQuery ->
     gateway_calls (trace (snd (on_line O cfg input w)))
     = gateway_calls (trace w)
       ++ [request_for cfg (activePersona (sess w)) input]) /\
  (forall w,
     on_line O cfg "/mock on" w
     = (Return tt,
        set_trace (trace w ++ [ConsoleLog MockOn; RlPrompt]) (with_mock true w)) /\
     on_line O cfg "/mock off" w
     = (Return tt,
        set_trace (trace w ++ [ConsoleLog MockOff; RlPrompt]) (with_mock false w))).
Proof.
  split; [|split].
  - intros ins1 ins2 w1 w2 Hins Hw.
    destruct (run_twin O cfg ins1 ins2 Hins w1 w2 Hw) as [Hr Hs].
    split; [assumption|]. split; [assumption|].
    apply mock_blind_gateway_calls. assumption.
  - intros input w Hq. apply on_line_query_calls. assumption.
  - intros w. split; lazy -[app]; rewrite <- app_assoc; reflexivity.
Qed.

Lemma mock_flag_is_not_consulted_witness :
  Forall2 (mock_twin default_config)
    [Line "/mock on"; Line "How do I sort?"; Line "/mock"]
    [Line "/mock off"; Line "How do I sort?"; Line "/mock"] /\
  mock_blind at_prompt (with_mock true at_prompt) /\
  gateway_calls
    (trace (snd (run online default_config
                   [Line "/mock on"; Line "How do I sort?"; Line "/mock"]
                   at_prompt)))
  = gateway_calls
      (trace (snd (run online default_config
                     [Line "/mock off"; Line "How do I sort?"; Line "/mock"]
                     (with_mock true at_prompt)))).
Proof.
  assert (Htwin : Forall2 (mock_twin default_config)
            [Line "/mock on"; Line "How do I sort?"; Line "/mock"]
            [Line "/mock off"; Line "How do I sort?"; Line "/mock"]).
  { constructor.
    - right. exists "/mock on", "/mock off". repeat split.
    - constructor; [left; reflexivity|].
      constructor; [left; reflexivity | constructor]. }
  split; [exact Htwin|]. split; [reflexivity|].
  apply (proj1 (mock_flag_is_not_consulted online default_config)
           _ _ at_prompt (with_mock true at_prompt) Htwin eq_refl).
Defined.

(* ===================================================================== *)
(** * The log lifecycle *)
(* ===================================================================== *)

Ltac case_ifs :=
  repeat (match goal with
          | |- context [if ?b then _ else _] => destruct b eqn:?
          end; cbn in *; try discriminate).

(** What a first resolution leaves behind. *)
Lemma initLogFile_outcome O cfg w r w' :
  enabled (logging cfg) = true ->
  initialized (logr w) = false ->
  initLogFile O cfg w = (r, w') ->
  sess w' = sess w /\
  match r with
  | Return _ =>
      initialized (logr w') = true /\
      logPath (logr w') = resolved_path O cfg w /\
      (if String.eqb (mode (logging cfg)) "rotate" then files (fsys w') = files (fsys w)
       else if String.eqb (mode (logging cfg)) "overwrite"
            then files (fsys w') = <[resolved_path O cfg w := ""]> (files (fsys w))
            else files (fsys w') = files (fsys w))
  | Throw _ => initialized (logr w') = false /\ files (fsys w') = files (fsys w)
  end.
Proof.
  intros Hen Hinit.
  unfold initLogFile, existsSync, mkdirSync, writeFileSync, newDate,
         set_logPath, set_initialized, resolved_path, resolution_instant.
  run_monad. rewrite Hen, Hinit. cbn.
  change (bool_decide (path_resolve O (directory (logging cfg)) ∈ dirs (fsys w))
          || bool_decide (is_Some (files (fsys w)
                                   !! path_resolve O (directory (logging cfg)))))
    with (present (path_resolve O (directory (logging cfg))) w).
  destruct (present (path_resolve O (directory (logging cfg))) w); cbn;
    case_ifs; intros [= <- <-]; cbn; auto.
Qed.

Lemma append_empty_r (s : string) : s +:+ "" = s.
Proof.
  induction s as [|c s IH]; [reflexivity|].
  change (String c (s +:+ "") = String c s). rewrite IH. reflexivity.
Qed.

Lemma append_assoc (a b c : string) : (a +:+ b) +:+ c = a +:+ (b +:+ c).
Proof.
  induction a as [|x a IH]; [reflexivity|].
  change (String x ((a +:+ b) +:+ c) = String x (a +:+ (b +:+ c))).
  rewrite IH. reflexivity.
Qed.

Lemma append_inv_head (a b c : string) : a +:+ b = a +:+ c -> b = c.
Proof.
  induction a as [|x a IH]; [auto|].
  change (String x (a +:+ b) = String x (a +:+ c) -> b = c).
  intros [= H]. apply IH. assumption.
Qed.

Lemma bind_gets {A B} (f : world -> A) (k : A -> M B) (w : world) :
  (x <- gets f ;; k x) w = k (f w) w.
Proof. reflexivity. Qed.

(** A call that finds the log file resolved only appends. *)
Lemma logInteraction_resolved O cfg input response persona w :
  enabled (logging cfg) = true ->
  initialized (logr w) = true ->
  let w' := snd (logInteraction O cfg input response persona w) in
  fst (logInteraction O cfg input response persona w) = Return tt /\
  logr w' = logr w /\
  (exists evs, trace w' = trace w ++ evs /\
               Forall (is_append_to (logPath (logr w))) evs) /\
  (forall p, exists suffix, content p w' = content p w +:+ suffix).
Proof.
  intros Hen Hinit. cbv zeta.
  unfold logInteraction, newDate, appendFileSync. rewrite Hen. run_monad.
  rewrite Hinit. cbn.
  destruct (denied O (S (ticks w)) _); cbn.
  - split; [reflexivity|]. split; [reflexivity|]. split.
    + eexists. rewrite <- app_assoc. split; [reflexivity|].
      repeat constructor.
    + intros p. exists "". unfold content. cbn.
      rewrite append_empty_r. reflexivity.
  - split; [reflexivity|]. split; [reflexivity|]. split.
    + eexists. split; [reflexivity|]. repeat constructor.
    + intros p. unfold content. cbn.
      destruct (decide (logPath (logr w) = p)) as [<-|Hne].
      * rewrite lookup_insert_eq. cbn. eexists. reflexivity.
      * rewrite lookup_insert_ne by assumption. exists "".
        rewrite append_empty_r. reflexivity.
Qed.

Lemma logInteraction_first O cfg input response persona w :
  enabled (logging cfg) = true ->
  initialized (logr w) = false ->
  logInteraction O cfg input response persona w =
    match initLogFile O cfg w with
    | (Return _, w') => logInteraction O cfg input response persona w'
    | (Throw e, w') => (Throw e, w')
    end.
Proof.
  intros Hen Hinit.
  unfold logInteraction. rewrite Hen. cbn [negb].
  rewrite bind_gets, Hinit. cbn [negb when].
  unfold bind at 1.
  destruct (initLogFile O cfg w) as [[[]|e] w'] eqn:Hi; [|reflexivity].
  destruct (initLogFile_outcome O cfg w _ _ Hen Hinit Hi) as (_ & Hdone & _).
  rewrite bind_gets, Hdone. reflexivity.
Qed.

Lemma log_all_resolved O cfg later : forall w,
  enabled (logging cfg) = true ->
  initialized (logr w) = true ->
  let w' := snd (log_all O cfg later w) in
  fst (log_all O cfg later w) = Return tt /\
  logr w' = logr w /\
  exists evs, trace w' = trace w ++ evs /\
              Forall (is_append_to (logPath (logr w))) evs.
Proof.
  induction later as [|c rest IH]; intros w Hen Hinit; cbv zeta; cbn [log_all].
  - split; [reflexivity|]. split; [reflexivity|].
    exists []. rewrite app_nil_r. auto.
  - destruct (logInteraction_resolved O cfg (i_input c) (i_response c)
                (i_persona c) w Hen Hinit) as (Hr & Hl & (evs1 & Ht1 & Hf1) & _).
    unfold bind.
    destruct (logInteraction O cfg (i_input c) (i_response c) (i_persona c) w)
      as [[[]|e] w1]; cbn in Hr, Hl, Ht1; [|discriminate].
    assert (Hinit1 : initialized (logr w1) = true) by (rewrite Hl; assumption).
    destruct (IH w1 Hen Hinit1) as (Hr2 & Hl2 & (evs2 & Ht2 & Hf2)).
    split; [assumption|]. split; [congruence|].
    exists (evs1 ++ evs2). rewrite Ht2, Ht1, app_assoc. split; [reflexivity|].
    apply Forall_app. split; [assumption|]. rewrite <- Hl. assumption.
Qed.

(** C7. With logging enabled, once a first call has returned, the log
    file is resolved: the path is fixed and [initialized] is set. Every
    later call of the process, on whatever world carries that logger
    state, returns normally, leaves the logger state as it is and
    touches the file system only to append to the resolved path; it
    neither tests or creates the directory nor truncates the file. *)
Theorem log_file_resolved_once (O : oracle) (cfg : config)
    (first : interaction) (later_calls : list interaction) (w0 w1 : world) :
  enabled (logging cfg) = true ->
  initialized (logr w0) = false ->
  logInteraction O cfg (i_input first) (i_response first) (i_persona first) w0
    = (Return tt, w1) ->
  (initialized (logr w1) = true /\ logPath (logr w1) = resolved_path O cfg w0) /\
  (fst (log_all O cfg later_calls w1) = Return tt /\
   logr (snd (log_all O cfg later_calls w1)) = logr w1 /\
   exists evs, trace (snd (log_all O cfg later_calls w1)) = trace w1 ++ evs /\
               Forall (is_append_to (resolved_path O cfg w0)) evs) /\
  (forall c w, logr w = logr w1 ->
     logr (snd (logInteraction O cfg (i_input c) (i_response c) (i_persona c) w))
       = logr w1 /\
     exists evs,
       trace (snd (logInteraction O cfg (i_input c) (i_response c) (i_persona c) w))
         = trace w ++ evs /\
       Forall (is_append_to (resolved_path O cfg w0)) evs).
Proof.
  intros Hen Hinit Hfirst.
  rewrite (logInteraction_first O cfg _ _ _ w0 Hen Hinit) in Hfirst.
  destruct (initLogFile O cfg w0) as [[[]|e] wi] eqn:Hi; [|discriminate].
  destruct (initLogFile_outcome O cfg w0 _ _ Hen Hinit Hi) as (_ & Hdone & Hpath & _).
  destruct (logInteraction_resolved O cfg (i_input first) (i_response first)
              (i_persona first) wi Hen Hdone) as (_ & Hl & _).
  rewrite Hfirst in Hl. cbn [snd] in Hl.
  assert (Hdone1 : initialized (logr w1) = true) by (rewrite Hl; assumption).
  assert (Hpath1 : logPath (logr w1) = resolved_path O cfg w0) by (rewrite Hl; assumption).
  split; [split; assumption|]. split.
  - destruct (log_all_resolved O cfg later_calls w1 Hen Hdone1) as (Hr & Hlog & Hev).
    rewrite Hpath1 in Hev. auto.
  - intros c w Hw.
    assert (Hdonew : initialized (logr w) = true) by (rewrite Hw; assumption).
    destruct (logInteraction_resolved O cfg (i_input c) (i_response c)
                (i_persona c) w Hen Hdonew) as (_ & Hlw & Hev & _).
    rewrite Hw, Hpath1 in Hev. split; [congruence | assumption].
Qed.

Lemma log_file_resolved_once_witness :
  logInteraction online default_config "How do I sort?" "Use PROC SORT." "sas"
    at_prompt
  = (Return tt,
     snd (logInteraction online default_config "How do I sort?" "Use PROC SORT."
            "sas" at_prompt)) /\
  logPath (logr (snd (log_all online default_config [sample_call; sample_call]
                        (snd (logInteraction online default_config "How do I sort?"
                                "Use PROC SORT." "sas" at_prompt)))))
  = "/app/logs/session_2026-11-02T12-00-00-000Z.log".
Proof.
  split; [reflexivity|].
  destruct (log_file_resolved_once online default_config sample_call
              [sample_call; sample_call] at_prompt
              (snd (logInteraction online default_config "How do I sort?"
                      "Use PROC SORT." "sas" at_prompt))
              eq_refl eq_refl eq_refl) as ((_ & Hpath) & (_ & Hlog & _) & _).
  rewrite Hlog, Hpath. reflexivity.
Defined.

(** C4: the code breaks the claim. A failure while the log file is
    being resolved is outside the [try] of [logInteraction]: when the
    directory cannot be created, or the file cannot be truncated under
    [overwrite], the exception leaves [logInteraction] with nothing
    written to the diagnostic channel, the line listener rejects and
    the session is over. *)
Theorem log_resolution_failure_escapes :
  (fst (logInteraction no_mkdir default_config "How do I sort?" "Use PROC SORT."
          "sas" at_prompt)
   = Throw (FsError (MkdirSync "/app/logs")) /\
   trace (snd (logInteraction no_mkdir default_config "How do I sort?"
                 "Use PROC SORT." "sas" at_prompt))
   = trace at_prompt ++ [Fs (ExistsSync "/app/logs"); Fs (MkdirSync "/app/logs")]) /\
  (fst (logInteraction no_truncate overwrite_config "How do I sort?"
          "Use PROC SORT." "sas" at_prompt)
   = Throw (FsError (WriteFileSync "/app/logs/session.log" "")) /\
   trace (snd (logInteraction no_truncate overwrite_config "How do I sort?"
                 "Use PROC SORT." "sas" at_prompt))
   = trace at_prompt ++ [Fs (ExistsSync "/app/logs"); Fs (MkdirSync "/app/logs");
                         Fs (WriteFileSync "/app/logs/session.log" "")]) /\
  fst (session_run no_mkdir default_config empty_disk
         [Line "How do I sort?"; Line "and merge?"])
  = Rejected (FsError (MkdirSync "/app/logs")).
Proof. repeat split. Qed.

(** The failure of the append itself is caught: the call returns
    normally whether or not the file system refuses it. *)
Lemma append_failure_is_caught O cfg input response persona w :
  enabled (logging cfg) = true ->
  initialized (logr w) = true ->
  fst (logInteraction O cfg input response persona w) = Return tt.
Proof.
  intros Hen Hinit.
  apply (logInteraction_resolved O cfg input response persona w Hen Hinit).
Qed.

(** ** Rotated file names *)

Lemma digit_inj a b : a < 10 -> b < 10 -> digit a = digit b -> a = b.
Proof.
  intros Ha Hb.
  do 10 (destruct a as [|a];
         [do 10 (destruct b as [|b]; [first [reflexivity | discriminate]|]); lia|]).
  lia.
Qed.

Lemma dash_digit n : Str.dash_colon_dot (digit n) = digit n.
Proof. do 9 (destruct n as [|n]; [reflexivity|]). reflexivity. Qed.

Lemma two_digits y z :
  y < 100 -> z < 100 ->
  y / 10 mod 10 = z / 10 mod 10 -> y mod 10 = z mod 10 -> y = z.
Proof.
  intros Hy Hz Hq Hr.
  pose proof (Nat.div_mod_eq y 10) as Ey. pose proof (Nat.div_mod_eq z 10) as Ez.
  assert (Hy' : y / 10 < 10) by (apply Nat.Div0.div_lt_upper_bound; exact Hy).
  assert (Hz' : z / 10 < 10) by (apply Nat.Div0.div_lt_upper_bound; exact Hz).
  rewrite (Nat.mod_small _ _ Hy'), (Nat.mod_small _ _ Hz') in Hq.
  rewrite Ey, Ez, Hq, Hr. reflexivity.
Qed.

Lemma split_hundreds y z : y / 100 = z / 100 -> y mod 100 = z mod 100 -> y = z.
Proof.
  intros Hq Hr. rewrite (Nat.div_mod_eq y 100), (Nat.div_mod_eq z 100), Hq, Hr.
  reflexivity.
Qed.

Lemma mod10_lt n : n mod 10 < 10.
Proof. apply Nat.mod_upper_bound. discriminate. Qed.

Lemma pad2_inj y z k1 k2 :
  y < 100 -> z < 100 -> pad2 y k1 = pad2 z k2 -> y = z /\ k1 = k2.
Proof.
  intros Hy Hz [= H1 H2 Hk]. split; [|assumption].
  apply two_digits; try assumption; apply digit_inj; auto using mod10_lt.
Qed.

Lemma string_cons_inj a b s s' : String a s = String b s' -> a = b /\ s = s'.
Proof. intros [= -> ->]. auto. Qed.

Lemma pad3_inj y z k1 k2 :
  y < 1000 -> z < 1000 -> pad3 y k1 = pad3 z k2 -> y = z /\ k1 = k2.
Proof.
  intros Hy Hz H. unfold pad3 in H. apply string_cons_inj in H as [H1 H2].
  apply pad2_inj in H2 as [Hr Hk];
    [|apply Nat.mod_upper_bound; discriminate
     |apply Nat.mod_upper_bound; discriminate].
  split; [|assumption]. apply split_hundreds; [|assumption].
  apply digit_inj in H1; [|apply mod10_lt|apply mod10_lt].
  assert (Hy' : y / 100 < 10) by (apply Nat.Div0.div_lt_upper_bound; exact Hy).
  assert (Hz' : z / 100 < 10) by (apply Nat.Div0.div_lt_upper_bound; exact Hz).
  rewrite (Nat.mod_small _ _ Hy'), (Nat.mod_small _ _ Hz') in H1. assumption.
Qed.

Lemma pad4_inj y z k1 k2 :
  y < 10 * 1000 -> z < 10 * 1000 -> pad4 y k1 = pad4 z k2 -> y = z /\ k1 = k2.
Proof.
  intros Hy Hz H. unfold pad4 in H.
  apply pad2_inj in H as [Hq H];
    [|apply Nat.Div0.div_lt_upper_bound; exact Hy
     |apply Nat.Div0.div_lt_upper_bound; exact Hz].
  apply pad2_inj in H as [Hr Hk];
    [|apply Nat.mod_upper_bound; discriminate
     |apply Nat.mod_upper_bound; discriminate].
  split; [|assumption]. apply split_hundreds; assumption.
Qed.

Lemma replace_pad2 n k :
  Str.replace_colon_dot (pad2 n k) = pad2 n (Str.replace_colon_dot k).
Proof. unfold pad2. cbn [Str.replace_colon_dot]. rewrite !dash_digit. reflexivity. Qed.

Lemma replace_pad3 n k :
  Str.replace_colon_dot (pad3 n k) = pad3 n (Str.replace_colon_dot k).
Proof.
  unfold pad3. cbn [Str.replace_colon_dot]. rewrite dash_digit, replace_pad2.
  reflexivity.
Qed.

Lemma replace_pad4 n k :
  Str.replace_colon_dot (pad4 n k) = pad4 n (Str.replace_colon_dot k).
Proof. unfold pad4. rewrite !replace_pad2. reflexivity. Qed.

(** The sanitized time stamp of an instant with a four-digit year. *)
Lemma sanitized_timestamp t :
  four_digit_year t ->
  Str.replace_colon_dot (toISOString t) =
    let ms := pad3 (millisecond t) "Z" in
    let ss := pad2 (second t) (String "-" ms) in
    let mi := pad2 (minute t) (String "-" ss) in
    let hh := pad2 (hour t) (String "-" mi) in
    let dd := pad2 (day t) (String "T" hh) in
    let mo := pad2 (month t) (String "-" dd) in
    pad4 (year t) (String "-" mo).
Proof.
  intros (Hy & _). unfold toISOString. cbv zeta.
  apply Nat.ltb_lt in Hy. rewrite Hy.
  rewrite replace_pad4. cbn [Str.replace_colon_dot]. rewrite replace_pad2.
  cbn [Str.replace_colon_dot]. rewrite replace_pad2.
  cbn [Str.replace_colon_dot]. rewrite replace_pad2.
  cbn [Str.replace_colon_dot]. rewrite replace_pad2.
  cbn [Str.replace_colon_dot]. rewrite replace_pad2.
  cbn [Str.replace_colon_dot]. rewrite replace_pad3.
  reflexivity.
Qed.

Lemma pad2_append n k s : pad2 n k +:+ s = pad2 n (k +:+ s).
Proof. reflexivity. Qed.

Lemma pad3_append n k s : pad3 n k +:+ s = pad3 n (k +:+ s).
Proof. reflexivity. Qed.

Lemma pad4_append n k s : pad4 n k +:+ s = pad4 n (k +:+ s).
Proof. reflexivity. Qed.

Lemma cons_append c k s : String c k +:+ s = String c (k +:+ s).
Proof. reflexivity. Qed.

Lemma sanitized_timestamp_inj t1 t2 s1 s2 :
  four_digit_year t1 -> four_digit_year t2 ->
  Str.replace_colon_dot (toISOString t1) +:+ s1
  = Str.replace_colon_dot (toISOString t2) +:+ s2 ->
  t1 = t2.
Proof.
  intros H1 H2 H.
  rewrite (sanitized_timestamp t1 H1), (sanitized_timestamp t2 H2) in H.
  cbv zeta in H.
  destruct H1 as (Y1 & M1 & D1 & h1 & m1 & S1 & L1).
  destruct H2 as (Y2 & M2 & D2 & h2 & m2 & S2 & L2).
  rewrite !pad4_append, !cons_append, !pad2_append, !cons_append,
          !pad2_append, !cons_append, !pad2_append, !cons_append,
          !pad2_append, !cons_append, !pad2_append, !cons_append,
          !pad3_append in H.
  apply pad4_inj in H as [Ey H]; [|assumption|assumption].
  apply string_cons_inj in H as [_ H].
  apply pad2_inj in H as [Emo H]; [|assumption|assumption].
  apply string_cons_inj in H as [_ H].
  apply pad2_inj in H as [Ed H]; [|assumption|assumption].
  apply string_cons_inj in H as [_ H].
  apply pad2_inj in H as [Eh H]; [|assumption|assumption].
  apply string_cons_inj in H as [_ H].
  apply pad2_inj in H as [Emi H]; [|assumption|assumption].
  apply string_cons_inj in H as [_ H].
  apply pad2_inj in H as [Es H]; [|assumption|assumption].
  apply string_cons_inj in H as [_ H].
  apply pad3_inj in H as [Ems _]; [|assumption|assumption].
  destruct t1, t2. cbn in *. congruence.
Qed.

Lemma path_join_inj dir a b : path_join dir a = path_join dir b -> a = b.
Proof.
  unfold path_join. destruct (String.eqb dir "/").
  - apply append_inv_head.
  - intros H. apply append_inv_head in H. apply (append_inv_head "/") in H.
    assumption.
Qed.

Lemma rotated_name_inj t1 t2 :
  four_digit_year t1 -> four_digit_year t2 ->
  rotated_name t1 = rotated_name t2 -> t1 = t2.
Proof.
  intros H1 H2 H. unfold rotated_name in H.
  apply (append_inv_head "session_") in H.
  apply (sanitized_timestamp_inj t1 t2 ".log" ".log"); assumption.
Qed.

Lemma first_call_extends O cfg input response persona w :
  enabled (logging cfg) = true ->
  initialized (logr w) = false ->
  String.eqb (mode (logging cfg)) "overwrite" = false ->
  forall p, exists suffix,
    content p (snd (logInteraction O cfg input response persona w))
    = content p w +:+ suffix.
Proof.
  intros Hen Hinit Hmode p.
  rewrite (logInteraction_first O cfg input response persona w Hen Hinit).
  destruct (initLogFile O cfg w) as [[[]|e] wi] eqn:Hi;
    pose proof (initLogFile_outcome O cfg w _ _ Hen Hinit Hi) as (_ & Hout).
  - destruct Hout as (Hdone & _ & Hfiles). rewrite Hmode in Hfiles.
    assert (Hsame : files (fsys wi) = files (fsys w))
      by (destruct (String.eqb (mode (logging cfg)) "rotate"); assumption).
    destruct (logInteraction_resolved O cfg input response persona wi Hen Hdone)
      as (_ & _ & _ & Hgrow).
    destruct (Hgrow p) as (suffix & Hs). exists suffix. rewrite Hs.
    unfold content. rewrite Hsame. reflexivity.
  - destruct Hout as (_ & Hsame). exists "". cbn [snd]. unfold content.
    rewrite Hsame, append_empty_r. reflexivity.
Qed.

(** C6, as amended. Take two process lifetimes with the same logging
    configuration and working directory, each resolving its log file
    for the first time. Under [overwrite] the resolved path is the
    directory joined with the configured file name and the file is
    empty right after the resolution, whatever it held before. Under
    [rotate] the two lifetimes resolve distinct paths provided their
    resolutions read distinct instants (of years up to 9999). Under
    [append], and any mode other than the first two, both lifetimes resolve the
    same path, the directory joined with the configured file name,
    the resolution leaves every file as it was, and a first call only
    ever extends the content of a file. *)
Theorem log_modes (O1 O2 : oracle) (cfg : config) (w1 w2 w1' w2' : world) :
  enabled (logging cfg) = true ->
  initialized (logr w1) = false ->
  initialized (logr w2) = false ->
  initLogFile O1 cfg w1 = (Return tt, w1') ->
  initLogFile O2 cfg w2 = (Return tt, w2') ->
  path_resolve O1 (directory (logging cfg)) = path_resolve O2 (directory (logging cfg)) ->
  (mode (logging cfg) = "overwrite" ->
     logPath (logr w2')
       = path_join (path_resolve O2 (directory (logging cfg))) (filename (logging cfg)) /\
     files (fsys w2') !! logPath (logr w2') = Some "") /\
  (mode (logging cfg) = "rotate" ->
     four_digit_year (resolution_instant O1 cfg w1) ->
     four_digit_year (resolution_instant O2 cfg w2) ->
     resolution_instant O1 cfg w1 <> resolution_instant O2 cfg w2 ->
     logPath (logr w1') <> logPath (logr w2')) /\
  (mode (logging cfg) <> "rotate" -> mode (logging cfg) <> "overwrite" ->
     logPath (logr w2')
       = path_join (path_resolve O2 (directory (logging cfg))) (filename (logging cfg)) /\
     logPath (logr w2') = logPath (logr w1') /\
     files (fsys w2') = files (fsys w2) /\
     forall input response persona p, exists suffix,
       content p (snd (logInteraction O2 cfg input response persona w2))
       = content p w2 +:+ suffix).
Proof.
  intros Hen Hi1 Hi2 Hr1 Hr2 Hdir.
  destruct (initLogFile_outcome O1 cfg w1 _ _ Hen Hi1 Hr1) as (_ & _ & Hp1 & Hf1).
  destruct (initLogFile_outcome O2 cfg w2 _ _ Hen Hi2 Hr2) as (_ & _ & Hp2 & Hf2).
  unfold resolved_path in Hp1, Hp2, Hf2. cbv zeta in Hp1, Hp2, Hf2.
  split; [|split].
  - intros Hmode. rewrite Hmode in Hp2, Hf2. cbn in Hp2, Hf2.
    split; [assumption|]. rewrite Hf2, Hp2. apply lookup_insert_eq.
  - intros Hmode Hy1 Hy2 Hne Heq. rewrite Hmode in Hp1, Hp2. cbn in Hp1, Hp2.
    rewrite Hp1, Hp2, Hdir in Heq. apply path_join_inj in Heq.
    apply Hne. apply rotated_name_inj; assumption.
  - intros Hnr Hno.
    apply String.eqb_neq in Hnr. apply String.eqb_neq in Hno.
    rewrite Hnr in Hp1, Hp2, Hf2. rewrite Hno in Hf2.
    split; [assumption|]. split; [congruence|]. split; [assumption|].
    intros input response persona p.
    apply first_call_extends; assumption.
Qed.

Lemma log_modes_witness :
  (* overwrite: the file left by an earlier run is empty after resolution *)
  files (fsys (snd (initLogFile online overwrite_config (at_prompt_on used_disk))))
    !! "/app/logs/session.log" = Some "" /\
  (* rotate: instants one millisecond apart give distinct paths *)
  logPath (logr (snd (initLogFile online default_config at_prompt)))
    <> logPath (logr (snd (initLogFile later default_config at_prompt))) /\
  (* append: the same path, and the earlier content is kept *)
  logPath (logr (snd (initLogFile online append_config (at_prompt_on used_disk))))
    = "/app/logs/session.log" /\
  files (fsys (snd (initLogFile online append_config (at_prompt_on used_disk))))
    = files used_disk.
Proof.
  split; [|split].
  - destruct (log_modes online online overwrite_config
                (at_prompt_on used_disk) (at_prompt_on used_disk)
                (snd (initLogFile online overwrite_config (at_prompt_on used_disk)))
                (snd (initLogFile online overwrite_config (at_prompt_on used_disk)))
                eq_refl eq_refl eq_refl eq_refl eq_refl eq_refl) as (Hover & _).
    destruct (Hover eq_refl) as [Hpath Hempty].
    rewrite Hpath in Hempty. exact Hempty.
  - destruct (log_modes online later default_config at_prompt at_prompt
                (snd (initLogFile online default_config at_prompt))
                (snd (initLogFile later default_config at_prompt))
                eq_refl eq_refl eq_refl eq_refl eq_refl eq_refl) as (_ & Hrot & _).
    apply Hrot; [reflexivity | | | discriminate];
      unfold four_digit_year; cbn; lia.
  - destruct (log_modes online online append_config
                (at_prompt_on used_disk) (at_prompt_on used_disk)
                (snd (initLogFile online append_config (at_prompt_on used_disk)))
                (snd (initLogFile online append_config (at_prompt_on used_disk)))
                eq_refl eq_refl eq_refl eq_refl eq_refl eq_refl) as (_ & _ & Happ).
    destruct Happ as (Hpath & _ & Hfiles & _); [discriminate | discriminate |].
    split; [exact Hpath | exact Hfiles].
Defined.

(** The claim of C6 fails under [rotate] when two lifetimes resolve
    their log file at the same instant: both arrive at the same path,
    and the second appends to the file of the first. *)
Lemma rotate_same_instant_same_path :
  mode (logging default_config) = "rotate" /\
  logPath (logr (snd (session_run online default_config empty_disk
                        [Line "How do I sort?"])))
  = "/app/logs/session_2026-11-02T12-00-00-000Z.log" /\
  logPath
    (logr (snd (session_run online default_config
                  (fsys (snd (session_run online default_config empty_disk
                                [Line "How do I sort?"])))
                  [Line "How do I merge?"])))
  = "/app/logs/session_2026-11-02T12-00-00-000Z.log".
Proof. repeat split. Qed.

(* ===================================================================== *)
(** * Further properties of the session engine *)
(* ===================================================================== *)

Lemma prompts_app tr1 tr2 : prompts (tr1 ++ tr2) = prompts tr1 + prompts tr2.
Proof.
  induction tr1 as [|e tr1 IH]; [reflexivity|].
  destruct e; cbn; rewrite ?IH; reflexivity.
Qed.

Lemma prompts_logger evs : Forall is_logger_event evs -> prompts evs = 0.
Proof.
  induction 1 as [|e evs He _ IH]; [reflexivity|].
  destruct e; cbn in *; try contradiction; assumption.
Qed.

Lemma gateway_calls_console evs :
  Forall is_console_event evs -> gateway_calls evs = [].
Proof.
  induction 1 as [|e evs He _ IH]; [reflexivity|].
  destruct e; cbn in *; try contradiction; assumption.
Qed.

Ltac command_effect :=
  run_monad; rewrite <- ?app_assoc; cbn [app];
  unfold set_trace, set_sess; cbn;
  lazymatch goal with
  | |- exists s' evs, (_, Build_world ?S _ _ _ (_ ++ ?L)) = _ /\ _ =>
      exists S, L;
      split; [reflexivity|];
      split; [repeat constructor|];
      split; [|cbn; auto];
      first [ split; reflexivity
            | split; [exists (removelast L); split|]; reflexivity ]
  end.

(** What a line that is not a query does: it returns, replaces the
    session and extends the trace by console events, leaving the
    logger, the disk and the interaction count alone. *)
Lemma on_line_command O cfg input w :
  classify cfg input <> BQuery ->
  exists s' evs,
    on_line O cfg input w = (Return tt, set_trace (trace w ++ evs) (set_sess s' w)) /\
    Forall is_console_event evs /\
    (if branch_is_exit (classify cfg input)
     then prompts evs = 0 /\ rl_closed s' = true
     else (exists evs0, evs = evs0 ++ [RlPrompt] /\ prompts evs0 = 0) /\
          rl_closed s' = rl_closed (sess w)) /\
    ((activePersona s' = activePersona (sess w) /\
      rl_prompt_text s' = rl_prompt_text (sess w)) \/
     rl_prompt_text s' = activePersona s').
Proof.
  intros Hq. rewrite on_line_classify. cbv zeta.
  destruct (classify cfg input) eqn:Hc; try contradiction;
    cbn [branch_is_exit];
    unfold switch_persona, set_activePersona, set_config_mock, setPrompt,
           rl_close, rl_prompt, console_log, when;
    repeat match goal with
           | |- context [if ?b then _ else _] => destruct b
           end.
  all: command_effect.
Qed.

Lemma on_line_query_shape O cfg input w :
  classify cfg input = BQuery ->
  sess (snd (on_line O cfg input w)) = sess w /\
  match fst (on_line O cfg input w) with
  | Return _ =>
      exists evs0, trace (snd (on_line O cfg input w)) = trace w ++ evs0 ++ [RlPrompt] /\
                   prompts evs0 = 0
  | Throw _ => prompts (trace (snd (on_line O cfg input w))) = prompts (trace w)
  end.
Proof.
  intros Hq.
  destruct (complete O (ticks w) (request_for cfg (activePersona (sess w)) input))
    as [content|] eqn:Hc.
  - rewrite (on_line_query_success O cfg input w content Hq Hc).
    pose proof (logInteraction_frames O cfg input content (activePersona (sess w))
                  (after_render cfg input content w)) as [Hs (evs & Ht & Hev)].
    unfold bind, rl_prompt.
    destruct (logInteraction O cfg input content (activePersona (sess w))
                (after_render cfg input content w)) as [[[]|e] w1];
      cbn [fst snd] in *.
    + split; [exact Hs|]. run_monad. rewrite Ht. unfold after_render. cbn.
      exists (ChatCompletion (request_for cfg (activePersona (sess w)) input)
              :: Render content (activePersona (sess w)) :: evs).
      split; [rewrite <- !app_assoc; reflexivity|].
      cbn. apply prompts_logger. assumption.
    + split; [exact Hs|]. rewrite Ht. unfold after_render. cbn.
      rewrite !prompts_app, (prompts_logger evs Hev). cbn. lia.
  - rewrite (on_line_query_failure O cfg input w Hq Hc). cbn [fst snd].
    split; [reflexivity|]. unfold after_request. cbn.
    rewrite prompts_app. cbn. lia.
Qed.

(** X1. Whatever the line, the listener shows the prompt at most once:
    exactly once, as its last action, when it returns from any branch
    but the exit branch, and not at all when it closes the stream or
    throws. *)
Theorem one_prompt_per_line (O : oracle) (cfg : config) (input : string) (w : world) :
  prompts (trace (snd (on_line O cfg input w)))
  = prompts (trace w)
    + match fst (on_line O cfg input w) with
      | Return _ => if branch_is_exit (classify cfg input) then 0 else 1
      | Throw _ => 0
      end /\
  match fst (on_line O cfg input w) with
  | Return _ =>
      if branch_is_exit (classify cfg input) then True
      else exists evs, trace (snd (on_line O cfg input w)) = trace w ++ evs ++ [RlPrompt]
  | Throw _ => True
  end.
Proof.
  destruct (branch_eq_dec (classify cfg input) BQuery) as [Hq|Hq].
  - destruct (on_line_query_shape O cfg input w Hq) as [_ H]. rewrite Hq. cbn.
    destruct (fst (on_line O cfg input w)).
    + destruct H as (evs0 & -> & H0). split; [|eauto].
      rewrite !prompts_app, H0. cbn. lia.
    + split; [lia | exact I].
  - destruct (on_line_command O cfg input w Hq) as (s' & evs & -> & _ & H & _).
    cbn [fst snd]. destruct (branch_is_exit (classify cfg input)).
    + destruct H as [H _]. cbn. rewrite prompts_app, H. split; [lia | exact I].
    + destruct H as [(evs0 & -> & H0) _]. cbn. split; [|eauto].
      rewrite !prompts_app, H0. cbn. lia.
Qed.

(** X2. A line that is not a free-text query is handled on the console
    alone: the listener returns, makes no completion request and no
    file operation, reads no clock, and leaves the logger state and
    the disk as they were. *)
Theorem only_queries_reach_outside (O : oracle) (cfg : config)
    (input : string) (w : world) :
  classify cfg input <> BQuery ->
  fst (on_line O cfg input w) = Return tt /\
  logr (snd (on_line O cfg input w)) = logr w /\
  fsys (snd (on_line O cfg input w)) = fsys w /\
  ticks (snd (on_line O cfg input w)) = ticks w /\
  gateway_calls (trace (snd (on_line O cfg input w))) = gateway_calls (trace w) /\
  exists evs, trace (snd (on_line O cfg input w)) = trace w ++ evs /\
              Forall is_console_event evs.
Proof.
  intros Hq.
  destruct (on_line_command O cfg input w Hq) as (s' & evs & -> & Hev & _).
  cbn. repeat split; try reflexivity.
  - rewrite gateway_calls_app, (gateway_calls_console evs Hev), app_nil_r.
    reflexivity.
  - eauto.
Qed.

Lemma only_queries_reach_outside_witness :
  classify default_config "/personas" <> BQuery /\
  ticks (snd (on_line offline default_config "/personas" at_prompt)) = 0 /\
  fsys (snd (on_line offline default_config "/personas" at_prompt)) = empty_disk.
Proof.
  assert (H : classify default_config "/personas" <> BQuery) by discriminate.
  split; [exact H|].
  destruct (only_queries_reach_outside offline default_config "/personas"
              at_prompt H) as (_ & _ & Hf & Ht & _).
  split; [exact Ht | exact Hf].
Defined.

(** X3. A free-text query never changes the session state: the active
    persona, the prompt text, the mock flag and the open stream are
    the same after the line, whether the request, the rendering and
    the logging succeed or the listener throws. *)
Theorem query_keeps_session (O : oracle) (cfg : config) (input : string) (w : world) :
  classify cfg input = BQuery ->
  sess (snd (on_line O cfg input w)) = sess w.
Proof. intros Hq. apply (on_line_query_shape O cfg input w Hq). Qed.

Lemma query_keeps_session_witness :
  classify default_config "How do I sort?" = BQuery /\
  sess (snd (on_line no_mkdir default_config "How do I sort?" at_prompt))
  = sess at_prompt.
Proof.
  split; [reflexivity|].
  apply (query_keeps_session no_mkdir default_config "How do I sort?" at_prompt).
  reflexivity.
Defined.

Lemma dispatch_prompt_in_step O cfg i w :
  prompt_in_step w -> prompt_in_step (snd (dispatch O cfg i w)).
Proof.
  unfold prompt_in_step. intros Hw. destruct i as [text|]; cbn [dispatch].
  - destruct (branch_eq_dec (classify cfg text) BQuery) as [Hq|Hq].
    + destruct (on_line_query_shape O cfg text w Hq) as [-> _]. assumption.
    + destruct (on_line_command O cfg text w Hq)
        as (s' & evs & -> & _ & _ & [[Ha Hp] | H]); cbn; congruence.
  - unfold on_sigint, console_log, rl_close. run_monad. assumption.
Qed.

Lemma run_prompt_in_step O cfg inputs : forall w,
  prompt_in_step w -> prompt_in_step (snd (run O cfg inputs w)).
Proof.
  induction inputs as [|i rest IH]; intros w Hw; cbn [run].
  - assumption.
  - destruct (rl_closed (sess w)); [assumption|].
    pose proof (dispatch_prompt_in_step O cfg i w Hw) as Hstep.
    destruct (dispatch O cfg i w) as [[[]|e] w1]; cbn in Hstep; auto.
Qed.

(** X4. At every point of a session the prompt names the active
    persona: the prompt text is reset whenever the persona changes. *)
Theorem prompt_names_active_persona (O : oracle) (cfg : config) (d : disk)
    (inputs : list input_event) :
  rl_prompt_text (sess (snd (session_run O cfg d inputs)))
  = activePersona (sess (snd (session_run O cfg d inputs))).
Proof.
  unfold session_run.
  destruct (startTerminal cfg (boot cfg d)) as [[[]|e] w1] eqn:Hstart;
    unfold startTerminal, set_activePersona, setPrompt, rl_prompt in Hstart;
    revert Hstart; run_monad; intros [= <-].
  apply run_prompt_in_step. reflexivity.
Qed.


(* ===================================================================== *)
(** ** Normal forms of the typed line *)
(* ===================================================================== *)

Lemma lower_char_idem c : Str.lower_char (Str.lower_char c) = Str.lower_char c.
Proof. destruct c as [[] [] [] [] [] [] [] []]; reflexivity. Qed.

Lemma is_alnum_lower_char c : Str.is_alnum (Str.lower_char c) = Str.is_alnum c.
Proof. destruct c as [[] [] [] [] [] [] [] []]; reflexivity. Qed.

Lemma toLowerCase_idem s : Str.toLowerCase (Str.toLowerCase s) = Str.toLowerCase s.
Proof.
  induction s as [|c s IH]; [reflexivity|].
  cbn. rewrite lower_char_idem, IH. reflexivity.
Qed.

Lemma has_alnum_toLowerCase s : Str.has_alnum (Str.toLowerCase s) = Str.has_alnum s.
Proof.
  induction s as [|c s IH]; [reflexivity|].
  cbn. rewrite is_alnum_lower_char, IH. reflexivity.
Qed.

Lemma trimStart_toLowerCase s :
  Str.trimStart (Str.toLowerCase s) = Str.toLowerCase (Str.trimStart s).
Proof.
  induction s as [|c s IH]; [reflexivity|].
  cbn. rewrite is_space_lower_char. destruct (Str.is_space c); [exact IH | reflexivity].
Qed.

Lemma trimEnd_toLowerCase s :
  Str.trimEnd (Str.toLowerCase s) = Str.toLowerCase (Str.trimEnd s).
Proof.
  induction s as [|c s IH]; [reflexivity|].
  cbn. rewrite IH, is_space_lower_char.
  destruct (Str.trimEnd s); cbn; [destruct (Str.is_space c)|]; reflexivity.
Qed.

Lemma trim_toLowerCase s :
  Str.trim (Str.toLowerCase s) = Str.toLowerCase (Str.trim s).
Proof. unfold Str.trim. rewrite trimStart_toLowerCase. apply trimEnd_toLowerCase. Qed.

Lemma trimEnd_idem s : Str.trimEnd (Str.trimEnd s) = Str.trimEnd s.
Proof.
  induction s as [|c s IH]; [reflexivity|].
  cbn [Str.trimEnd]. destruct (Str.trimEnd s) as [|a r] eqn:He.
  - destruct (Str.is_space c) eqn:Hc; [reflexivity|]. cbn. rewrite Hc. reflexivity.
  - apply trimEnd_cons; [exact IH | discriminate].
Qed.

Lemma trimStart_solid s : starts_solid (Str.trimStart s).
Proof.
  induction s as [|c s IH]; [exact I|].
  cbn. destruct (Str.is_space c) eqn:Hc; [exact IH | exact Hc].
Qed.

Lemma trimStart_of_solid s : starts_solid s -> Str.trimStart s = s.
Proof. destruct s as [|c s]; [reflexivity|]. cbn. intros ->. reflexivity. Qed.

Lemma trimEnd_solid s : starts_solid s -> starts_solid (Str.trimEnd s).
Proof.
  destruct s as [|c s]; [auto|]. cbn. intros Hc.
  destruct (Str.trimEnd s); [rewrite Hc|]; exact Hc.
Qed.

Lemma trim_idem s : Str.trim (Str.trim s) = Str.trim s.
Proof.
  unfold Str.trim.
  rewrite (trimStart_of_solid (Str.trimEnd (Str.trimStart s))).
  - apply trimEnd_idem.
  - apply trimEnd_solid, trimStart_solid.
Qed.

Lemma classify_trim cfg input : classify cfg (Str.trim input) = classify cfg input.
Proof. unfold classify. rewrite trim_idem. reflexivity. Qed.

Lemma includes_inv (l : list string) (x : string) :
  Str.includes l x = true -> In x l.
Proof.
  unfold Str.includes. intros H. apply existsb_exists in H as (y & Hy & He).
  apply String.eqb_eq in He. subst. assumption.
Qed.

(** X6. White space around a command is immaterial: the listener
    classifies the trimmed line as it classifies the line, and on a
    line that is not a free-text query it does exactly what it does on
    the trimmed line. (A query is sent as typed.) *)
Theorem surrounding_whitespace_is_ignored (O : oracle) (cfg : config)
    (input : string) (w : world) :
  classify cfg input <> BQuery ->
  classify cfg (Str.trim input) = classify cfg input /\
  on_line O cfg (Str.trim input) w = on_line O cfg input w.
Proof.
  intros Hq. split; [apply classify_trim|].
  revert Hq. unfold classify, on_line. cbv zeta. rewrite trim_idem.
  repeat match goal with
         | |- context [if ?b then _ else _] => destruct b
         end; try reflexivity.
  intros H. contradiction H. reflexivity.
Qed.

Lemma surrounding_whitespace_is_ignored_witness :
  classify default_config "  /sql  " <> BQuery /\
  on_line offline default_config (Str.trim "  /sql  ") at_prompt
  = on_line offline default_config "  /sql  " at_prompt.
Proof.
  assert (H : classify default_config "  /sql  " <> BQuery) by discriminate.
  split; [exact H|].
  apply (surrounding_whitespace_is_ignored offline default_config "  /sql  "
           at_prompt H).
Defined.

(** X7. A line ends the session through the exit branch only when its
    trimmed, lower-cased form is literally one of the configured
    tokens. So the only tokens that can ever fire are those that are
    already trimmed, already in lower case and contain an alphanumeric
    character; any other configured token is dead. *)
Theorem exit_requires_normal_token (cfg : config) (input : string) :
  classify cfg input = BExit ->
  let t := Str.toLowerCase (Str.trim input) in
  In t (exitCommands cfg) /\
  Str.trim t = t /\ Str.toLowerCase t = t /\ Str.has_alnum t = true.
Proof.
  unfold classify. cbv zeta.
  destruct (String.eqb (Str.trim input) ""); [discriminate|].
  destruct (Str.has_alnum (Str.trim input)) eqn:Ha; cbn [negb]; [|discriminate].
  repeat match goal with
         | |- context [if ?b then _ else _] => destruct b eqn:?; try discriminate
         end.
  intros _. split; [apply includes_inv; assumption|].
  split; [rewrite trim_toLowerCase, trim_idem; reflexivity|].
  split; [apply toLowerCase_idem|].
  rewrite has_alnum_toLowerCase. exact Ha.
Qed.

Lemma exit_requires_normal_token_witness :
  classify default_config "  QUIT " = BExit /\
  In "quit" (exitCommands default_config).
Proof.
  split; [reflexivity|].
  apply (exit_requires_normal_token default_config "  QUIT " eq_refl).
Defined.

Lemma free_of_app c a b : free_of c (a +:+ b) = free_of c a && free_of c b.
Proof.
  unfold free_of. induction a as [|x a IH]; [reflexivity|].
  change (String x a +:+ b) with (String x (a +:+ b)). cbn.
  rewrite IH, andb_assoc. reflexivity.
Qed.

Lemma string_length_app a b : String.length (a +:+ b) = String.length a + String.length b.
Proof.
  induction a as [|x a IH]; [reflexivity|].
  change (String x a +:+ b) with (String x (a +:+ b)). cbn. rewrite IH. reflexivity.
Qed.

Lemma toLowerCase_app a b :
  Str.toLowerCase (a +:+ b) = Str.toLowerCase a +:+ Str.toLowerCase b.
Proof.
  induction a as [|x a IH]; [reflexivity|].
  change (String x a +:+ b) with (String x (a +:+ b)). cbn [Str.toLowerCase].
  rewrite IH. reflexivity.
Qed.

(** X8. A line without any letter or digit never gets past the
    second test of the listener: it is answered with the hint for
    invalid input. So the line [?], which the help menu lists, does
    not show the help menu; only [/help] and [help] do. *)
Theorem question_mark_never_shows_help (O : oracle) (cfg : config)
    (input : string) (w : world) :
  (Str.trim input <> "" -> Str.has_alnum (Str.trim input) = false ->
   on_line O cfg input w
   = (Return tt, set_trace (trace w ++ [ConsoleLog InvalidHint; RlPrompt]) w)) /\
  (Str.trim input = "?" -> classify cfg input = BInvalid) /\
  (classify cfg input = BHelp ->
   Str.trim input = "/help" \/ Str.trim input = "help").
Proof.
  split; [|split].
  - intros Hne Ha. unfold on_line. cbv zeta.
    apply String.eqb_neq in Hne. rewrite Hne, Ha. cbn [negb].
    unfold console_log, rl_prompt. run_monad. rewrite <- app_assoc. reflexivity.
  - intros Hq. unfold classify. cbv zeta. rewrite Hq. reflexivity.
  - unfold classify. cbv zeta.
    destruct (String.eqb (Str.trim input) ""); [discriminate|].
    destruct (Str.has_alnum (Str.trim input)) eqn:Ha; cbn [negb]; [|discriminate].
    repeat match goal with
           | |- context [if ?b then _ else _] => destruct b eqn:?; try discriminate
           end.
    intros _. unfold is_help in *.
    destruct (String.eqb_spec (Str.trim input) "/help"); [auto|].
    destruct (String.eqb_spec (Str.trim input) "help"); [auto|].
    destruct (String.eqb_spec (Str.trim input) "?") as [Hq|]; [|discriminate].
    rewrite Hq in Ha. discriminate.
Qed.

Lemma question_mark_never_shows_help_witness :
  Str.trim " ? " = "?" /\ classify default_config " ? " = BInvalid.
Proof.
  split; [reflexivity|].
  apply (question_mark_never_shows_help offline default_config " ? " at_prompt).
  reflexivity.
Defined.

(* ===================================================================== *)
(** ** The requests of a session *)
(* ===================================================================== *)

Lemma registered_own p : registered p = true -> exists text, own_property personas p = Some text.
Proof. unfold registered. destruct (own_property personas p); [eauto | discriminate]. Qed.

Lemma request_for_registry cfg p input :
  registered p = true -> registry_request cfg (request_for cfg p input).
Proof.
  intros Hp. destruct (registered_own p Hp) as [text Ht].
  unfold registry_request, request_for. cbn.
  split; [reflexivity|]. split; [reflexivity|].
  exists p, text. split; [assumption|]. apply systemMessage_registered. assumption.
Qed.

Lemma dispatch_requests O cfg i w :
  registered (activePersona (sess w)) = true ->
  Forall (registry_request cfg) (gateway_calls (trace w)) ->
  Forall (registry_request cfg) (gateway_calls (trace (snd (dispatch O cfg i w)))).
Proof.
  intros Hreg Hall. destruct i as [text|]; cbn [dispatch].
  - destruct (branch_eq_dec (classify cfg text) BQuery) as [Hq|Hq].
    + rewrite (on_line_query_calls O cfg text w Hq).
      apply Forall_app. split; [assumption|].
      constructor; [|constructor]. apply request_for_registry. assumption.
    + destruct (on_line_command O cfg text w Hq) as (s' & evs & -> & Hev & _).
      cbn. rewrite gateway_calls_app, (gateway_calls_console evs Hev), app_nil_r.
      assumption.
  - unfold on_sigint, console_log, rl_close. run_monad.
    rewrite <- app_assoc, gateway_calls_app. cbn. rewrite app_nil_r. assumption.
Qed.

Lemma run_requests O cfg inputs : forall w,
  registered (activePersona (sess w)) = true ->
  plain_inputs inputs = true ->
  Forall (registry_request cfg) (gateway_calls (trace w)) ->
  Forall (registry_request cfg) (gateway_calls (trace (snd (run O cfg inputs w)))).
Proof.
  induction inputs as [|i rest IH]; intros w Hreg Hplain Hall; cbn [run].
  - destruct (rl_closed (sess w)); assumption.
  - destruct (rl_closed (sess w)); [assumption|].
    cbn in Hplain. apply andb_prop in Hplain as [Hi Hrest].
    apply negb_true_iff in Hi.
    pose proof (dispatch_registered O cfg i w Hreg Hi) as Hstep.
    pose proof (dispatch_requests O cfg i w Hreg Hall) as Hcalls.
    destruct (dispatch O cfg i w) as [[[]|e] w1]; cbn in Hstep, Hcalls.
    + apply IH; assumption.
    + assumption.
Qed.

(** X9. When the configured default persona is a registry key, every
    completion request of a session (none of whose lines names a
    property inherited from [Object.prototype]) carries the configured
    model and temperature and, as its system message, the prompt of a
    registry entry: the fallback to the default persona's prompt is
    never needed and the system message is never undefined. *)
Theorem session_requests_use_registry_prompts (O : oracle) (cfg : config)
    (d : disk) (inputs : list input_event) :
  registered (defaultPersona cfg) = true ->
  plain_inputs inputs = true ->
  Forall (registry_request cfg)
         (gateway_calls (trace (snd (session_run O cfg d inputs)))).
Proof.
  intros Hreg Hplain. unfold session_run.
  destruct (startTerminal cfg (boot cfg d)) as [[[]|e] w1] eqn:Hstart;
    unfold startTerminal, set_activePersona, setPrompt, rl_prompt in Hstart;
    revert Hstart; run_monad; intros [= <-].
  apply run_requests; cbn; [assumption | assumption | constructor].
Qed.

Lemma session_requests_use_registry_prompts_witness :
  registered (defaultPersona default_config) = true /\
  plain_inputs [Line "/sql"; Line "How do I join?"; Line "exit"] = true /\
  Forall (registry_request default_config)
         (gateway_calls (trace (snd (session_run online default_config empty_disk
            [Line "/sql"; Line "How do I join?"; Line "exit"])))).
Proof.
  split; [reflexivity|]. split; [reflexivity|].
  apply (session_requests_use_registry_prompts online default_config empty_disk
           [Line "/sql"; Line "How do I join?"; Line "exit"]); reflexivity.
Defined.

(** X10. The system message of a request: the prompt of the persona
    passed in when it is a registry key; otherwise, unless the name is
    one every object inherits, the prompt of the default persona. With
    a registered default persona the message is therefore never
    missing, whatever persona is passed. *)
Theorem system_message_fallback (cfg : config) (p : string) :
  registered (defaultPersona cfg) = true ->
  truthy (systemMessage cfg p) = true /\
  (registered p = true -> systemMessage cfg p = js_get personas p) /\
  (registered p = false -> Str.includes object_prototype_names p = false ->
   systemMessage cfg p = js_get personas (defaultPersona cfg)).
Proof.
  intros Hd. destruct (registered_own _ Hd) as [dtext Hdt].
  assert (Hdef : truthy (js_get personas (defaultPersona cfg)) = true).
  { unfold js_get. rewrite Hdt. apply (personas_nonempty _ _ Hdt). }
  unfold systemMessage, js_or, registered.
  destruct (truthy (js_get personas p)) eqn:Ht.
  - split; [assumption|]. split; [reflexivity|].
    intros Hp Hi. unfold js_get in Ht |- *.
    destruct (own_property personas p); [discriminate|].
    rewrite Hi in Ht. discriminate.
  - split; [assumption|]. split; [|reflexivity].
    intros Hp. unfold js_get in Ht.
    destruct (own_property personas p) as [text|] eqn:Ho; [|discriminate].
    rewrite (personas_nonempty p text Ho) in Ht. discriminate.
Qed.

Lemma system_message_fallback_witness :
  registered (defaultPersona default_config) = true /\
  systemMessage default_config "analyst" = js_get personas "sas".
Proof.
  split; [reflexivity|].
  apply (system_message_fallback default_config "analyst" eq_refl); reflexivity.
Defined.

(* ===================================================================== *)
(** ** The log: what is written, and when nothing is *)
(* ===================================================================== *)

Lemma console_no_file_event evs :
  Forall is_console_event evs -> Forall no_file_event evs.
Proof.
  intros H. induction H as [|e evs He _ IH]; constructor; [|assumption].
  destruct e; cbn in *; auto.
Qed.

Lemma dispatch_without_logging O cfg i w :
  enabled (logging cfg) = false ->
  disk_untouched w (snd (dispatch O cfg i w)).
Proof.
  intros Hen. unfold disk_untouched. destruct i as [text|]; cbn [dispatch].
  - destruct (branch_eq_dec (classify cfg text) BQuery) as [Hq|Hq].
    + destruct (complete O (ticks w) (request_for cfg (activePersona (sess w)) text))
        as [content|] eqn:Hc.
      * rewrite (on_line_query_success O cfg text w content Hq Hc).
        unfold logInteraction. rewrite Hen. unfold rl_prompt, after_render.
        run_monad. repeat split; try reflexivity.
        intros H. rewrite <- app_assoc. apply Forall_app. split; [assumption|].
        repeat constructor.
      * rewrite (on_line_query_failure O cfg text w Hq Hc).
        unfold after_request. cbn. repeat split; try reflexivity.
        intros H. apply Forall_app. split; [assumption|]. repeat constructor.
    + destruct (on_line_command O cfg text w Hq) as (s' & evs & -> & Hev & _).
      cbn. repeat split; try reflexivity.
      intros H. apply Forall_app. split; [assumption|].
      apply console_no_file_event. assumption.
  - unfold on_sigint, console_log, rl_close. run_monad.
    repeat split; try reflexivity.
    intros H. rewrite <- app_assoc. apply Forall_app. split; [assumption|].
    repeat constructor.
Qed.

Lemma run_without_logging O cfg inputs : forall w,
  enabled (logging cfg) = false ->
  disk_untouched w (snd (run O cfg inputs w)).
Proof.
  induction inputs as [|i rest IH]; intros w Hen; cbn [run].
  - unfold disk_untouched. auto.
  - destruct (rl_closed (sess w)); [unfold disk_untouched; auto|].
    pose proof (dispatch_without_logging O cfg i w Hen) as Hstep.
    destruct (dispatch O cfg i w) as [[[]|e] w1]; cbn in Hstep; [|assumption].
    specialize (IH w1 Hen). unfold disk_untouched in *.
    destruct Hstep as (Hf1 & Hl1 & H1), IH as (Hf2 & Hl2 & H2).
    split; [congruence|]. split; [congruence | auto].
Qed.

(** X11. With logging disabled a whole session leaves the disk and
    the logger state as it found them and performs no file operation
    at all, whatever is typed and whatever the gateway answers. *)
Theorem disabled_logging_touches_nothing (O : oracle) (cfg : config)
    (d : disk) (inputs : list input_event) :
  enabled (logging cfg) = false ->
  fsys (snd (session_run O cfg d inputs)) = d /\
  initialized (logr (snd (session_run O cfg d inputs))) = false /\
  Forall no_file_event (trace (snd (session_run O cfg d inputs))).
Proof.
  intros Hen. unfold session_run.
  destruct (startTerminal cfg (boot cfg d)) as [[[]|e] w1] eqn:Hstart;
    unfold startTerminal, set_activePersona, setPrompt, rl_prompt in Hstart;
    revert Hstart; run_monad; intros [= <-].
  match goal with
  | |- context [run O cfg inputs ?W] =>
      destruct (run_without_logging O cfg inputs W Hen) as (Hf & Hl & H)
  end.
  rewrite Hf, Hl. cbn.
  split; [reflexivity|]. split; [reflexivity|].
  apply H. cbn. repeat constructor.
Qed.

Lemma disabled_logging_touches_nothing_witness :
  enabled (logging silent_config) = false /\
  fsys (snd (session_run online silent_config used_disk
               [Line "How do I sort?"; Line "exit"])) = used_disk.
Proof.
  split; [reflexivity|].
  apply (disabled_logging_touches_nothing online silent_config used_disk
           [Line "How do I sort?"; Line "exit"] eq_refl).
Defined.

(** A call on a resolved log file whose append is not refused. *)
Lemma logInteraction_appends O cfg input response persona w :
  enabled (logging cfg) = true ->
  initialized (logr w) = true ->
  (forall k p data, denied O k (AppendFileSync p data) = false) ->
  let entry := format_entry persona (toLocaleString O (clock O (ticks w)))
                            (Str.trim input) (Str.trim response) in
  logInteraction O cfg input response persona w =
    (Return tt,
     {| sess := sess w; logr := logr w;
        fsys := {| files := <[logPath (logr w) :=
                              content (logPath (logr w)) w +:+ entry]> (files (fsys w));
                   dirs := dirs (fsys w) |};
        ticks := S (S (ticks w));
        trace := trace w ++ [Fs (AppendFileSync (logPath (logr w)) entry)] |}).
Proof.
  intros Hen Hinit Hok. cbv zeta.
  unfold logInteraction, newDate, appendFileSync. rewrite Hen. run_monad.
  rewrite Hinit. cbn. rewrite Hok. reflexivity.
Qed.

(** X12. On a resolved log file, as long as no append is refused,
    successive calls add their entries to the end of that file in call
    order, each stamped with the clock reading taken just before its
    append; no other file and no directory changes. *)
Theorem log_entries_accumulate (O : oracle) (cfg : config)
    (calls : list interaction) (w : world) :
  enabled (logging cfg) = true ->
  initialized (logr w) = true ->
  (forall k p data, denied O k (AppendFileSync p data) = false) ->
  let w' := snd (log_all O cfg calls w) in
  content (logPath (logr w)) w'
  = content (logPath (logr w)) w +:+ entries_of O (ticks w) calls /\
  (forall p, p <> logPath (logr w) -> files (fsys w') !! p = files (fsys w) !! p) /\
  dirs (fsys w') = dirs (fsys w) /\
  ticks w' = ticks w + 2 * length calls.
Proof.
  intros Hen Hinit Hok. cbv zeta. revert w Hinit.
  induction calls as [|c rest IH]; intros w Hinit; cbn [log_all entries_of].
  - cbn. rewrite append_empty_r. repeat split; auto; lia.
  - unfold bind.
    rewrite (logInteraction_appends O cfg _ _ _ w Hen Hinit Hok).
    match goal with |- context [log_all O cfg rest ?W] => set (w1 := W) end.
    destruct (IH w1 Hinit) as (Hc & Hf & Hd & Ht).
    change (logPath (logr w1)) with (logPath (logr w)) in Hc, Hf.
    split; [|split; [|split]].
    + rewrite Hc. unfold content at 1. subst w1. cbn.
      rewrite lookup_insert_eq. cbn. rewrite append_assoc. reflexivity.
    + intros p Hp. rewrite (Hf p Hp). subst w1. cbn.
      apply lookup_insert_ne. congruence.
    + rewrite Hd. reflexivity.
    + rewrite Ht. subst w1. cbn. lia.
Qed.

Lemma log_entries_accumulate_witness :
  enabled (logging append_config) = true /\
  initialized (logr resumed) = true /\
  content "/app/logs/session.log"
          (snd (log_all online append_config [sample_call; sample_call] resumed))
  = "earlier entries" +:+ entries_of online 4 [sample_call; sample_call].
Proof.
  split; [reflexivity|]. split; [reflexivity|].
  apply (log_entries_accumulate online append_config [sample_call; sample_call]
           resumed eq_refl eq_refl (fun _ _ _ => eq_refl)).
Defined.

Example ancestors_ex :
  ancestors "/app/var/log/sas" = ["/"; "/app"; "/app/var"; "/app/var/log"] /\
  ancestors "/app" = ["/"] /\ ancestors "logs" = [].
Proof. repeat split. Qed.

(** X13. A first resolution that returns performs these file
    operations and no others, in this order: the existence test of the
    log directory; its creation, only when the test failed; and the
    truncation of the log file, only in overwrite mode. When the
    test failed, the log directory and every directory above it are
    afterwards directories of the disk; otherwise the directories are
    as they were. *)
Theorem first_resolution_operations (O : oracle) (cfg : config) (w : world) :
  enabled (logging cfg) = true ->
  initialized (logr w) = false ->
  fst (initLogFile O cfg w) = Return tt ->
  let logDir := path_resolve O (directory (logging cfg)) in
  let w' := snd (initLogFile O cfg w) in
  trace w' = trace w ++ resolution_ops O cfg w /\
  dirs (fsys w') = (if present logDir w then dirs (fsys w)
                    else {[logDir]} ∪ list_to_set (ancestors logDir)
                         ∪ dirs (fsys w)).
Proof.
  intros Hen Hinit. cbv zeta.
  unfold initLogFile, existsSync, mkdirSync, writeFileSync, newDate,
         set_logPath, set_initialized, resolution_ops, resolved_path,
         resolution_instant.
  run_monad. rewrite Hen, Hinit. cbn.
  change (bool_decide (path_resolve O (directory (logging cfg)) ∈ dirs (fsys w))
          || bool_decide (is_Some (files (fsys w)
                                   !! path_resolve O (directory (logging cfg)))))
    with (present (path_resolve O (directory (logging cfg))) w).
  destruct (present (path_resolve O (directory (logging cfg))) w); cbn;
    case_ifs; intros _; cbn; rewrite <- ?app_assoc; auto.
Qed.

Lemma first_resolution_operations_witness :
  enabled (logging overwrite_config) = true /\
  trace (snd (initLogFile online overwrite_config at_prompt))
  = trace at_prompt ++ [Fs (ExistsSync "/app/logs"); Fs (MkdirSync "/app/logs");
                        Fs (WriteFileSync "/app/logs/session.log" "")].
Proof.
  split; [reflexivity|].
  apply (first_resolution_operations online overwrite_config at_prompt
           eq_refl eq_refl eq_refl).
Defined.

Lemma replace_free_colon s : free_of ":" (Str.replace_colon_dot s) = true.
Proof.
  unfold free_of. induction s as [|c s IH]; [reflexivity|].
  cbn. rewrite IH, andb_true_r. unfold Str.dash_colon_dot.
  destruct (Ascii.eqb c ":") eqn:Hc; cbn; [reflexivity|].
  destruct (Ascii.eqb c "."); [reflexivity | rewrite Hc; reflexivity].
Qed.

Lemma ends_with_app a s : CleanLogs.ends_with (a +:+ s) s = true.
Proof.
  induction a as [|x a IH].
  - change ("" +:+ s) with s.
    destruct s; cbn [CleanLogs.ends_with]; rewrite String.eqb_refl; reflexivity.
  - change (String x a +:+ s) with (String x (a +:+ s)).
    cbn [CleanLogs.ends_with]. rewrite IH. apply orb_true_r.
Qed.

Lemma length_pad2 n k : String.length (pad2 n k) = 2 + String.length k.
Proof. reflexivity. Qed.

(** X14. The file a rotating logger writes is one the retention
    script will consider: whatever the instant, its name ends in
    [.log], so it passes the [*.log] filter, and holds no colon; with
    a four-digit year it is 36 characters long. *)
Theorem rotated_logs_are_prunable (t : instant) (written : Z) (held : bool) :
  CleanLogs.is_log {| CleanLogs.name := rotated_name t;
                      CleanLogs.lastWriteTime := written;
                      CleanLogs.locked := held |} = true /\
  free_of ":" (rotated_name t) = true /\
  (four_digit_year t -> String.length (rotated_name t) = 36).
Proof.
  unfold rotated_name. split; [|split].
  - unfold CleanLogs.is_log. cbn [CleanLogs.name].
    change ("session_" +:+ Str.replace_colon_dot (toISOString t) +:+ ".log")
      with (("session_" +:+ Str.replace_colon_dot (toISOString t)) +:+ ".log").
    rewrite toLowerCase_app. apply ends_with_app.
  - rewrite !free_of_app, replace_free_colon. reflexivity.
  - intros Hy. rewrite (sanitized_timestamp t Hy). cbv zeta.
    rewrite !string_length_app. unfold pad4, pad3. rewrite !length_pad2. reflexivity.
Qed.

Lemma rotated_logs_are_prunable_witness :
  four_digit_year noon /\ String.length (rotated_name noon) = 36.
Proof.
  assert (H : four_digit_year noon) by (unfold four_digit_year, noon; cbn; lia).
  split; [exact H|].
  apply (rotated_logs_are_prunable noon 0 false). exact H.
Defined.

(* ===================================================================== *)
(** ** The renderer *)
(* ===================================================================== *)

Module FormatterFacts.
Import Formatter.

Example parts_ex :
  parts "Try:```sas data a; run;``` or ```sql select 1" =
  ["Try:"; " data a; run;"; " or "; "sql select 1"].
Proof. reflexivity. Qed.

Example console_lines_ex :
  console_lines "Sort: ```sas proc sort; run; ``` Done." (Some "teacher") =
  [ Heading "TEACHER"; Prose "Sort:";
    Code (nl +:+ "proc sort; run;" +:+ nl); Prose "Done."; Rule ].
Proof. reflexivity. Qed.

Lemma startsWith_app s r p :
  Str.startsWith s p = true -> Str.startsWith (s +:+ r) p = true.
Proof.
  revert s. induction p as [|a p IH]; intros s; [reflexivity|].
  destruct s as [|b s]; cbn; [discriminate|].
  intros H. apply andb_prop in H as [Hab Hs].
  change (Ascii.eqb a b && Str.startsWith (s +:+ r) p = true).
  rewrite Hab, (IH s Hs). reflexivity.
Qed.

Lemma parts_from_shape s : forall skip,
  exists h t, parts_from skip s = h :: t /\
              has_fence h = false /\
              Forall (fun p => has_fence p = false) t /\
              (skip = 0 -> exists r, s = h +:+ r).
Proof.
  induction s as [|c s IH]; intros skip.
  - exists "", []. cbn. repeat split; auto. exists "". reflexivity.
  - destruct skip as [|k].
    + cbn [parts_from].
      destruct (Str.startsWith (String c s) "```") eqn:Hf.
      * destruct (IH (if Str.startsWith (String c s) "```sas" then 5 else 2))
          as (h & t & -> & Hh & Ht & _).
        exists "", (h :: t). repeat split; auto.
        exists (String c s). reflexivity.
      * destruct (IH 0) as (h & t & -> & Hh & Ht & Hp).
        destruct (Hp eq_refl) as [r Hr].
        exists (String c h), t. repeat split; auto.
        -- cbn [has_fence]. rewrite Hh, orb_false_r.
           destruct (Str.startsWith (String c h) "```") eqn:Hs; [|reflexivity].
           apply (startsWith_app _ r) in Hs.
           change (String c h +:+ r) with (String c (h +:+ r)) in Hs.
           rewrite <- Hr in Hs. congruence.
        -- exists r. rewrite Hr at 1. reflexivity.
    + cbn [parts_from]. destruct (IH k) as (h & t & -> & Hh & Ht & _).
      exists h, t. repeat split; auto. discriminate.
Qed.

(** X15. Splitting an answer at its code-block markers always yields
    at least one part, and no part contains a marker: whatever lies
    between two markers is rendered whole, as one block. *)
Theorem parts_hold_no_fence (content : string) :
  parts content <> [] /\
  Forall (fun p => has_fence p = false) (parts content).
Proof.
  unfold parts. destruct (parts_from_shape content 0) as (h & t & -> & Hh & Ht & _).
  split; [discriminate|]. constructor; assumption.
Qed.

Lemma parts_no_fence q : has_fence q = false -> parts_from 0 q = [q].
Proof.
  induction q as [|c q IH]; [reflexivity|].
  cbn [has_fence parts_from]. intros H. apply orb_false_elim in H as [Hf Hq].
  rewrite Hf, (IH Hq). reflexivity.
Qed.

Lemma parts_plain p rest :
  no_backquote p = true ->
  parts_from 0 (p +:+ rest) =
    match parts_from 0 rest with
    | h :: t => (p +:+ h) :: t
    | [] => [p]
    end.
Proof.
  unfold no_backquote. induction p as [|c p IH]; intros Hp.
  - change ("" +:+ rest) with rest.
    destruct (parts_from_shape rest 0) as (h & t & -> & _). reflexivity.
  - cbn in Hp. apply andb_prop in Hp as [Hc Hp].
    change (String c p +:+ rest) with (String c (p +:+ rest)).
    cbn [parts_from].
    assert (Hs : Str.startsWith (String c (p +:+ rest)) "```" = false).
    { cbn [Str.startsWith]. apply negb_true_iff in Hc.
      rewrite Ascii.eqb_sym, Hc. reflexivity. }
    rewrite Hs, (IH Hp).
    destruct (parts_from_shape rest 0) as (h & t & -> & _). reflexivity.
Qed.

Lemma parts_fence_sas rest :
  parts_from 0 ("```sas" +:+ rest) = "" :: parts_from 0 rest.
Proof. reflexivity. Qed.

Lemma parts_fence rest :
  Str.startsWith rest "sas" = false ->
  parts_from 0 ("```" +:+ rest) = "" :: parts_from 0 rest.
Proof.
  intros H. change ("```" +:+ rest) with (String "`" (String "`" (String "`" rest))).
  cbn [parts_from].
  change (Str.startsWith (String "`" (String "`" (String "`" rest))) "```") with true.
  change (Str.startsWith (String "`" (String "`" (String "`" rest))) "```sas")
    with (Str.startsWith rest "sas").
  rewrite H. reflexivity.
Qed.

Lemma no_s_no_tag c r :
  Str.startsWith c "s" = false ->
  Str.startsWith (c +:+ "```" +:+ r) "sas" = false.
Proof.
  destruct c as [|a c]; [reflexivity|]. cbn [Str.startsWith].
  rewrite andb_true_r. change (String a c +:+ "```" +:+ r)
    with (String a (c +:+ "```" +:+ r)). cbn [Str.startsWith].
  intros ->. reflexivity.
Qed.

(** X16. An answer without any code-block marker is printed as the
    heading, one prose block holding the trimmed answer, and the
    closing rule. *)
Theorem unfenced_answer_is_one_prose_block (content : string)
    (persona : option string) :
  has_fence content = false ->
  console_lines content persona
  = [Heading (personaLabel persona); Prose (Str.trim content); Rule].
Proof.
  intros H. unfold console_lines, parts. rewrite (parts_no_fence content H).
  reflexivity.
Qed.

Lemma unfenced_answer_is_one_prose_block_witness :
  has_fence " Use PROC SORT. " = false /\
  console_lines " Use PROC SORT. " (Some "sas")
  = [Heading "SAS"; Prose "Use PROC SORT."; Rule].
Proof.
  split; [reflexivity|].
  apply (unfenced_answer_is_one_prose_block " Use PROC SORT. " (Some "sas") eq_refl).
Defined.

(** X17. A fenced block comes back as it went in. For prose [p] and
    code [c] free of backquotes and a tail [q] free of markers that
    does not begin with [sas], the answer [p ```sas c ``` q] is split
    into exactly [p], [c], [q] and printed as prose, code, prose. With
    a bare opening marker the same holds when [c] does not begin with
    the letter [s]: any other language tag stays in the code block. *)
Theorem fenced_block_round_trip (p c q : string) (persona : option string) :
  no_backquote p = true ->
  no_backquote c = true ->
  has_fence q = false ->
  Str.startsWith q "sas" = false ->
  parts (p +:+ "```sas" +:+ c +:+ "```" +:+ q) = [p; c; q] /\
  console_lines (p +:+ "```sas" +:+ c +:+ "```" +:+ q) persona
  = [Heading (personaLabel persona); Prose (Str.trim p);
     Code (nl +:+ Str.trim c +:+ nl); Prose (Str.trim q); Rule] /\
  (Str.startsWith c "s" = false ->
   parts (p +:+ "```" +:+ c +:+ "```" +:+ q) = [p; c; q]).
Proof.
  intros Hp Hc Hq Hsas.
  assert (Hclose : parts_from 0 (c +:+ "```" +:+ q) = [c; q]).
  { rewrite (parts_plain c _ Hc), (parts_fence q Hsas), (parts_no_fence q Hq).
    rewrite append_empty_r. reflexivity. }
  assert (Hopen : parts (p +:+ "```sas" +:+ c +:+ "```" +:+ q) = [p; c; q]).
  { unfold parts. rewrite (parts_plain p _ Hp), parts_fence_sas, Hclose.
    rewrite append_empty_r. reflexivity. }
  split; [exact Hopen|]. split.
  - unfold console_lines. rewrite Hopen. reflexivity.
  - intros Hs. unfold parts.
    rewrite (parts_plain p _ Hp), (parts_fence _ (no_s_no_tag c q Hs)), Hclose.
    rewrite append_empty_r. reflexivity.
Qed.

Lemma fenced_block_round_trip_witness :
  no_backquote "Sort it: " = true /\
  parts ("Sort it: " +:+ "```sas" +:+ " proc sort; run; " +:+ "```" +:+ " Done.")
  = ["Sort it: "; " proc sort; run; "; " Done."].
Proof.
  split; [reflexivity|].
  exact (proj1 (fenced_block_round_trip "Sort it: " " proc sort; run; " " Done."
                  None eq_refl eq_refl eq_refl eq_refl)).
Defined.

End FormatterFacts.

(* ===================================================================== *)
(** ** The configuration *)
(* ===================================================================== *)

Module EnvFacts.
Import Env.

Example parseInt_ex :
  parseInt " 42 days" = Some 42%Z /\ parseInt "-7" = Some (-7)%Z /\
  parseInt "days" = None /\ parseInt "undefined" = None /\ parseInt "" = None.
Proof. repeat split. Qed.

Example config_of_unset_ex : config_of no_float ∅ = default_config.
Proof. reflexivity. Qed.

Lemma split_shape sep s : exists h t, Str.split sep s = h :: t.
Proof.
  induction s as [|c s (h & t & IH)]; cbn [Str.split]; [eauto|].
  destruct (Ascii.eqb c sep); [eauto|]. rewrite IH. eauto.
Qed.

Lemma join_cons sep x h t :
  join sep (x :: h :: t) = x +:+ String sep (join sep (h :: t)).
Proof. reflexivity. Qed.

Lemma join_split sep s : join sep (Str.split sep s) = s.
Proof.
  induction s as [|c s IH]; [reflexivity|].
  cbn [Str.split]. destruct (Ascii.eqb_spec c sep) as [->|Hne].
  - destruct (split_shape sep s) as (h & t & Hs). rewrite Hs in IH |- *.
    rewrite join_cons, IH. reflexivity.
  - destruct (split_shape sep s) as (h & t & Hs). rewrite Hs in IH |- *.
    destruct t as [|h' t].
    + cbn in IH |- *. rewrite IH. reflexivity.
    + rewrite join_cons in IH |- *.
      change (String c h +:+ String sep (join sep (h' :: t)))
        with (String c (h +:+ String sep (join sep (h' :: t)))).
      rewrite IH. reflexivity.
Qed.

Lemma split_free sep s : Forall (fun t => free_of sep t = true) (Str.split sep s).
Proof.
  unfold free_of. induction s as [|c s IH]; cbn [Str.split].
  - repeat constructor.
  - destruct (Ascii.eqb c sep) eqn:Hc.
    + constructor; [reflexivity | assumption].
    + destruct (split_shape sep s) as (h & t & Hs). rewrite Hs in IH |- *.
      inversion IH as [|? ? Hh Ht]; subst. constructor; [|assumption].
      cbn. rewrite Hc, Hh. reflexivity.
Qed.

(** X18. The exit tokens are the comma-separated fields of
    [OPENAI_EXIT_COMMANDS] (of the default list when the variable is
    unset or empty): there is always at least one, none contains a
    comma, and joined with commas they give the variable back, blanks
    included. *)
Theorem exit_commands_round_trip (parseFloat : string -> option Q)
    (env : gmap string string) :
  exitCommands (config_of parseFloat env) <> [] /\
  Forall (fun t => free_of "," t = true) (exitCommands (config_of parseFloat env)) /\
  join "," (exitCommands (config_of parseFloat env))
  = or_default (env !! "OPENAI_EXIT_COMMANDS") "exit,quit,q,:q".
Proof.
  cbn [config_of exitCommands]. split; [|split].
  - destruct (split_shape "," (or_default (env !! "OPENAI_EXIT_COMMANDS")
                                          "exit,quit,q,:q")) as (h & t & ->).
    discriminate.
  - apply split_free.
  - apply join_split.
Qed.

Lemma or_default_delete (env : gmap string string) k key d :
  env !! k = Some "" ->
  or_default (delete k env !! key) d = or_default (env !! key) d.
Proof.
  intros Hk. destruct (decide (k = key)) as [->|Hne].
  - rewrite lookup_delete_eq, Hk. reflexivity.
  - rewrite lookup_delete_ne by assumption. reflexivity.
Qed.

Lemma strict_eq_delete (env : gmap string string) k key lit :
  env !! k = Some "" -> lit <> "" ->
  strict_eq (delete k env !! key) lit = strict_eq (env !! key) lit.
Proof.
  intros Hk Hl. destruct (decide (k = key)) as [->|Hne].
  - rewrite lookup_delete_eq, Hk. cbn. destruct lit; [contradiction | reflexivity].
  - rewrite lookup_delete_ne by assumption. reflexivity.
Qed.

(** X19. A variable set to the empty string counts as unset: for
    every variable but the API key, the configuration is the same
    with the empty value as without the variable, provided
    [parseFloat] reads neither the empty string nor the word
    [undefined] as a number. *)
Theorem empty_value_counts_as_unset (parseFloat : string -> option Q)
    (env : gmap string string) (k : string) :
  parseFloat "" = None ->
  parseFloat "undefined" = None ->
  k <> "OPENAI_API_KEY" ->
  env !! k = Some "" ->
  config_of parseFloat (delete k env) = config_of parseFloat env.
Proof.
  intros Hf0 Hfu Hk He. unfold config_of.
  rewrite !(or_default_delete env k) by assumption.
  rewrite !(strict_eq_delete env k) by (assumption || discriminate).
  rewrite (lookup_delete_ne env k "OPENAI_API_KEY") by assumption.
  assert (Ht : parseFloat (key_of (delete k env !! "OPENAI_TEMPERATURE"))
               = parseFloat (key_of (env !! "OPENAI_TEMPERATURE"))).
  { destruct (decide (k = "OPENAI_TEMPERATURE")) as [->|Hne].
    - rewrite lookup_delete_eq, He. cbn. congruence.
    - rewrite lookup_delete_ne by assumption. reflexivity. }
  assert (Hr : parseInt (key_of (delete k env !! "LOG_RETENTION_DAYS"))
               = parseInt (key_of (env !! "LOG_RETENTION_DAYS"))).
  { destruct (decide (k = "LOG_RETENTION_DAYS")) as [->|Hne].
    - rewrite lookup_delete_eq, He. reflexivity.
    - rewrite lookup_delete_ne by assumption. reflexivity. }
  rewrite Ht, Hr. reflexivity.
Qed.

Lemma empty_value_counts_as_unset_witness :
  blank_env !! "LOGGING_MODE" = Some "" /\
  mode (logging (config_of no_float (delete "LOGGING_MODE" blank_env))) = "rotate" /\
  config_of no_float (delete "LOGGING_MODE" blank_env) = config_of no_float blank_env.
Proof.
  split; [reflexivity|]. split; [reflexivity|].
  apply (empty_value_counts_as_unset no_float blank_env "LOGGING_MODE");
    [reflexivity | reflexivity | discriminate | reflexivity].
Defined.

End EnvFacts.

(* ===================================================================== *)
(** ** The retention script and the container mount *)
(* ===================================================================== *)

Module PruningFacts.
Import CleanLogs Pruning.
Local Open Scope Z_scope.

Lemma threshold_of_past now d m : fst (threshold_of now d m) < now.
Proof.
  unfold threshold_of, AddMinutes, AddDays, assign, ticks_per_day,
         ticks_per_minute.
  cbv zeta.
  destruct (Z.gtb_spec m 0).
  - destruct (in_range _); cbn [fst]; lia.
  - destruct (Z.gtb_spec d 0); [destruct (in_range _)|]; cbn [fst]; lia.
Qed.

Lemma threshold_past to_int i : threshold to_int i < now i.
Proof.
  unfold threshold. destruct (load_retention to_int i) as [d m].
  apply threshold_of_past.
Qed.

Lemma remaining_present to_int i fs :
  log_dir i = Some fs ->
  remaining (clean_logs to_int i)
  = Some (List.filter (survives (threshold to_int i)) fs).
Proof.
  intros Hdir. unfold clean_logs, threshold. rewrite Hdir.
  destruct (load_retention to_int i) as [d m].
  destruct (threshold_of (now i) d m) as [limit display] eqn:Ht.
  pose proof (CleanLogsFacts.sweep_spec limit fs [Cleaning display] [] 0 []) as Hs.
  destruct (sweep limit fs ([Cleaning display], [], 0, [])) as [[[lines errs] n] kept].
  injection Hs as _ _ _ ->. reflexivity.
Qed.

(** X20. Whatever the retention settings, the threshold lies strictly
    before the instant the script reads, and only [.log] files are
    candidates: a file that is not a log, or that was written at or
    after that instant, is still in the directory when the script
    ends. *)
Theorem recent_and_foreign_files_survive (to_int : string -> option Z)
    (i : invocation) (fs : list file) (f : file) :
  log_dir i = Some fs ->
  In f fs ->
  is_log f = false \/ now i <= lastWriteTime f ->
  threshold to_int i < now i /\
  exists kept, remaining (clean_logs to_int i) = Some kept /\ In f kept.
Proof.
  intros Hdir Hin Hf. pose proof (threshold_past to_int i) as Hpast.
  split; [assumption|].
  rewrite (remaining_present to_int i fs Hdir). eexists. split; [reflexivity|].
  apply filter_In. split; [assumption|].
  unfold survives, eligible. destruct Hf as [-> | Hrecent]; [reflexivity|].
  destruct (Z.ltb_spec (lastWriteTime f) (threshold to_int i)); [lia|].
  rewrite andb_false_r. reflexivity.
Qed.

Lemma recent_and_foreign_files_survive_witness :
  log_dir three_days
  = Some [ {| name := "session_old.log"; lastWriteTime := 0; locked := false |};
           {| name := "session_new.log"; lastWriteTime := 9 * ticks_per_day; locked := false |};
           {| name := "notes.txt"; lastWriteTime := 0; locked := false |} ] /\
  exists kept, remaining (clean_logs (fun _ => Some 90) three_days) = Some kept /\
               In {| name := "notes.txt"; lastWriteTime := 0; locked := false |} kept.
Proof.
  split; [reflexivity|].
  apply (recent_and_foreign_files_survive (fun _ => Some 90) three_days _
           {| name := "notes.txt"; lastWriteTime := 0; locked := false |} eq_refl).
  - cbn. auto.
  - left. reflexivity.
Defined.

Lemma filter_idem {A} (f : A -> bool) l :
  List.filter f (List.filter f l) = List.filter f l.
Proof.
  induction l as [|a l IH]; [reflexivity|].
  cbn. destruct (f a) eqn:Ha; [|assumption]. cbn. rewrite Ha, IH. reflexivity.
Qed.

Lemma filter_stuck limit fs :
  List.filter (eligible limit) (List.filter (survives limit) fs)
  = List.filter (fun f => eligible limit f && locked f) fs.
Proof.
  induction fs as [|f fs IH]; [reflexivity|].
  cbn. unfold survives at 1.
  destruct (eligible limit f) eqn:He, (locked f) eqn:Hl; cbn;
    rewrite ?He, ?Hl, ?IH; reflexivity.
Qed.

Lemma filter_still_locked limit fs :
  List.filter (fun f => eligible limit f && locked f)
              (List.filter (survives limit) fs)
  = List.filter (fun f => eligible limit f && locked f) fs.
Proof.
  induction fs as [|f fs IH]; [reflexivity|].
  cbn. unfold survives at 1.
  destruct (eligible limit f) eqn:He, (locked f) eqn:Hl; cbn;
    rewrite ?He, ?Hl, ?IH; reflexivity.
Qed.

Lemma threshold_on_directory to_int i fs :
  threshold to_int (on_directory i fs) = threshold to_int i.
Proof. reflexivity. Qed.

(** X21. Running the script again at once changes nothing more: on
    the directory a first run left, a second run with the same
    settings at the same instant leaves the same files, and hands to
    [Remove-Item] exactly the files the first run failed to remove; if
    the first run removed all it tried, the second finds no eligible
    file. *)
Theorem second_run_changes_nothing (to_int : string -> option Z)
    (i : invocation) (fs kept : list file) :
  log_dir i = Some fs ->
  remaining (clean_logs to_int i) = Some kept ->
  let again := clean_logs to_int (on_directory i kept) in
  remaining again = Some kept /\
  failed again = failed (clean_logs to_int i) /\
  (failed (clean_logs to_int i) = [] ->
   List.last (host again) NoneEligible = NoneEligible /\
   ~ exists n, In (Deleting n) (host again)).
Proof.
  intros Hdir Hrem. cbv zeta.
  rewrite (remaining_present to_int i fs Hdir) in Hrem. injection Hrem as <-.
  rewrite (CleanLogsFacts.clean_logs_present to_int (on_directory i _) _ eq_refl).
  rewrite (CleanLogsFacts.clean_logs_present to_int i fs Hdir).
  cbn [remaining failed host]. rewrite threshold_on_directory.
  set (limit := threshold to_int i).
  split; [rewrite filter_idem; reflexivity|].
  split; [rewrite filter_still_locked; reflexivity|].
  intros Hnone. apply map_eq_nil in Hnone.
  rewrite filter_stuck, Hnone. cbn. split; [reflexivity|].
  intros [n [H|[H|[]]]]; discriminate.
Qed.

Lemma second_run_changes_nothing_witness :
  log_dir locked_directory
  = Some [ {| name := "a.log"; lastWriteTime := 0; locked := true |};
           {| name := "b.log"; lastWriteTime := 1; locked := false |};
           {| name := "c.log"; lastWriteTime := 9 * ticks_per_day; locked := false |} ] /\
  remaining (clean_logs (fun _ => None)
               (on_directory locked_directory
                  [ {| name := "a.log"; lastWriteTime := 0; locked := true |};
                    {| name := "c.log"; lastWriteTime := 9 * ticks_per_day; locked := false |} ]))
  = Some [ {| name := "a.log"; lastWriteTime := 0; locked := true |};
           {| name := "c.log"; lastWriteTime := 9 * ticks_per_day; locked := false |} ].
Proof.
  split; [reflexivity|].
  exact (proj1 (second_run_changes_nothing (fun _ => None) locked_directory _ _
                  eq_refl eq_refl)).
Defined.

(** X22. Arguments given on the command line shut the [.env] file
    out: when either parameter is non-zero, the script does the same
    whatever the file holds, whether it exists, and however its
    values would convert. *)
Theorem arguments_override_env (to_int to_int' : string -> option Z)
    (i : invocation) (present : bool) (minutes days : string) :
  retentionDays i <> 0 \/ retentionMinutes i <> 0 ->
  clean_logs to_int' (with_env i present minutes days) = clean_logs to_int i.
Proof.
  intros Hargs.
  assert (Hload : forall f j, retentionDays j = retentionDays i ->
                              retentionMinutes j = retentionMinutes i ->
                              load_retention f j = (retentionDays i, retentionMinutes i)).
  { intros f j Hd Hm. unfold load_retention. rewrite Hd, Hm.
    destruct (Z.eqb_spec (retentionDays i) 0), (Z.eqb_spec (retentionMinutes i) 0);
      cbn; try reflexivity. lia. }
  unfold clean_logs.
  rewrite (Hload to_int' (with_env i present minutes days) eq_refl eq_refl).
  rewrite (Hload to_int i eq_refl eq_refl). reflexivity.
Qed.

Lemma arguments_override_env_witness :
  (retentionDays three_days <> 0 \/ retentionMinutes three_days <> 0) /\
  clean_logs small_int (with_env three_days false "" "3")
  = clean_logs (fun _ => Some 90) three_days.
Proof.
  assert (H : retentionDays three_days <> 0 \/ retentionMinutes three_days <> 0)
    by (left; discriminate).
  split; [exact H|].
  apply (arguments_override_env (fun _ => Some 90) small_int three_days false "" "3" H).
Defined.

Local Close Scope Z_scope.

Lemma slashes_no_backslash s : free_of "\" (slashes s) = true.
Proof.
  unfold free_of. induction s as [|c s IH]; [reflexivity|].
  cbn. rewrite IH, andb_true_r.
  destruct (Ascii.eqb c "\") eqn:Hc; [reflexivity | rewrite Hc; reflexivity].
Qed.

(** X23. For a resolved path [D:\p] and a Linux engine the [Run]
    task mounts [/mnt/d/p'], with the drive letter in lower case and
    [p'] the path [p] with every backslash turned into a slash, so
    that no backslash is left; run.ps1, which cuts the path one
    character earlier, mounts [/mnt/d//p'] instead. On a path of fewer
    than three characters [Substring(3)] raises its range error. For
    a Windows engine both scripts mount the path as it is. *)
Theorem mount_source_of_drive_path (d : ascii) (p : string) :
  d <> "\"%char ->
  let windowsLogPath := String d (String ":" (String "\" p)) in
  build_mount_source true windowsLogPath
  = Some ("/mnt/" +:+ String (Str.lower_char d) "/" +:+ slashes p) /\
  run_mount_source true windowsLogPath
  = Some ("/mnt/" +:+ String (Str.lower_char d) "//" +:+ slashes p) /\
  free_of "\" ("/mnt/" +:+ String (Str.lower_char d) "/" +:+ slashes p) = true /\
  (forall short, String.length short < 3 -> build_mount_source true short = None) /\
  (forall path, build_mount_source false path = Some path /\
                run_mount_source false path = Some path).
Proof.
  intros Hd. cbv zeta. split; [reflexivity|]. split; [reflexivity|].
  split; [|split].
  - change ("/mnt/" +:+ String (Str.lower_char d) "/" +:+ slashes p)
      with ("/mnt/" +:+ (String (Str.lower_char d) "/" +:+ slashes p)).
    rewrite !free_of_app, slashes_no_backslash.
    unfold free_of at 2. cbn [list_ascii_of_string forallb].
    destruct (Ascii.eqb_spec (Str.lower_char d) "\") as [He|]; [|reflexivity].
    exfalso. apply Hd. revert He.
    destruct d as [[] [] [] [] [] [] [] []]; cbv; congruence.
  - intros short Hlen. unfold build_mount_source, mount_source.
    destruct short as [|a [|b [|c s]]]; cbn in *; try reflexivity. lia.
  - intros path. split; reflexivity.
Qed.

Lemma mount_source_of_drive_path_witness :
  build_mount_source true "C:\Users\me\logs" = Some "/mnt/c/Users/me/logs" /\
  run_mount_source true "C:\Users\me\logs" = Some "/mnt/c//Users/me/logs".
Proof.
  assert (H : "C"%char <> "\"%char) by discriminate.
  destruct (mount_source_of_drive_path "C" "Users\me\logs" H) as (Hb & Hr & _).
  split; [exact Hb | exact Hr].
Defined.

End PruningFacts.

(* ===================================================================== *)
(** ** How a session ends *)
(* ===================================================================== *)

(** X24. An interrupt ends the session from any prompt: the farewell
    is printed, the stream is closed, no prompt follows, and whatever
    input comes after it is not processed. *)
Theorem sigint_terminates (O : oracle) (cfg : config) (rest : list input_event)
    (w : world) :
  rl_closed (sess w) = false ->
  fst (run O cfg (Sigint :: rest) w) = Terminated /\
  trace (snd (run O cfg (Sigint :: rest) w))
  = trace w ++ [ConsoleLog SessionEnded; RlClose] /\
  rl_closed (sess (snd (run O cfg (Sigint :: rest) w))) = true /\
  logr (snd (run O cfg (Sigint :: rest) w)) = logr w /\
  fsys (snd (run O cfg (Sigint :: rest) w)) = fsys w.
Proof.
  intros Hopen. cbn [run dispatch]. rewrite Hopen.
  unfold on_sigint, console_log, rl_close. run_monad.
  rewrite run_closed by reflexivity. cbn.
  rewrite <- app_assoc. repeat split; reflexivity.
Qed.

Lemma sigint_terminates_witness :
  rl_closed (sess at_prompt) = false /\
  fst (run online default_config [Sigint; Line "How do I sort?"] at_prompt)
  = Terminated.
Proof.
  split; [reflexivity|].
  apply (sigint_terminates online default_config [Line "How do I sort?"]
           at_prompt eq_refl).
Defined.

Section Healthy.
Variable O : oracle.
Variable cfg : config.
Hypothesis answers : forall k r, complete O k r <> None.
Hypothesis mkdir_allowed : forall k p, denied O k (MkdirSync p) = false.
Hypothesis write_allowed : forall k p data, denied O k (WriteFileSync p data) = false.

Lemma logInteraction_returns input response persona w :
  fst (logInteraction O cfg input response persona w) = Return tt.
Proof.
  unfold logInteraction, initLogFile, existsSync, mkdirSync, writeFileSync,
         appendFileSync, newDate, set_logPath, set_initialized.
  run_monad.
  destruct (enabled (logging cfg)); cbn; [|reflexivity].
  destruct (initialized (logr w)); cbn.
  - match goal with |- context [denied O ?k ?op] => destruct (denied O k op) end;
      reflexivity.
  - repeat match goal with
           | |- context [if ?b then _ else _] =>
               lazymatch b with
               | denied O ?k (MkdirSync ?p) => rewrite (mkdir_allowed k p)
               | denied O ?k (WriteFileSync ?p ?d) => rewrite (write_allowed k p d)
               | _ => destruct b
               end; cbn
           end; reflexivity.
Qed.

Lemma dispatch_returns i w : fst (dispatch O cfg i w) = Return tt.
Proof.
  destruct i as [text|]; cbn [dispatch].
  - destruct (branch_eq_dec (classify cfg text) BQuery) as [Hq|Hq].
    + destruct (complete O (ticks w) (request_for cfg (activePersona (sess w)) text))
        as [content|] eqn:Hc; [|exfalso; exact (answers _ _ Hc)].
      rewrite (on_line_query_success O cfg text w content Hq Hc).
      pose proof (logInteraction_returns text content (activePersona (sess w))
                    (after_render cfg text content w)) as Hl.
      unfold bind.
      destruct (logInteraction O cfg text content (activePersona (sess w))
                  (after_render cfg text content w)) as [[[]|e] w1];
        [reflexivity | discriminate].
    + destruct (on_line_command O cfg text w Hq) as (s' & evs & -> & _).
      reflexivity.
  - reflexivity.
Qed.

Lemma run_never_rejects inputs : forall w,
  fst (run O cfg inputs w)
  = if rl_closed (sess (snd (run O cfg inputs w))) then Terminated else Idle.
Proof.
  induction inputs as [|i rest IH]; intros w; cbn [run].
  - destruct (rl_closed (sess w)) eqn:Hc; cbn; rewrite Hc; reflexivity.
  - destruct (rl_closed (sess w)) eqn:Hc; [cbn; rewrite Hc; reflexivity|].
    pose proof (dispatch_returns i w) as Hd.
    destruct (dispatch O cfg i w) as [[[]|e] w1]; [apply IH | discriminate].
Qed.

End Healthy.

(** X25. A session is rejected only by a failing gateway or by a
    refused directory creation or truncation: while every completion
    request is answered and neither [mkdirSync] nor [writeFileSync]
    is refused, every listener returns, whatever is typed and even if
    every append to the log is refused, and the session is terminated
    exactly when its input stream has been closed. *)
Theorem healthy_session_never_rejects (O : oracle) (cfg : config) (d : disk)
    (inputs : list input_event) :
  (forall k r, complete O k r <> None) ->
  (forall k p, denied O k (MkdirSync p) = false) ->
  (forall k p data, denied O k (WriteFileSync p data) = false) ->
  fst (session_run O cfg d inputs)
  = if rl_closed (sess (snd (session_run O cfg d inputs)))
    then Terminated else Idle.
Proof.
  intros Ha Hm Hw. unfold session_run.
  destruct (startTerminal cfg (boot cfg d)) as [[[]|e] w1] eqn:Hstart;
    unfold startTerminal, set_activePersona, setPrompt, rl_prompt in Hstart;
    revert Hstart; run_monad; intros [= <-].
  apply run_never_rejects; assumption.
Qed.

Lemma healthy_session_never_rejects_witness :
  (forall k r, complete online k r <> None) /\
  fst (session_run online default_config empty_disk [Line "How do I sort?"]) = Idle.
Proof.
  assert (H : forall k r, complete online k r <> None) by discriminate.
  split; [exact H|].
  apply (healthy_session_never_rejects online default_config empty_disk
           [Line "How do I sort?"] H (fun _ _ => eq_refl) (fun _ _ _ => eq_refl)).
Defined.

(* ===================================================================== *)
(** ** Requests, answers and log entries of a session *)
(* ===================================================================== *)

Lemma renders_app tr1 tr2 : renders (tr1 ++ tr2) = renders tr1 + renders tr2.
Proof.
  induction tr1 as [|e tr1 IH]; [reflexivity|].
  destruct e; cbn; rewrite ?IH; reflexivity.
Qed.

Lemma appends_app tr1 tr2 : appends (tr1 ++ tr2) = appends tr1 + appends tr2.
Proof.
  induction tr1 as [|e tr1 IH]; [reflexivity|].
  destruct e as [| | | | | | |[]]; cbn; rewrite ?IH; reflexivity.
Qed.

Lemma renders_logger evs : Forall is_logger_event evs -> renders evs = 0.
Proof.
  induction 1 as [|e evs He _ IH]; [reflexivity|].
  destruct e; cbn in *; try contradiction; assumption.
Qed.

Lemma renders_console evs : Forall is_console_event evs -> renders evs = 0.
Proof.
  induction 1 as [|e evs He _ IH]; [reflexivity|].
  destruct e; cbn in *; try contradiction; assumption.
Qed.

Lemma appends_console evs : Forall is_console_event evs -> appends evs = 0.
Proof.
  induction 1 as [|e evs He _ IH]; [reflexivity|].
  destruct e; cbn in *; try contradiction; assumption.
Qed.

(** A call of the logger attempts one append when it returns with
    logging enabled, and none otherwise. *)
Lemma logInteraction_appends_once O cfg input response persona w :
  appends (trace (snd (logInteraction O cfg input response persona w)))
  = appends (trace w)
    + match fst (logInteraction O cfg input response persona w) with
      | Return _ => if enabled (logging cfg) then 1 else 0
      | Throw _ => 0
      end.
Proof.
  unfold logInteraction, initLogFile, existsSync, mkdirSync, writeFileSync,
         appendFileSync, newDate, set_logPath, set_initialized.
  run_monad.
  destruct (enabled (logging cfg)); cbn; [|lia].
  repeat match goal with
         | |- context [if ?b then _ else _] => destruct b; cbn
         end;
    rewrite ?appends_app; cbn; lia.
Qed.

Lemma dispatch_accounting O cfg i w :
  settled cfg w ->
  match fst (dispatch O cfg i w) with
  | Return _ => settled cfg (snd (dispatch O cfg i w))
  | Throw _ => pending cfg (snd (dispatch O cfg i w))
  end.
Proof.
  intros Hs. pose proof Hs as [Hc Ha]. destruct i as [text|]; cbn [dispatch].
  - destruct (branch_eq_dec (classify cfg text) BQuery) as [Hq|Hq].
    + destruct (complete O (ticks w) (request_for cfg (activePersona (sess w)) text))
        as [content|] eqn:Hcomp.
      * rewrite (on_line_query_success O cfg text w content Hq Hcomp).
        pose proof (logInteraction_frames O cfg text content (activePersona (sess w))
                      (after_render cfg text content w)) as [_ (evs & Ht & Hev)].
        pose proof (logInteraction_appends_once O cfg text content
                      (activePersona (sess w)) (after_render cfg text content w)) as Hl.
        unfold bind, rl_prompt.
        destruct (logInteraction O cfg text content (activePersona (sess w))
                    (after_render cfg text content w)) as [[[]|e] w1];
          cbn [fst snd] in *.
        -- run_monad. unfold settled. cbn.
           rewrite gateway_calls_app, renders_app, appends_app, Hl, Ht. cbn.
           unfold after_render. cbn.
           rewrite !gateway_calls_app, !renders_app, !appends_app,
                   (gateway_calls_logger evs Hev), (renders_logger evs Hev).
           cbn. rewrite !List.length_app. cbn.
           destruct (enabled (logging cfg)); lia.
        -- unfold pending. rewrite Hl, Ht. unfold after_render. cbn.
           rewrite !gateway_calls_app, !renders_app, !appends_app,
                   (gateway_calls_logger evs Hev), (renders_logger evs Hev).
           cbn. rewrite !List.length_app. cbn.
           destruct (enabled (logging cfg)); lia.
      * rewrite (on_line_query_failure O cfg text w Hq Hcomp). cbn [fst snd].
        unfold pending, after_request. cbn.
        rewrite gateway_calls_app, renders_app, appends_app, List.length_app. cbn.
        destruct (enabled (logging cfg)); lia.
    + destruct (on_line_command O cfg text w Hq) as (s' & evs & -> & Hev & _).
      cbn. unfold settled. cbn.
      rewrite gateway_calls_app, renders_app, appends_app,
              (gateway_calls_console evs Hev), (renders_console evs Hev),
              (appends_console evs Hev), app_nil_r, !Nat.add_0_r.
      split; assumption.
  - unfold on_sigint, console_log, rl_close. run_monad. unfold settled. cbn.
    rewrite <- app_assoc, gateway_calls_app, renders_app, appends_app. cbn.
    rewrite app_nil_r, !Nat.add_0_r. split; assumption.
Qed.

Lemma run_accounting O cfg inputs : forall w,
  settled cfg w ->
  match fst (run O cfg inputs w) with
  | Rejected _ => pending cfg (snd (run O cfg inputs w))
  | _ => settled cfg (snd (run O cfg inputs w))
  end.
Proof.
  induction inputs as [|i rest IH]; intros w Hs; cbn [run].
  - destruct (rl_closed (sess w)); assumption.
  - destruct (rl_closed (sess w)); [assumption|].
    pose proof (dispatch_accounting O cfg i w Hs) as Hd.
    destruct (dispatch O cfg i w) as [[[]|e] w1]; cbn [fst snd] in *.
    + apply IH. assumption.
    + assumption.
Qed.

(** X26. The books of a session balance. As long as the session has
    not been rejected, every completion request was answered and
    rendered, and every rendered answer was followed by one attempt
    to append it to the log (by none when logging is disabled). A
    rejected session is short by at most the one request that failed
    or the one answer whose logging threw. *)
Theorem session_accounting (O : oracle) (cfg : config) (d : disk)
    (inputs : list input_event) :
  match fst (session_run O cfg d inputs) with
  | Rejected _ => pending cfg (snd (session_run O cfg d inputs))
  | _ => settled cfg (snd (session_run O cfg d inputs))
  end.
Proof.
  unfold session_run.
  destruct (startTerminal cfg (boot cfg d)) as [[[]|e] w1] eqn:Hstart;
    unfold startTerminal, set_activePersona, setPrompt, rl_prompt in Hstart;
    revert Hstart; run_monad; intros [= <-].
  apply run_accounting. unfold settled. cbn.
  destruct (enabled (logging cfg)); split; reflexivity.
Qed.
